(** * NarrativeScope: the signal aggregator, the topic clusterers and the
      key-term extractors, embedded and verified.

    Numbers.  The TypeScript sources compute on JavaScript numbers.  They
    are modelled as exact real numbers extended with [NaN]: rounding error
    of binary64 arithmetic is idealised away, the infinities are left out
    (every division of the modelled code is by a non-zero constant or is
    guarded by a test on the divisor).  [Math.log2] is the real binary
    logarithm.  Strings are sequences of 8-bit code units.

    Effects.  The scans, the conversion script and the page are modelled
    from the answers they receive: the network is a function from a
    query to the outcome of its request, the files read are arguments,
    the clock gives the time stamps.  Waiting, logging and the writing
    of files are left out. *)

From Stdlib Require Import Reals Lra Lia ZArith List Bool.
From Stdlib Require Import String Ascii.
From Stdlib Require Import Sorting.Sorted Sorting.Permutation.
From Stdlib Require DecimalString DecimalNat DecimalFacts.
Import ListNotations.

Open Scope R_scope.

(** ** JavaScript numbers and the [Math] functions the sources call *)

Module JS.

Inductive num : Type :=
| NaN
| Fin (x : R).

Definition add (a b : num) : num :=
  match a, b with Fin x, Fin y => Fin (x + y) | _, _ => NaN end.

Definition sub (a b : num) : num :=
  match a, b with Fin x, Fin y => Fin (x - y) | _, _ => NaN end.

Definition mul (a b : num) : num :=
  match a, b with Fin x, Fin y => Fin (x * y) | _, _ => NaN end.

(** [x / 0] is an infinity or NaN in JavaScript; the model has no
    infinities and answers NaN. *)
Definition div (a b : num) : num :=
  match a, b with
  | Fin x, Fin y => if Req_dec_T y 0 then NaN else Fin (x / y)
  | _, _ => NaN
  end.

(** Comparisons: every comparison with NaN is false. *)
Definition lt (a b : num) : bool :=
  match a, b with
  | Fin x, Fin y => if Rlt_dec x y then true else false
  | _, _ => false
  end.

Definition le (a b : num) : bool :=
  match a, b with
  | Fin x, Fin y => if Rle_dec x y then true else false
  | _, _ => false
  end.

Definition gt (a b : num) : bool := lt b a.
Definition ge (a b : num) : bool := le b a.

Definition eq (a b : num) : bool :=
  match a, b with
  | Fin x, Fin y => if Req_dec_T x y then true else false
  | _, _ => false
  end.

(** [Math.min]: NaN as soon as one argument is NaN. *)
Definition min (a b : num) : num :=
  match a, b with Fin x, Fin y => Fin (Rmin x y) | _, _ => NaN end.

(** [Math.round]: the nearest integer, ties towards +infinity. *)
Definition roundR (x : R) : Z := Int_part (x + / 2).

Definition round (a : num) : num :=
  match a with Fin x => Fin (IZR (roundR x)) | NaN => NaN end.

(** [Math.log2]; NaN on negative arguments (and, for want of an infinity,
    at 0). *)
Definition log2 (a : num) : num :=
  match a with
  | Fin x => if Rlt_dec 0 x then Fin (ln x / ln 2) else NaN
  | NaN => NaN
  end.

Definition ofNat (n : nat) : num := Fin (INR n).

End JS.

Declare Scope js_scope.
Delimit Scope js_scope with js.
Bind Scope js_scope with JS.num.
Infix "+" := JS.add : js_scope.
Infix "-" := JS.sub : js_scope.
Infix "*" := JS.mul : js_scope.
Infix "/" := JS.div : js_scope.
Infix ">" := JS.gt : js_scope.
Infix ">=" := JS.ge : js_scope.
Infix "<" := JS.lt : js_scope.
Infix "<=" := JS.le : js_scope.
Infix "==" := JS.eq (at level 70, no associativity) : js_scope.

Coercion JS.Fin : R >-> JS.num.


(** ** Text: case mapping, character classes, the regular expressions of
       the pattern tables, [split] and the stable [Array.prototype.sort] *)

Module Text.

Local Open Scope N_scope.
Local Open Scope bool_scope.

Definition code (c : ascii) : N := N_of_ascii c.

Definition between (lo hi : N) (c : ascii) : bool :=
  (lo <=? code c) && (code c <=? hi).

(** [String.prototype.toLowerCase] on the code units 0..255. *)
Definition lowerChar (c : ascii) : ascii :=
  if between 65 90 c || (between 192 222 c && negb (code c =? 215))
  then ascii_of_N (code c + 32)
  else c.

Fixpoint toLowerCase (s : string) : string :=
  match s with
  | EmptyString => EmptyString
  | String c s' => String (lowerChar c) (toLowerCase s')
  end.

(** The class [\s]: tab, line feed, vertical tab, form feed, carriage
    return, space and no-break space. *)
Definition isSpace (c : ascii) : bool :=
  between 9 13 c || (code c =? 32) || (code c =? 160).

(** The class [\w]. *)
Definition isWord (c : ascii) : bool :=
  between 48 57 c || between 65 90 c || between 97 122 c || (code c =? 95).

(** The class [[a-z0-9]]. *)
Definition isLowerAlnum (c : ascii) : bool :=
  between 97 122 c || between 48 57 c.

(** Line terminators, which [.] does not match. *)
Definition isLineTerminator (c : ascii) : bool :=
  (code c =? 10) || (code c =? 13).

(** Regular expressions of the pattern tables: sequences of literal
    characters, [.], [c?], [.*], [\b] and [\s], all under the flag [i]. *)
Inductive atom : Type :=
| Chr (c : ascii)
| Any
| Opt (c : ascii)
| AnyStar
| WordB
| Space.

Definition RegExp : Type := list atom.

Fixpoint lit (s : string) : RegExp :=
  match s with
  | EmptyString => []
  | String c s' => Chr c :: lit s'
  end.

Definition eqChar_i (c d : ascii) : bool :=
  Ascii.eqb (lowerChar c) (lowerChar d).

Definition isWordAt (c : option ascii) : bool :=
  match c with Some d => isWord d | None => false end.

Definition head (s : string) : option ascii :=
  match s with String c _ => Some c | EmptyString => None end.

(** [matchHere p prev s]: does [p] match a prefix of [s], the character
    before [s] being [prev]? *)
Fixpoint matchHere (p : RegExp) (prev : option ascii) (s : string)
  {struct p} : bool :=
  match p with
  | [] => true
  | Chr c :: p' =>
      match s with
      | String d s' => eqChar_i c d && matchHere p' (Some d) s'
      | EmptyString => false
      end
  | Any :: p' =>
      match s with
      | String d s' => negb (isLineTerminator d) && matchHere p' (Some d) s'
      | EmptyString => false
      end
  | Opt c :: p' =>
      match s with
      | String d s' => eqChar_i c d && matchHere p' (Some d) s'
      | EmptyString => false
      end || matchHere p' prev s
  | AnyStar :: p' =>
      (fix star (prev : option ascii) (s : string) {struct s} : bool :=
         matchHere p' prev s ||
         match s with
         | String d s' => negb (isLineTerminator d) && star (Some d) s'
         | EmptyString => false
         end) prev s
  | WordB :: p' =>
      xorb (isWordAt prev) (isWordAt (head s)) && matchHere p' prev s
  | Space :: p' =>
      match s with
      | String d s' => isSpace d && matchHere p' (Some d) s'
      | EmptyString => false
      end
  end.

Fixpoint searchFrom (p : RegExp) (prev : option ascii) (s : string) : bool :=
  matchHere p prev s ||
  match s with
  | String d s' => searchFrom p (Some d) s'
  | EmptyString => false
  end.

(** [RegExp.prototype.test]: a match anywhere in the string. *)
Definition test (p : RegExp) (s : string) : bool := searchFrom p None s.

(** [s.replace(/https?:\/\/\S+/g, "")].  A match runs from its [h] to the
    next white space, so the scan either copies or skips. *)
Definition urlStart (s : string) : bool :=
  match s with
  | String "h" (String "t" (String "t" (String "p" (String "s"
      (String ":" (String "/" (String "/" (String d _)))))))) =>
      negb (isSpace d)
  | String "h" (String "t" (String "t" (String "p"
      (String ":" (String "/" (String "/" (String d _))))))) =>
      negb (isSpace d)
  | _ => false
  end.

Fixpoint stripFrom (skipping : bool) (s : string) : string :=
  match s with
  | EmptyString => EmptyString
  | String c s' =>
      if skipping then
        if isSpace c then String c (stripFrom false s')
        else stripFrom true s'
      else if urlStart s then stripFrom true s'
      else String c (stripFrom false s')
  end.

Definition stripUrls (s : string) : string := stripFrom false s.

(** [s.replace(/[^...]/g, " ")] for a character class given by [keep]. *)
Fixpoint blank (keep : ascii -> bool) (s : string) : string :=
  match s with
  | EmptyString => EmptyString
  | String c s' => String (if keep c then c else " "%char) (blank keep s')
  end.

(** [s.split(/[...]+/)] for a separator class [sep]: the pieces between
    the maximal runs of separators, with an empty first or last piece when
    the string starts or ends with a separator. *)
Fixpoint splitFrom (sep : ascii -> bool) (cur : string) (inSep : bool)
  (s : string) : list string :=
  match s with
  | EmptyString => [cur]
  | String c s' =>
      if sep c then
        if inSep then splitFrom sep EmptyString true s'
        else cur :: splitFrom sep EmptyString true s'
      else splitFrom sep (cur ++ String c EmptyString) false s'
  end.

Definition split (sep : ascii -> bool) (s : string) : list string :=
  splitFrom sep EmptyString false s.

(** [s.slice(0, n)]. *)
Definition slice0 (n : nat) (s : string) : string := String.substring 0 n s.

(** [set.has(w)] for a set given by the list of its elements. *)
Definition has (set : list string) (w : string) : bool :=
  existsb (String.eqb w) set.

End Text.

(** [Array.prototype.sort(compare)], which is stable.  [after a b] says
    that [compare(a, b) > 0], that is, [a] must come after [b].  With a
    comparator that is consistent every stable sort gives this result. *)
Module Arr.

Section Sort.
Context {A : Type} (after : A -> A -> bool).

Fixpoint insert (x : A) (l : list A) : list A :=
  match l with
  | [] => [x]
  | y :: l' => if after x y then y :: insert x l' else x :: y :: l'
  end.

Definition sort (l : list A) : list A := fold_right insert [] l.
End Sort.

End Arr.

(** [Map<string, number>] as the code uses it: entries in insertion order,
    [set] on a present key keeps its place. *)
Module StrMap.

Definition t : Type := list (string * nat).

Fixpoint get (k : string) (m : t) : option nat :=
  match m with
  | [] => None
  | (k', v) :: m' => if String.eqb k' k then Some v else get k m'
  end.

Fixpoint set (k : string) (v : nat) (m : t) : t :=
  match m with
  | [] => [(k, v)]
  | (k', v') :: m' =>
      if String.eqb k' k then (k', v) :: m' else (k', v') :: set k v m'
  end.

Definition entries (m : t) : list (string * nat) := m.

End StrMap.

(** The loop body [wordFreq.set(w, (wordFreq.get(w) ?? 0) + 1)]. *)
Definition countWord (m : StrMap.t) (w : string) : StrMap.t :=
  StrMap.set w (match StrMap.get w m with Some c => c | None => 0 end + 1)%nat m.

(** ** x-scanner.ts: social signals, their clusters and key terms *)

Module XScanner.

Import Text.
Local Open Scope string_scope.
Local Open Scope list_scope.
Local Open Scope js_scope.

Record XSignal : Type := {
  text : string;
  author : string;
  authorId : string;
  likes : JS.num;
  retweets : JS.num;
  replies : JS.num;
  created : string;
  tweetId : string;
  query : string;
  engagementScore : JS.num
}.

(** [uniqueAuthors] is absent from the clusters that the conversion
    script writes, hence optional. *)
Record TopicCluster : Type := {
  topic : string;
  tweetCount : JS.num;
  avgEngagement : JS.num;
  totalEngagement : JS.num;
  topTweets : list XSignal;
  keyTerms : list string;
  uniqueAuthors : option JS.num
}.

Record XScanResult : Type := {
  scannedAt : string;
  queries : list string;
  signals : list XSignal;
  topicClusters : list TopicCluster
}.

Definition computeEngagement (likes rts replies : JS.num) : JS.num :=
  likes + rts * 2 + replies * 1.5.

Definition topicPatterns : list (string * list RegExp) :=
  [ ("Privacy & Confidential Computing",
      [ lit "privac"; lit "confidential"; lit "shielde" ++ [Opt "d"];
        lit "hush"; lit "arcium"; lit "ghost";
        lit "zero" ++ Any :: lit "knowledge"; lit "zk"; lit "encrypt" ]);
    ("AI Agent Infrastructure",
      [ WordB :: lit "agent"; lit "autonomous"; lit "ai" ++ Any :: lit "infra";
        lit "agent" ++ Any :: lit "to" ++ Any :: lit "agent";
        lit "openclaw"; lit "sendai";
        lit "skill" ++ Opt "s" :: Space :: lit "market" ]);
    ("Agent Commerce & Payments",
      [ lit "x402"; lit "agent" ++ Any :: lit "pay";
        lit "machine" ++ Any :: lit "to" ++ Any :: lit "machine";
        lit "icpay";
        lit "usdc" ++ AnyStar :: lit "agent";
        lit "agent" ++ AnyStar :: lit "usdc";
        lit "payment" ++ AnyStar :: lit "agent";
        lit "agent" ++ AnyStar :: lit "payment";
        lit "gusto"; lit "payroll" ++ AnyStar :: lit "solana" ]);
    ("DePIN & Physical Infrastructure",
      [ lit "depin"; lit "helium"; lit "dabba";
        lit "physical" ++ Any :: lit "infra";
        lit "iot" ++ AnyStar :: lit "solana";
        lit "solana" ++ AnyStar :: lit "iot" ]);
    ("Dev Tooling & AI-Assisted Building",
      [ lit "claude" ++ AnyStar :: lit "solana";
        lit "solana" ++ AnyStar :: lit "claude";
        lit "anchor" ++ AnyStar :: lit "ai";
        lit "dev" ++ Any :: lit "tool"; lit "code" ++ Any :: lit "gen";
        lit "ai" ++ AnyStar :: lit "build" ]);
    ("Restaking & Liquid Staking",
      [ lit "restaking"; lit "fragmetric"; lit "solayer";
        lit "liquid" ++ Any :: lit "stak";
        lit "jito" ++ AnyStar :: lit "sol"; lit "lst" ]);
    ("Cross-chain & Interoperability",
      [ lit "cross" ++ Any :: lit "chain"; lit "bridge"; lit "interop";
        lit "wormhole"; lit "multichain"; lit "omnichain" ]) ].

Definition stopWords : list string :=
  [ "the"; "a"; "an"; "is"; "are"; "was"; "were"; "be"; "been"; "being";
    "have"; "has"; "had"; "do"; "does"; "did"; "will"; "would"; "could";
    "should"; "may"; "might"; "can"; "shall"; "to"; "of"; "in"; "for";
    "on"; "with"; "at"; "by"; "from"; "as"; "into"; "through"; "during";
    "before"; "after"; "above"; "below"; "and"; "but"; "or"; "nor"; "not";
    "so"; "yet"; "both"; "either"; "neither"; "each"; "every"; "all";
    "this"; "that"; "these"; "those"; "it"; "its"; "they"; "them"; "their";
    "we"; "us"; "our"; "you"; "your"; "he"; "him"; "his"; "she"; "her";
    "i"; "me"; "my"; "what"; "which"; "who"; "whom"; "how"; "when"; "where";
    "why"; "if"; "than"; "just"; "more"; "most"; "very"; "too"; "also";
    "about"; "up"; "out"; "no"; "https"; "co"; "rt"; "amp" ].

(** The words of one signal that the loop counts. *)
Definition words (s : XSignal) : list string :=
  filter (fun w => (3 <? String.length w)%nat && negb (has stopWords w))
    (split isSpace
       (blank (fun c => isLowerAlnum c || isSpace c)
          (stripUrls (toLowerCase (text s))))).

Definition extractKeyTerms (signals : list XSignal) : list string :=
  let wordFreq :=
    fold_left (fun m s => fold_left countWord (words s) m) signals [] in
  map fst
    (firstn 10
       (Arr.sort (fun a b => JS.gt (JS.ofNat (snd b) - JS.ofNat (snd a)) 0)
          (filter (fun e => (2 <=? snd e)%nat) (StrMap.entries wordFreq)))).

(** The comparator of the final sort is positive when [a] is weaker. *)
Definition strength (c : TopicCluster) : JS.num :=
  tweetCount c * 10 + avgEngagement c.

(** The loop of [clusterByTopic] is cut in two: the signals that match a
    topic, and the cluster pushed for them. *)
Definition matchingSignals (patterns : list RegExp) (signals : list XSignal)
  : list XSignal :=
  filter (fun s => existsb (fun p => test p (text s)) patterns) signals.

Definition clusterOf (topic : string) (matching : list XSignal)
  : TopicCluster :=
  let totalEng :=
    fold_left (fun sum s => sum + engagementScore s) matching (JS.Fin 0) in
  let avgEng := totalEng / JS.ofNat (List.length matching) in
  let keyTerms := extractKeyTerms matching in
  let uniqueAuthors :=
    List.length (nodup string_dec (map authorId matching)) in
  {| topic := topic;
     tweetCount := JS.ofNat (List.length matching);
     avgEngagement := JS.round avgEng;
     totalEngagement := JS.round totalEng;
     topTweets := firstn 5 matching;
     keyTerms := keyTerms;
     uniqueAuthors := Some (JS.ofNat uniqueAuthors) |}.

Definition clusterByTopic (signals : list XSignal) : list TopicCluster :=
  let clusters :=
    flat_map
      (fun '(topic, patterns) =>
         let matching := matchingSignals patterns signals in
         if (List.length matching =? 0)%nat then []
         else [clusterOf topic matching])
      topicPatterns in
  Arr.sort (fun a b => JS.gt (strength b - strength a) 0) clusters.

End XScanner.

(** ** github-scanner.ts: repositories, their clusters and key terms *)

Module GHScanner.

Import Text.
Local Open Scope string_scope.
Local Open Scope list_scope.
Local Open Scope js_scope.

Record GHRepo : Type := {
  name : string;
  fullName : string;
  description : string;
  stars : JS.num;
  forks : JS.num;
  created : string;
  updated : string;
  language : string;
  url : string;
  query : string
}.

Record GHTopicCluster : Type := {
  topic : string;
  repoCount : JS.num;
  totalStars : JS.num;
  avgStars : JS.num;
  topRepos : list GHRepo;
  keyTerms : list string
}.

Record GHScanResult : Type := {
  scannedAt : string;
  queries : list string;
  repos : list GHRepo;
  topicClusters : list GHTopicCluster
}.

Definition topicPatterns : list (string * list RegExp) :=
  [ ("AI Agent Infrastructure",
      [ WordB :: lit "agent"; lit "autonomous"; lit "ai" ++ Any :: lit "agent";
        lit "llm"; lit "chatbot"; lit "assistant";
        lit "skill" ++ [Opt "s"; Space] ]);
    ("Privacy & Confidential Computing",
      [ lit "privac"; lit "confidential"; lit "shielde" ++ [Opt "d"];
        lit "encrypt"; lit "zero" ++ Any :: lit "knowledge"; lit "zk";
        lit "noir"; lit "arcium"; lit "hush" ]);
    ("Payments & Commerce",
      [ lit "payment"; lit "x402"; lit "commerce"; lit "usdc"; lit "pay";
        lit "invoic"; lit "checkout"; lit "merchant" ]);
    ("DePIN",
      [ lit "depin"; lit "iot"; lit "sensor"; lit "physical";
        lit "hardware" ]);
    ("Dev Tooling",
      [ lit "tool"; lit "sdk"; lit "config"; lit "template"; lit "scaffold";
        lit "boilerplate"; lit "starter"; lit "claude" ]);
    ("DeFi & Financial",
      [ lit "defi"; lit "swap"; lit "lend"; lit "borrow"; lit "yield";
        lit "staking"; lit "restaking"; lit "liqui"; lit "amm";
        lit "dex" ]) ].

Definition stopWords : list string :=
  [ "the"; "a"; "an"; "for"; "and"; "with"; "that"; "this"; "from";
    "solana"; "sol"; "built"; "using"; "based" ].

Definition isHyphen (c : ascii) : bool := Ascii.eqb c "-".

(** The words of one repository that the loop counts. *)
Definition words (r : GHRepo) : list string :=
  filter (fun w => (3 <? String.length w)%nat && negb (has stopWords w))
    (split (fun c => isSpace c || isHyphen c)
       (blank (fun c => isLowerAlnum c || isSpace c || isHyphen c)
          (toLowerCase (String.append (name r)
                          (String.append " " (description r)))))).

Definition extractKeyTerms (repos : list GHRepo) : list string :=
  let wordFreq :=
    fold_left (fun m r => fold_left countWord (words r) m) repos [] in
  map fst
    (firstn 10
       (Arr.sort (fun a b => JS.gt (JS.ofNat (snd b) - JS.ofNat (snd a)) 0)
          (filter (fun e => (2 <=? snd e)%nat) (StrMap.entries wordFreq)))).

Definition strength (c : GHTopicCluster) : JS.num :=
  repoCount c * 5 + totalStars c.

Definition matchingRepos (patterns : list RegExp) (repos : list GHRepo)
  : list GHRepo :=
  filter
    (fun r =>
       let text :=
         String.append (name r)
           (String.append " "
              (String.append (description r)
                 (String.append " " (query r)))) in
       existsb (fun p => test p text) patterns)
    repos.

Definition clusterOf (topic : string) (matching : list GHRepo)
  : GHTopicCluster :=
  let totalStars :=
    fold_left (fun sum r => sum + stars r) matching (JS.Fin 0) in
  let avgStars := totalStars / JS.ofNat (List.length matching) in
  let keyTerms := extractKeyTerms matching in
  {| topic := topic;
     repoCount := JS.ofNat (List.length matching);
     totalStars := totalStars;
     avgStars := JS.round (avgStars * 10) / 10;
     topRepos := firstn 5 matching;
     keyTerms := keyTerms |}.

Definition clusterReposByTopic (repos : list GHRepo) : list GHTopicCluster :=
  let clusters :=
    flat_map
      (fun '(topic, patterns) =>
         let matching := matchingRepos patterns repos in
         if (List.length matching =? 0)%nat then []
         else [clusterOf topic matching])
      topicPatterns in
  Arr.sort (fun a b => JS.gt (strength b - strength a) 0) clusters.

End GHScanner.

(** ** The conversion script: its own stop words, key-term extractor,
       pattern table and social clusterer, written without
       [uniqueAuthors] *)

Module Convert.

Import Text.
Local Open Scope string_scope.
Local Open Scope list_scope.
Local Open Scope js_scope.

Definition STOP_WORDS : list string :=
  [ "the"; "a"; "an"; "is"; "are"; "was"; "were"; "be"; "been"; "being";
    "have"; "has"; "had"; "do"; "does"; "did"; "will"; "would"; "could";
    "should"; "may"; "might"; "can"; "shall"; "to"; "of"; "in"; "for";
    "on"; "with"; "at"; "by"; "from"; "as"; "into"; "through"; "during";
    "before"; "after"; "above"; "below"; "and"; "but"; "or"; "nor"; "not";
    "so"; "yet"; "both"; "either"; "neither"; "each"; "every"; "all";
    "this"; "that"; "these"; "those"; "it"; "its"; "they"; "them"; "their";
    "we"; "us"; "our"; "you"; "your"; "he"; "him"; "his"; "she"; "her";
    "i"; "me"; "my"; "what"; "which"; "who"; "whom"; "how"; "when"; "where";
    "why"; "if"; "than"; "just"; "more"; "most"; "very"; "too"; "also";
    "about"; "up"; "out"; "no"; "https"; "co"; "rt"; "amp" ].

Definition extractTweetKeyTerms (signals : list XScanner.XSignal)
  : list string :=
  let freq :=
    fold_left
      (fun m s =>
         let words :=
           filter
             (fun w => (3 <? String.length w)%nat && negb (has STOP_WORDS w))
             (split isSpace
                (blank (fun c => isLowerAlnum c || isSpace c)
                   (stripUrls (toLowerCase (XScanner.text s))))) in
         fold_left countWord words m)
      signals [] in
  map fst
    (firstn 10
       (Arr.sort (fun a b => JS.gt (JS.ofNat (snd b) - JS.ofNat (snd a)) 0)
          (filter (fun e => (2 <=? snd e)%nat) (StrMap.entries freq)))).

Definition X_TOPIC_PATTERNS : list (string * list RegExp) :=
  [ ("Privacy & Confidential Computing",
      [ lit "privac"; lit "confidential"; lit "shielde" ++ [Opt "d"];
        lit "hush"; lit "arcium"; lit "ghost";
        lit "zero" ++ Any :: lit "knowledge"; lit "zk"; lit "encrypt" ]);
    ("AI Agent Infrastructure",
      [ WordB :: lit "agent"; lit "autonomous"; lit "ai" ++ Any :: lit "infra";
        lit "agent" ++ Any :: lit "to" ++ Any :: lit "agent";
        lit "openclaw"; lit "sendai";
        lit "skill" ++ Opt "s" :: Space :: lit "market" ]);
    ("Agent Commerce & Payments",
      [ lit "x402"; lit "agent" ++ Any :: lit "pay";
        lit "machine" ++ Any :: lit "to" ++ Any :: lit "machine";
        lit "icpay";
        lit "usdc" ++ AnyStar :: lit "agent";
        lit "agent" ++ AnyStar :: lit "usdc";
        lit "payment" ++ AnyStar :: lit "agent";
        lit "agent" ++ AnyStar :: lit "payment";
        lit "gusto"; lit "payroll" ++ AnyStar :: lit "solana" ]);
    ("DePIN & Physical Infrastructure",
      [ lit "depin"; lit "helium"; lit "dabba";
        lit "physical" ++ Any :: lit "infra";
        lit "iot" ++ AnyStar :: lit "solana";
        lit "solana" ++ AnyStar :: lit "iot" ]);
    ("Dev Tooling & AI-Assisted Building",
      [ lit "claude" ++ AnyStar :: lit "solana";
        lit "solana" ++ AnyStar :: lit "claude";
        lit "anchor" ++ AnyStar :: lit "ai";
        lit "dev" ++ Any :: lit "tool"; lit "code" ++ Any :: lit "gen";
        lit "ai" ++ AnyStar :: lit "build" ]);
    ("Restaking & Liquid Staking",
      [ lit "restaking"; lit "fragmetric"; lit "solayer";
        lit "liquid" ++ Any :: lit "stak";
        lit "jito" ++ AnyStar :: lit "sol"; lit "lst" ]);
    ("Cross-chain & Interoperability",
      [ lit "cross" ++ Any :: lit "chain"; lit "bridge"; lit "interop";
        lit "wormhole"; lit "multichain"; lit "omnichain" ]) ].

Definition clusterOf (topic : string) (matching : list XScanner.XSignal)
  : XScanner.TopicCluster :=
  let totalEng :=
    fold_left (fun sum s => sum + XScanner.engagementScore s) matching
      (JS.Fin 0) in
  {| XScanner.topic := topic;
     XScanner.tweetCount := JS.ofNat (List.length matching);
     XScanner.avgEngagement :=
       JS.round (totalEng / JS.ofNat (List.length matching));
     XScanner.totalEngagement := JS.round totalEng;
     XScanner.topTweets := firstn 5 matching;
     XScanner.keyTerms := extractTweetKeyTerms matching;
     XScanner.uniqueAuthors := None |}.

Definition clusterTweets (signals : list XScanner.XSignal)
  : list XScanner.TopicCluster :=
  let clusters :=
    flat_map
      (fun '(topic, patterns) =>
         let matching :=
           filter
             (fun s => existsb (fun p => test p (XScanner.text s)) patterns)
             signals in
         if (List.length matching =? 0)%nat then []
         else [clusterOf topic matching])
      X_TOPIC_PATTERNS in
  Arr.sort
    (fun a b =>
       JS.gt
         ((XScanner.tweetCount b * 10 + XScanner.avgEngagement b)
          - (XScanner.tweetCount a * 10 + XScanner.avgEngagement a)) 0)
    clusters.

End Convert.

(** ** aggregator.ts: alignment of the two cluster sets, score, stage and
       confidence *)

Module Aggregator.

Local Open Scope string_scope.
Local Open Scope list_scope.
Local Open Scope js_scope.

Inductive Stage : Type :=
| pre_narrative
| emergence
| acceleration
| peak.

Module Social.
Record Tweet : Type := {
  text : string;
  author : string;
  likes : JS.num;
  url : string
}.
Record t : Type := {
  tweetCount : JS.num;
  avgEngagement : JS.num;
  totalEngagement : JS.num;
  uniqueAuthors : JS.num;
  topTweets : list Tweet;
  keyTerms : list string
}.
End Social.

Module Developer.
Record Repo : Type := {
  name : string;
  description : string;
  stars : JS.num;
  url : string
}.
Record t : Type := {
  repoCount : JS.num;
  totalStars : JS.num;
  avgStars : JS.num;
  topRepos : list Repo;
  keyTerms : list string
}.
End Developer.

(** The record that [aggregateSignals] pushes.  Its [explanation] and
    [buildIdeas], two canned texts chosen by stage and name, are left
    out. *)
Record DetectedNarrative : Type := {
  name : string;
  confidence : JS.num;
  stage : Stage;
  signalScore : JS.num;
  social : Social.t;
  developer : Developer.t
}.

(** [Object.entries(TOPIC_ALIGNMENT)], in the order the keys are written. *)
Definition TOPIC_ALIGNMENT : list (string * (string * string)) :=
  [ ("Privacy Infrastructure",
      ("Privacy & Confidential Computing",
       "Privacy & Confidential Computing"));
    ("AI Agent Economy",
      ("AI Agent Infrastructure", "AI Agent Infrastructure"));
    ("Agent Commerce",
      ("Agent Commerce & Payments", "Payments & Commerce"));
    ("DePIN Growth",
      ("DePIN & Physical Infrastructure", "DePIN"));
    ("Dev Tooling for Solana",
      ("Dev Tooling & AI-Assisted Building", "Dev Tooling"));
    ("Restaking & LSTs",
      ("Restaking & Liquid Staking", "DeFi & Financial"));
    ("Cross-chain",
      ("Cross-chain & Interoperability", "")) ].

(** *** computeSignalScore *)

(** The function is cut at its comments: the social score with its
    diversity bonus, the developer score, the cross-source bonus, and the
    final rounding. *)
Definition diversityBonus (social : Social.t) : JS.num :=
  let diversityRatio :=
    if Social.tweetCount social > 0
    then Social.uniqueAuthors social / Social.tweetCount social
    else JS.Fin 0 in
  JS.min (diversityRatio * Social.uniqueAuthors social) 5.

Definition socialScore (social : Social.t) : JS.num :=
  let socialVolume := JS.min (Social.tweetCount social * 2.5) 15 in
  let socialEngagement := JS.min (Social.avgEngagement social / 60) 20 in
  let diversityBonus := diversityBonus social in
  socialVolume + socialEngagement + diversityBonus.

Definition devScore (developer : Developer.t) : JS.num :=
  let devVolume := JS.min (Developer.repoCount developer * 2) 15 in
  let devQuality := JS.min (Developer.totalStars developer / 10) 20 in
  let devDiversity :=
    if (Developer.repoCount developer > 0)
       && (Developer.avgStars developer > 0)
    then JS.min (Developer.repoCount developer
                 * JS.log2 (Developer.avgStars developer + 1)) 5
    else JS.Fin 0 in
  devVolume + devQuality + devDiversity.

Definition crossSourceBonus (social : Social.t) (developer : Developer.t)
  : JS.num :=
  if (Social.tweetCount social > 0) && (Developer.repoCount developer > 0)
  then
    let socialStrength := JS.min (socialScore social / 30) 1 in
    let devStrength := JS.min (devScore developer / 30) 1 in
    10 + JS.round (socialStrength * devStrength * 10)
  else JS.Fin 0.

Definition computeSignalScore (social : Social.t) (developer : Developer.t)
  : JS.num :=
  JS.min
    (JS.round (socialScore social + devScore developer
               + crossSourceBonus social developer))
    100.

(** *** determineStage *)

Definition determineStage (social : Social.t) (developer : Developer.t)
  : Stage :=
  let hasStrongSocial :=
    (Social.tweetCount social >= 5) && (Social.avgEngagement social >= 100) in
  let hasStrongDev :=
    (Developer.repoCount developer >= 5)
    && (Developer.totalStars developer >= 20) in
  let hasAnySocial := Social.tweetCount social > 0 in
  let hasAnyDev := Developer.repoCount developer > 0 in
  if hasStrongSocial && hasStrongDev
     && (Social.avgEngagement social >= 500)
     && (Social.uniqueAuthors social >= 8)
  then peak
  else if hasStrongSocial && hasStrongDev
          && (Social.avgEngagement social >= 200)
  then acceleration
  else if hasStrongSocial || hasStrongDev then emergence
  else if hasAnyDev && negb hasAnySocial then pre_narrative
  else if hasAnySocial then emergence
  else pre_narrative.

(** *** computeConfidence *)

(** [if (c) confidence += x]. *)
Definition addIf (c : bool) (x : JS.num) (confidence : JS.num) : JS.num :=
  if c then confidence + x else confidence.

Definition rawConfidence (social : Social.t) (developer : Developer.t)
  : JS.num :=
  let confidence := JS.Fin 0.25 in
  let confidence := addIf (Social.tweetCount social >= 3) 0.08 confidence in
  let confidence := addIf (Social.tweetCount social >= 10) 0.07 confidence in
  let confidence :=
    addIf (Social.avgEngagement social >= 100) 0.08 confidence in
  let confidence :=
    addIf (Social.avgEngagement social >= 300) 0.05 confidence in
  let confidence := addIf (Social.uniqueAuthors social >= 3) 0.08 confidence in
  let confidence := addIf (Social.uniqueAuthors social >= 8) 0.07 confidence in
  let confidence :=
    addIf (Developer.repoCount developer >= 3) 0.08 confidence in
  let confidence :=
    addIf (Developer.repoCount developer >= 10) 0.07 confidence in
  let confidence :=
    addIf (Developer.totalStars developer >= 50) 0.05 confidence in
  addIf ((Social.tweetCount social > 0) && (Developer.repoCount developer > 0))
    0.12 confidence.

Definition computeConfidence (social : Social.t) (developer : Developer.t)
  : JS.num :=
  JS.min (JS.round (rawConfidence social developer * 100) / 100) 0.95.

(** *** aggregateSignals *)

(** The snapshot of a found social cluster, and the all-zero one. *)
Definition socialOf (xCluster : option XScanner.TopicCluster) : Social.t :=
  match xCluster with
  | Some xCluster =>
      {| Social.tweetCount := XScanner.tweetCount xCluster;
         Social.avgEngagement := XScanner.avgEngagement xCluster;
         Social.totalEngagement := XScanner.totalEngagement xCluster;
         Social.uniqueAuthors :=
           match XScanner.uniqueAuthors xCluster with
           | Some n => n
           | None => JS.Fin 0
           end;
         Social.topTweets :=
           map (fun t =>
                  {| Social.text := Text.slice0 200 (XScanner.text t);
                     Social.author := XScanner.author t;
                     Social.likes := XScanner.likes t;
                     Social.url :=
                       String.append "https://x.com/i/status/"
                         (XScanner.tweetId t) |})
             (firstn 3 (XScanner.topTweets xCluster));
         Social.keyTerms := XScanner.keyTerms xCluster |}
  | None =>
      {| Social.tweetCount := JS.Fin 0;
         Social.avgEngagement := JS.Fin 0;
         Social.totalEngagement := JS.Fin 0;
         Social.uniqueAuthors := JS.Fin 0;
         Social.topTweets := [];
         Social.keyTerms := [] |}
  end.

Definition developerOf (ghCluster : option GHScanner.GHTopicCluster)
  : Developer.t :=
  match ghCluster with
  | Some ghCluster =>
      {| Developer.repoCount := GHScanner.repoCount ghCluster;
         Developer.totalStars := GHScanner.totalStars ghCluster;
         Developer.avgStars := GHScanner.avgStars ghCluster;
         Developer.topRepos :=
           map (fun r =>
                  {| Developer.name := GHScanner.fullName r;
                     Developer.description :=
                       Text.slice0 200 (GHScanner.description r);
                     Developer.stars := GHScanner.stars r;
                     Developer.url := GHScanner.url r |})
             (firstn 3 (GHScanner.topRepos ghCluster));
         Developer.keyTerms := GHScanner.keyTerms ghCluster |}
  | None =>
      {| Developer.repoCount := JS.Fin 0;
         Developer.totalStars := JS.Fin 0;
         Developer.avgStars := JS.Fin 0;
         Developer.topRepos := [];
         Developer.keyTerms := [] |}
  end.

Definition isNone {A : Type} (o : option A) : bool :=
  match o with None => true | Some _ => false end.

(** The two lookups [topicClusters.find((c) => c.topic === ...)]. *)
Definition xClusterFor (xResult : XScanner.XScanResult)
  (xClusterName : string) : option XScanner.TopicCluster :=
  find (fun c => String.eqb (XScanner.topic c) xClusterName)
    (XScanner.topicClusters xResult).

Definition ghClusterFor (ghResult : GHScanner.GHScanResult)
  (ghClusterName : string) : option GHScanner.GHTopicCluster :=
  find (fun c => String.eqb (GHScanner.topic c) ghClusterName)
    (GHScanner.topicClusters ghResult).

(** One turn of the loop over the alignment table: the record pushed, or
    nothing after a [continue]. *)
Definition narrativeFor (xResult : XScanner.XScanResult)
  (ghResult : GHScanner.GHScanResult)
  (entry : string * (string * string)) : list DetectedNarrative :=
  let '(narrativeName, (xClusterName, ghClusterName)) := entry in
  let xCluster := xClusterFor xResult xClusterName in
  let ghCluster := ghClusterFor ghResult ghClusterName in
  if isNone xCluster && isNone ghCluster then []
  else
    let social := socialOf xCluster in
    let developer := developerOf ghCluster in
    let signalScore := computeSignalScore social developer in
    let stage := determineStage social developer in
    let confidence := computeConfidence social developer in
    if signalScore < 15 then []
    else
      [ {| name := narrativeName;
           confidence := confidence;
           stage := stage;
           signalScore := signalScore;
           social := social;
           developer := developer |} ].

(** The [narratives] of the result; [generatedAt] and [period], read off
    the clock, are left out. *)
Definition aggregateSignals (xResult : XScanner.XScanResult)
  (ghResult : GHScanner.GHScanResult) : list DetectedNarrative :=
  let narratives := flat_map (narrativeFor xResult ghResult) TOPIC_ALIGNMENT in
  Arr.sort (fun a b => JS.gt (signalScore b - signalScore a) 0) narratives.

End Aggregator.

(** ** The score on finite inputs

    On numbers that are not NaN the functions of [computeSignalScore]
    compute these real-valued expressions (lemmas [socialScore_Fin],
    [devScore_Fin], [crossSourceBonus_Fin] and [computeSignalScore_Fin]
    below). *)

Module Exact.

Definition socialVolume (tweetCount : R) : R := Rmin (tweetCount * 2.5) 15.

Definition socialEngagement (avgEngagement : R) : R :=
  Rmin (avgEngagement / 60) 20.

Definition diversityBonus (tweetCount uniqueAuthors : R) : R :=
  Rmin ((if Rlt_dec 0 tweetCount then uniqueAuthors / tweetCount else 0)
        * uniqueAuthors) 5.

Definition socialScore (tweetCount avgEngagement uniqueAuthors : R) : R :=
  socialVolume tweetCount + socialEngagement avgEngagement
  + diversityBonus tweetCount uniqueAuthors.

Definition devDiversity (repoCount avgStars : R) : R :=
  if Rlt_dec 0 repoCount then
    if Rlt_dec 0 avgStars
    then Rmin (repoCount * (ln (avgStars + 1) / ln 2)) 5
    else 0
  else 0.

Definition devScore (repoCount totalStars avgStars : R) : R :=
  Rmin (repoCount * 2) 15 + Rmin (totalStars / 10) 20
  + devDiversity repoCount avgStars.

Definition crossSourceBonus (tweetCount repoCount social dev : R) : R :=
  if Rlt_dec 0 tweetCount then
    if Rlt_dec 0 repoCount
    then 10 + IZR (JS.roundR (Rmin (social / 30) 1 * Rmin (dev / 30) 1 * 10))
    else 0
  else 0.

Definition score (tweetCount avgEngagement uniqueAuthors
                  repoCount totalStars avgStars : R) : R :=
  let social := socialScore tweetCount avgEngagement uniqueAuthors in
  let dev := devScore repoCount totalStars avgStars in
  Rmin (IZR (JS.roundR (social + dev
                        + crossSourceBonus tweetCount repoCount social dev)))
       100.

End Exact.

(** ** Well-formed inputs *)

Definition nonneg (a : JS.num) : Prop :=
  match a with JS.Fin x => 0 <= x | JS.NaN => False end.

Definition finite (a : JS.num) : Prop :=
  match a with JS.Fin _ => True | JS.NaN => False end.

(** Clusters whose counts are numbers. *)
Definition xClusterFinite (c : XScanner.TopicCluster) : Prop :=
  finite (XScanner.tweetCount c)
  /\ finite (XScanner.avgEngagement c)
  /\ match XScanner.uniqueAuthors c with
     | Some n => finite n
     | None => True
     end.

Definition ghClusterFinite (c : GHScanner.GHTopicCluster) : Prop :=
  finite (GHScanner.repoCount c)
  /\ finite (GHScanner.totalStars c)
  /\ finite (GHScanner.avgStars c).

(** A record named [narrativeName] is in the result. *)
Definition emitted (narratives : list Aggregator.DetectedNarrative)
  (narrativeName : string) : Prop :=
  exists n, In n narratives /\ Aggregator.name n = narrativeName.

(** A snapshot with non-negative counts, engagements and stars. *)
Definition socialOk (social : Aggregator.Social.t) : Prop :=
  nonneg (Aggregator.Social.tweetCount social)
  /\ nonneg (Aggregator.Social.avgEngagement social)
  /\ nonneg (Aggregator.Social.uniqueAuthors social).

Definition developerOk (developer : Aggregator.Developer.t) : Prop :=
  nonneg (Aggregator.Developer.repoCount developer)
  /\ nonneg (Aggregator.Developer.totalStars developer)
  /\ nonneg (Aggregator.Developer.avgStars developer).

(** An integer in the range [lo..hi]. *)
Definition integerIn (lo hi : Z) (a : JS.num) : Prop :=
  exists z : Z, a = JS.Fin (IZR z) /\ (lo <= z <= hi)%Z.

(** ** The specification's wording of score, cross-source bonus, stage and
       confidence, to be compared with the code *)

Module Spec.

Import Aggregator.
Local Open Scope js_scope.

(** [score = round(min(socialScore + devScore + crossSourceBonus, 100))]. *)
Definition score (social : Social.t) (developer : Developer.t) : JS.num :=
  JS.round
    (JS.min (socialScore social + devScore developer
             + crossSourceBonus social developer) 100).

(** [10 + round(min(socialScore/30,1) * min(devScore/30,1) * 10)]. *)
Definition bonusWhenBoth (social : Social.t) (developer : Developer.t)
  : JS.num :=
  10 + JS.round (JS.min (socialScore social / 30) 1
                 * JS.min (devScore developer / 30) 1 * 10).

Definition hasStrongSocial (social : Social.t) : bool :=
  (Social.tweetCount social >= 5) && (Social.avgEngagement social >= 100).

Definition hasStrongDev (developer : Developer.t) : bool :=
  (Developer.repoCount developer >= 5)
  && (Developer.totalStars developer >= 20).

(** The classification rules, in the order they are tried. *)
Definition stageRules
  : list ((Social.t -> Developer.t -> bool) * Stage) :=
  [ (fun s d => hasStrongSocial s && hasStrongDev d
                && (Social.avgEngagement s >= 500)
                && (Social.uniqueAuthors s >= 8), peak);
    (fun s d => hasStrongSocial s && hasStrongDev d
                && (Social.avgEngagement s >= 200), acceleration);
    (fun s d => hasStrongSocial s || hasStrongDev d, emergence);
    (fun s d => (Developer.repoCount d > 0) && (Social.tweetCount s == 0),
      pre_narrative);
    (fun s d => Social.tweetCount s > 0, emergence) ].

(** First match wins; [pre_narrative] when no rule matches. *)
Fixpoint firstMatch (rules : list ((Social.t -> Developer.t -> bool) * Stage))
  (s : Social.t) (d : Developer.t) : Stage :=
  match rules with
  | [] => pre_narrative
  | (test, stage) :: rules' =>
      if test s d then stage else firstMatch rules' s d
  end.

Definition determineStage (s : Social.t) (d : Developer.t) : Stage :=
  firstMatch stageRules s d.

(** The strength by which the specification orders the clusters:
    [count * weight + total]. *)
Definition socialStrength (c : XScanner.TopicCluster) : JS.num :=
  XScanner.tweetCount c * 10 + XScanner.totalEngagement c.

Definition developerStrength (c : GHScanner.GHTopicCluster) : JS.num :=
  GHScanner.repoCount c * 5 + GHScanner.totalStars c.

(** The independent additive bonuses of the confidence. *)
Definition bonus (c : bool) (x : R) : R := if c then x else 0%R.

Definition bonusSum (s : Social.t) (d : Developer.t) : R :=
  0.25
  + bonus (Social.tweetCount s >= 3) 0.08
  + bonus (Social.tweetCount s >= 10) 0.07
  + bonus (Social.avgEngagement s >= 100) 0.08
  + bonus (Social.avgEngagement s >= 300) 0.05
  + bonus (Social.uniqueAuthors s >= 3) 0.08
  + bonus (Social.uniqueAuthors s >= 8) 0.07
  + bonus (Developer.repoCount d >= 3) 0.08
  + bonus (Developer.repoCount d >= 10) 0.07
  + bonus (Developer.totalStars d >= 50) 0.05
  + bonus ((Social.tweetCount s > 0) && (Developer.repoCount d > 0)) 0.12.

(** Capped at 0.95. *)
Definition confidence (s : Social.t) (d : Developer.t) : R :=
  Rmin (bonusSum s d) 0.95.

End Spec.

(** ** Concrete inputs used by the examples below *)

Module Examples.

Import Aggregator.
Local Open Scope string_scope.
Local Open Scope list_scope.

(** The scenario of the specification: ten tweets, eight repositories. *)
Definition social1 : Social.t :=
  {| Social.tweetCount := JS.Fin 10; Social.avgEngagement := JS.Fin 120;
     Social.totalEngagement := JS.Fin 1200; Social.uniqueAuthors := JS.Fin 5;
     Social.topTweets := []; Social.keyTerms := [] |}.

Definition developer1 : Developer.t :=
  {| Developer.repoCount := JS.Fin 8; Developer.totalStars := JS.Fin 40;
     Developer.avgStars := JS.Fin 5; Developer.topRepos := [];
     Developer.keyTerms := [] |}.

(** A weak signal in one stream only. *)
Definition socialWeak : Social.t :=
  {| Social.tweetCount := JS.Fin 2; Social.avgEngagement := JS.Fin 30;
     Social.totalEngagement := JS.Fin 60; Social.uniqueAuthors := JS.Fin 2;
     Social.topTweets := []; Social.keyTerms := [] |}.

Definition developerWeak : Developer.t :=
  {| Developer.repoCount := JS.Fin 2; Developer.totalStars := JS.Fin 3;
     Developer.avgStars := JS.Fin 1.5; Developer.topRepos := [];
     Developer.keyTerms := [] |}.

(** A strong signal in both streams. *)
Definition socialStrong : Social.t :=
  {| Social.tweetCount := JS.Fin 12; Social.avgEngagement := JS.Fin 600;
     Social.totalEngagement := JS.Fin 7200; Social.uniqueAuthors := JS.Fin 9;
     Social.topTweets := []; Social.keyTerms := [] |}.

Definition developerStrong : Developer.t :=
  {| Developer.repoCount := JS.Fin 6; Developer.totalStars := JS.Fin 25;
     Developer.avgStars := JS.Fin 4.2; Developer.topRepos := [];
     Developer.keyTerms := [] |}.

(** Five authors; six tweets, then a seventh. *)
Definition socialSix : Social.t :=
  {| Social.tweetCount := JS.Fin 6; Social.avgEngagement := JS.Fin 24;
     Social.totalEngagement := JS.Fin 144; Social.uniqueAuthors := JS.Fin 5;
     Social.topTweets := []; Social.keyTerms := [] |}.

Definition socialSeven : Social.t :=
  {| Social.tweetCount := JS.Fin 7; Social.avgEngagement := JS.Fin 24;
     Social.totalEngagement := JS.Fin 144; Social.uniqueAuthors := JS.Fin 5;
     Social.topTweets := []; Social.keyTerms := [] |}.

Definition socialSixLoud : Social.t :=
  {| Social.tweetCount := JS.Fin 6; Social.avgEngagement := JS.Fin 90;
     Social.totalEngagement := JS.Fin 144; Social.uniqueAuthors := JS.Fin 5;
     Social.topTweets := []; Social.keyTerms := [] |}.

(** Five tweets by the same five authors; and six tweets whose average
    engagement is NaN. *)
Definition socialFive : Social.t :=
  {| Social.tweetCount := JS.Fin 5; Social.avgEngagement := JS.Fin 24;
     Social.totalEngagement := JS.Fin 120; Social.uniqueAuthors := JS.Fin 5;
     Social.topTweets := []; Social.keyTerms := [] |}.

Definition socialNaNEngagement : Social.t :=
  {| Social.tweetCount := JS.Fin 6; Social.avgEngagement := JS.NaN;
     Social.totalEngagement := JS.Fin 144; Social.uniqueAuthors := JS.Fin 5;
     Social.topTweets := []; Social.keyTerms := [] |}.

(** Scan results: one social cluster, six tweets by five authors; and
    one whose count is NaN, without [uniqueAuthors] as the conversion
    script writes its clusters. *)
Definition xCluster6 : XScanner.TopicCluster :=
  {| XScanner.topic := "Cross-chain & Interoperability";
     XScanner.tweetCount := JS.Fin 6; XScanner.avgEngagement := JS.Fin 24;
     XScanner.totalEngagement := JS.Fin 144; XScanner.topTweets := [];
     XScanner.keyTerms := []; XScanner.uniqueAuthors := Some (JS.Fin 5) |}.

Definition xClusterNaN : XScanner.TopicCluster :=
  {| XScanner.topic := "Cross-chain & Interoperability";
     XScanner.tweetCount := JS.NaN; XScanner.avgEngagement := JS.Fin 24;
     XScanner.totalEngagement := JS.Fin 144; XScanner.topTweets := [];
     XScanner.keyTerms := []; XScanner.uniqueAuthors := None |}.

Definition xResultOf (clusters : list XScanner.TopicCluster)
  : XScanner.XScanResult :=
  {| XScanner.scannedAt := "2026-02-01T00:00:00.000Z";
     XScanner.queries := []; XScanner.signals := [];
     XScanner.topicClusters := clusters |}.

Definition ghResultEmpty : GHScanner.GHScanResult :=
  {| GHScanner.scannedAt := "2026-02-01T00:00:00.000Z";
     GHScanner.queries := []; GHScanner.repos := [];
     GHScanner.topicClusters := [] |}.

(** Four signals, most engaging first: one on privacy, three on bridges. *)
Definition signalOf (id text : string) (likes : R) : XScanner.XSignal :=
  {| XScanner.text := text; XScanner.author := "@dev";
     XScanner.authorId := id; XScanner.likes := JS.Fin likes;
     XScanner.retweets := JS.Fin 0; XScanner.replies := JS.Fin 0;
     XScanner.created := "2026-02-01T00:00:00.000Z";
     XScanner.tweetId := id; XScanner.query := "solana";
     XScanner.engagementScore := JS.Fin likes |}.

Definition signals4 : list XScanner.XSignal :=
  [ signalOf "1" "Solana privacy is here https://t.co/abc PRIVACY!" 100;
    signalOf "2" "a new bridge, solana" 30;
    signalOf "3" "bridge volume on Solana up" 30;
    signalOf "4" "which bridge? solana" 30 ].

(** A repository. *)
Definition repoKit : GHScanner.GHRepo :=
  {| GHScanner.name := "solana-agent-kit";
     GHScanner.fullName := "dev/solana-agent-kit";
     GHScanner.description :=
       "Agent toolkit for Solana: agent-kit & payments.";
     GHScanner.stars := JS.Fin 12; GHScanner.forks := JS.Fin 1;
     GHScanner.created := "2026-01-20T00:00:00Z";
     GHScanner.updated := "2026-02-01T00:00:00Z";
     GHScanner.language := "TypeScript";
     GHScanner.url := "https://github.com/dev/solana-agent-kit";
     GHScanner.query := "solana+agent" |}.

(** The two clusters of these signals. *)
Definition clusterPrivacy : XScanner.TopicCluster :=
  XScanner.clusterOf "Privacy & Confidential Computing" (firstn 1 signals4).

Definition clusterBridges : XScanner.TopicCluster :=
  XScanner.clusterOf "Cross-chain & Interoperability" (skipn 1 signals4).

End Examples.

(** ** Ranking of key terms: vocabulary for the statements

    Both extractors count the words of all items in order and rank the
    entries of the map. *)

Module KeyTerms.

(** The frequency of a word among the counted words. *)
Definition freq (ws : list string) (w : string) : nat :=
  count_occ string_dec ws w.

(** The position at which a word is first seen. *)
Fixpoint firstSeen (w : string) (ws : list string) : nat :=
  match ws with
  | [] => 0
  | x :: ws' => if String.eqb x w then 0 else S (firstSeen w ws')
  end.

(** [a] ranks before [b]: more frequent, or as frequent and seen first. *)
Definition ranksBefore (ws : list string) (a b : string) : Prop :=
  (freq ws b < freq ws a)%nat
  \/ (freq ws a = freq ws b /\ (firstSeen a ws < firstSeen b ws)%nat).

(** The tail that the extractors share: count, keep the counts of two and
    more, sort by count, take ten, keep the words. *)
Definition rank (ws : list string) : list string :=
  map fst
    (firstn 10
       (Arr.sort
          (fun a b => JS.gt (JS.sub (JS.ofNat (snd b)) (JS.ofNat (snd a)))
                        (JS.Fin 0))
          (filter (fun e => (2 <=? snd e)%nat)
             (StrMap.entries (fold_left countWord ws []))))).

End KeyTerms.

(** The state of the map after the words [pre] have been counted: each
    word seen has its frequency, and the keys stand in first-seen order. *)
Definition counted (pre : list string) (m : StrMap.t) : Prop :=
  (forall k,
      StrMap.get k m
      = if in_dec string_dec k pre then Some (KeyTerms.freq pre k) else None)
  /\ StronglySorted
       (fun a b => (KeyTerms.firstSeen a pre < KeyTerms.firstSeen b pre)%nat)
       (map fst m).

(** Decreasing [key], and the order [T] among equal keys. *)
Definition byKeyThen {A : Type} (key : A -> nat) (T : A -> A -> Prop)
  (a b : A) : Prop :=
  (key b < key a)%nat \/ (key a = key b /\ T a b).

(** The real number behind a number that is not NaN. *)
Definition real (a : JS.num) : R :=
  match a with JS.Fin x => x | JS.NaN => 0 end.

(** ** Vocabulary for the treatment of NaN

    A count with NaN read as 0, and the snapshots with every count so
    read. *)
Definition orZero (a : JS.num) : JS.num :=
  match a with JS.NaN => JS.Fin 0 | JS.Fin _ => a end.

Definition socialZeroed (s : Aggregator.Social.t) : Aggregator.Social.t :=
  {| Aggregator.Social.tweetCount := orZero (Aggregator.Social.tweetCount s);
     Aggregator.Social.avgEngagement :=
       orZero (Aggregator.Social.avgEngagement s);
     Aggregator.Social.totalEngagement :=
       orZero (Aggregator.Social.totalEngagement s);
     Aggregator.Social.uniqueAuthors :=
       orZero (Aggregator.Social.uniqueAuthors s);
     Aggregator.Social.topTweets := Aggregator.Social.topTweets s;
     Aggregator.Social.keyTerms := Aggregator.Social.keyTerms s |}.

Definition developerZeroed (d : Aggregator.Developer.t)
  : Aggregator.Developer.t :=
  {| Aggregator.Developer.repoCount :=
       orZero (Aggregator.Developer.repoCount d);
     Aggregator.Developer.totalStars :=
       orZero (Aggregator.Developer.totalStars d);
     Aggregator.Developer.avgStars :=
       orZero (Aggregator.Developer.avgStars d);
     Aggregator.Developer.topRepos := Aggregator.Developer.topRepos d;
     Aggregator.Developer.keyTerms := Aggregator.Developer.keyTerms d |}.

(** ** Vocabulary for further properties of the aggregator *)

(** Clusters whose counts, engagements and stars are non-negative
    numbers. *)
Definition xClusterNonneg (c : XScanner.TopicCluster) : Prop :=
  nonneg (XScanner.tweetCount c)
  /\ nonneg (XScanner.avgEngagement c)
  /\ match XScanner.uniqueAuthors c with
     | Some n => nonneg n
     | None => True
     end.

Definition ghClusterNonneg (c : GHScanner.GHTopicCluster) : Prop :=
  nonneg (GHScanner.repoCount c)
  /\ nonneg (GHScanner.totalStars c)
  /\ nonneg (GHScanner.avgStars c).

(** The place of a narrative name in the alignment table. *)
Definition tableIndex (narrativeName : string) : nat :=
  KeyTerms.firstSeen narrativeName (map fst Aggregator.TOPIC_ALIGNMENT).

(** Decreasing score, and the order [T] among equal scores. *)
Definition byScoreThen {A : Type} (score : A -> R) (T : A -> A -> Prop)
  (a b : A) : Prop :=
  score b < score a \/ (score a = score b /\ T a b).


(** ** Vocabulary for the properties of the clusterers *)

(** A signal, a repository matches one of the patterns of a topic. *)
Definition signalMatches (patterns : list Text.RegExp)
  (s : XScanner.XSignal) : bool :=
  existsb (fun p => Text.test p (XScanner.text s)) patterns.

Definition repoMatches (patterns : list Text.RegExp)
  (r : GHScanner.GHRepo) : bool :=
  existsb
    (fun p =>
       Text.test p
         (String.append (GHScanner.name r)
            (String.append " "
               (String.append (GHScanner.description r)
                  (String.append " " (GHScanner.query r))))))
    patterns.

(** The sum of a real-valued metric over a list. *)
Definition total {Item : Type} (metric : Item -> R) (l : list Item) : R :=
  fold_right (fun s acc => metric s + acc) 0 l.


(** A social cluster as the conversion script writes it: the same fields,
    [uniqueAuthors] left out. *)
Definition withoutAuthors (c : XScanner.TopicCluster)
  : XScanner.TopicCluster :=
  {| XScanner.topic := XScanner.topic c;
     XScanner.tweetCount := XScanner.tweetCount c;
     XScanner.avgEngagement := XScanner.avgEngagement c;
     XScanner.totalEngagement := XScanner.totalEngagement c;
     XScanner.topTweets := XScanner.topTweets c;
     XScanner.keyTerms := XScanner.keyTerms c;
     XScanner.uniqueAuthors := None |}.


(** ** The conversion script: the developer clusterer once more *)

Module ConvertGitHub.

Import Text.
Local Open Scope string_scope.
Local Open Scope list_scope.
Local Open Scope js_scope.

Definition repoStops : list string :=
  [ "the"; "a"; "an"; "for"; "and"; "with"; "that"; "this"; "from";
    "solana"; "sol"; "built"; "using"; "based" ].

Definition extractRepoKeyTerms (repos : list GHScanner.GHRepo)
  : list string :=
  let freq :=
    fold_left
      (fun m r =>
         let text :=
           toLowerCase
             (String.append (GHScanner.name r)
                (String.append " " (GHScanner.description r))) in
         let words :=
           filter
             (fun w => (3 <? String.length w)%nat && negb (has repoStops w))
             (split (fun c => isSpace c || GHScanner.isHyphen c)
                (blank
                   (fun c => isLowerAlnum c || isSpace c
                             || GHScanner.isHyphen c)
                   text)) in
         fold_left countWord words m)
      repos [] in
  map fst
    (firstn 10
       (Arr.sort (fun a b => JS.gt (JS.ofNat (snd b) - JS.ofNat (snd a)) 0)
          (filter (fun e => (2 <=? snd e)%nat) (StrMap.entries freq)))).

Definition GH_TOPIC_PATTERNS : list (string * list RegExp) :=
  [ ("AI Agent Infrastructure",
      [ WordB :: lit "agent"; lit "autonomous"; lit "ai" ++ Any :: lit "agent";
        lit "llm"; lit "chatbot"; lit "assistant";
        lit "skill" ++ [Opt "s"; Space] ]);
    ("Privacy & Confidential Computing",
      [ lit "privac"; lit "confidential"; lit "shielde" ++ [Opt "d"];
        lit "encrypt"; lit "zero" ++ Any :: lit "knowledge"; lit "zk";
        lit "noir"; lit "arcium"; lit "hush" ]);
    ("Payments & Commerce",
      [ lit "payment"; lit "x402"; lit "commerce"; lit "usdc"; lit "pay";
        lit "invoic"; lit "checkout"; lit "merchant" ]);
    ("DePIN",
      [ lit "depin"; lit "iot"; lit "sensor"; lit "physical";
        lit "hardware" ]);
    ("Dev Tooling",
      [ lit "tool"; lit "sdk"; lit "config"; lit "template"; lit "scaffold";
        lit "boilerplate"; lit "starter"; lit "claude" ]);
    ("DeFi & Financial",
      [ lit "defi"; lit "swap"; lit "lend"; lit "borrow"; lit "yield";
        lit "staking"; lit "restaking"; lit "liqui"; lit "amm";
        lit "dex" ]) ].

Definition clusterRepos (repos : list GHScanner.GHRepo)
  : list GHScanner.GHTopicCluster :=
  let clusters :=
    flat_map
      (fun '(topic, patterns) =>
         let matching :=
           filter
             (fun r =>
                let text :=
                  String.append (GHScanner.name r)
                    (String.append " "
                       (String.append (GHScanner.description r)
                          (String.append " " (GHScanner.query r)))) in
                existsb (fun p => test p text) patterns)
             repos in
         if (List.length matching =? 0)%nat then []
         else
           let totalStars :=
             fold_left (fun sum r => sum + GHScanner.stars r) matching
               (JS.Fin 0) in
           [ {| GHScanner.topic := topic;
                GHScanner.repoCount := JS.ofNat (List.length matching);
                GHScanner.totalStars := totalStars;
                GHScanner.avgStars :=
                  JS.round ((totalStars / JS.ofNat (List.length matching))
                            * 10) / 10;
                GHScanner.topRepos := firstn 5 matching;
                GHScanner.keyTerms := extractRepoKeyTerms matching |} ])
      GH_TOPIC_PATTERNS in
  Arr.sort
    (fun a b =>
       JS.gt
         ((GHScanner.repoCount b * 5 + GHScanner.totalStars b)
          - (GHScanner.repoCount a * 5 + GHScanner.totalStars a)) 0)
    clusters.

End ConvertGitHub.


(** ** web-output.ts: escaping and the average confidence of the header *)

Module WebOutput.

Local Open Scope string_scope.
Local Open Scope list_scope.
Local Open Scope js_scope.

(** [s.replace(/c/g, by)] for a single character [c]: the replacement
    text is not scanned again. *)
Fixpoint replaceAll (c : ascii) (by_ : string) (s : string) : string :=
  match s with
  | EmptyString => EmptyString
  | String d s' =>
      if Ascii.eqb d c then String.append by_ (replaceAll c by_ s')
      else String d (replaceAll c by_ s')
  end.

(** The double quote, character 34. *)
Definition dquote : ascii := "034"%char.

Definition escapeHtml (str : string) : string :=
  replaceAll "'" "&#039;"
    (replaceAll dquote "&quot;"
       (replaceAll ">" "&gt;"
          (replaceAll "<" "&lt;"
             (replaceAll "&" "&amp;" str)))).

(** The average confidence that [generateHTML] shows in the header. *)
Definition avgConfidence (narratives : list Aggregator.DetectedNarrative)
  : JS.num :=
  if (0 <? List.length narratives)%nat
  then
    JS.round
      (fold_left (fun s n => s + Aggregator.confidence n) narratives
         (JS.Fin 0)
       / JS.ofNat (List.length narratives) * 100)
  else JS.Fin 0.

End WebOutput.

(** The text that replaces one character when all five replacements of
    [escapeHtml] are made at once. *)
Definition escapeChar (c : ascii) : string :=
  if Ascii.eqb c "&" then "&amp;"
  else if Ascii.eqb c "<" then "&lt;"
  else if Ascii.eqb c ">" then "&gt;"
  else if Ascii.eqb c WebOutput.dquote then "&quot;"
  else if Ascii.eqb c "'" then "&#039;"
  else String c EmptyString.

Fixpoint escapeAll (s : string) : string :=
  match s with
  | EmptyString => EmptyString
  | String c s' => String.append (escapeChar c) (escapeAll s')
  end.

(** The characters with a meaning in HTML text and attribute values. *)
Definition special (c : ascii) : bool :=
  Ascii.eqb c "&" || Ascii.eqb c "<" || Ascii.eqb c ">"
  || Ascii.eqb c WebOutput.dquote || Ascii.eqb c "'".

(** Does the character occur in the string? *)
Fixpoint occurs (c : ascii) (s : string) : bool :=
  match s with
  | EmptyString => false
  | String d s' => Ascii.eqb d c || occurs c s'
  end.


(** ** The scans: what [scanX] and [scanGitHub] make of the answers to
       their queries

    The network is a function from the query to the outcome of its
    request; the clock gives [scannedAt]. *)

(** [a ?? b]. *)
Definition orElse {A : Type} (a : option A) (b : A) : A :=
  match a with Some x => x | None => b end.

(** [arr.filter(x => { if (seen.has(key(x))) return false;
    seen.add(key(x)); return true; })]: the first item of each key. *)
Module Dedup.

Section ByKey.
Context {A : Type} (key : A -> string).

Fixpoint from (seen : list string) (l : list A) : list A :=
  match l with
  | [] => []
  | x :: l' =>
      if Text.has seen (key x) then from seen l'
      else x :: from (key x :: seen) l'
  end.

Definition byKey (l : list A) : list A := from [] l.
End ByKey.

End Dedup.

Module XScan.

Import Text.
Local Open Scope string_scope.
Local Open Scope list_scope.
Local Open Scope js_scope.

(** The fields that the scanner reads in the answer of the search. *)
Module Metrics.
Record t : Type := {
  like_count : option JS.num;
  retweet_count : option JS.num;
  reply_count : option JS.num
}.
End Metrics.

Module Tweet.
Record t : Type := {
  id : string;
  text : string;
  author_id : option string;
  created_at : option string;
  public_metrics : option Metrics.t
}.
End Tweet.

Module User.
Record t : Type := {
  id : string;
  username : string
}.
End User.

(** [results.data]: its [data] and its [includes?.users]. *)
Record SearchData : Type := {
  data : option (list Tweet.t);
  users : option (list User.t)
}.

(** A search returns, or throws an error with or without a [code]. *)
Inductive Outcome : Type :=
| Returned (results : SearchData)
| Thrown (code : option Z).

Definition quoted (s : string) : string :=
  String "034" (String.append s (String "034" EmptyString)).

Definition SCAN_QUERIES : list string :=
  [ String.append (quoted "solana")
      (String.append " " (String.append (quoted "privacy")
                            " -is:retweet lang:en"));
    String.append (quoted "solana")
      (String.append " " (String.append (quoted "agents")
                            " -is:retweet lang:en"));
    String.append (quoted "solana")
      (String.append " " (String.append (quoted "payments")
                            " -is:retweet lang:en"));
    String.append (quoted "solana")
      (String.append " " (String.append (quoted "depin")
                            " -is:retweet lang:en"));
    String.append (quoted "solana")
      (String.append " " (String.append (quoted "x402")
                            " -is:retweet lang:en"));
    String.append (quoted "solana")
      (String.append " " (String.append (quoted "confidential")
                            " -is:retweet lang:en"));
    String.append (quoted "solana")
      (String.append " " (String.append (quoted "restaking")
                            " -is:retweet lang:en"));
    "from:0xMert_ solana -is:retweet";
    "from:aaboronkov solana -is:retweet";
    "from:rajgokal -is:retweet";
    String.append (quoted "built on solana") " -is:retweet lang:en";
    String.append (quoted "launching on solana") " -is:retweet lang:en";
    String.append (quoted "solana hackathon") " -is:retweet lang:en" ].

(** [users.get(id)] after the loop of [users.set(u.id, u.username)]: the
    name of the last user with this id. *)
Definition usernameOf (users : list User.t) (id : string) : option string :=
  fold_left
    (fun found u => if String.eqb (User.id u) id then Some (User.username u)
                    else found)
    users None.

(** The inner loop: the signals pushed for the tweets of one answer. *)
Definition signalsOf (query : string) (results : SearchData)
  : list XScanner.XSignal :=
  let users := orElse (users results) [] in
  flat_map
    (fun tweet =>
       match Tweet.public_metrics tweet with
       | None => []
       | Some m =>
           let likes := orElse (Metrics.like_count m) (JS.Fin 0) in
           let rts := orElse (Metrics.retweet_count m) (JS.Fin 0) in
           let replies := orElse (Metrics.reply_count m) (JS.Fin 0) in
           let engagementScore :=
             XScanner.computeEngagement likes rts replies in
           if engagementScore < 20 then []
           else
             [ {| XScanner.text := Tweet.text tweet;
                  XScanner.author :=
                    String.append "@"
                      (orElse
                         (usernameOf users
                            (orElse (Tweet.author_id tweet) ""))
                         "unknown");
                  XScanner.authorId := orElse (Tweet.author_id tweet) "";
                  XScanner.likes := likes;
                  XScanner.retweets := rts;
                  XScanner.replies := replies;
                  XScanner.created := orElse (Tweet.created_at tweet) "";
                  XScanner.tweetId := Tweet.id tweet;
                  XScanner.query := query;
                  XScanner.engagementScore := engagementScore |} ]
       end)
    (orElse (data results) []).

(** [e.code === 429]. *)
Definition rateLimited (code : option Z) : bool :=
  match code with
  | Some c => (c =? 429)%Z
  | None => false
  end.

(** The loop over the queries: an error with code 429 ends it, any
    other error passes to the next query. *)
Fixpoint collect (search : string -> Outcome) (queries : list string)
  : list XScanner.XSignal :=
  match queries with
  | [] => []
  | query :: queries' =>
      match search query with
      | Returned results => signalsOf query results ++ collect search queries'
      | Thrown code =>
          if rateLimited code then [] else collect search queries'
      end
  end.

Definition scanX (search : string -> Outcome) (now : string)
  : XScanner.XScanResult :=
  let allSignals := collect search SCAN_QUERIES in
  let deduped := Dedup.byKey XScanner.tweetId allSignals in
  let deduped :=
    Arr.sort
      (fun a b =>
         JS.gt (XScanner.engagementScore b - XScanner.engagementScore a) 0)
      deduped in
  {| XScanner.scannedAt := now;
     XScanner.queries := SCAN_QUERIES;
     XScanner.signals := deduped;
     XScanner.topicClusters := XScanner.clusterByTopic deduped |}.

End XScan.

Module GHScan.

Import Text.
Local Open Scope string_scope.
Local Open Scope list_scope.
Local Open Scope js_scope.

(** The fields that the scanner reads in an item of the answer. *)
Record Item : Type := {
  name : string;
  full_name : string;
  description : option string;
  stargazers_count : JS.num;
  forks_count : JS.num;
  created_at : string;
  updated_at : string;
  language : option string;
  html_url : string
}.

(** A request is answered, with [res.ok], [res.status] and the [items]
    of its body, or something throws. *)
Inductive Outcome : Type :=
| Response (ok : bool) (status : Z) (items : option (list Item))
| Thrown.

Definition SCAN_QUERIES : list string :=
  [ "solana+agent"; "solana+privacy"; "solana+payments"; "anchor+solana";
    "solana+depin"; "solana+x402"; "solana+confidential";
    "solana+restaking"; "solana+ai"; "solana+toolkit" ].

Definition repoOf (query : string) (repo : Item) : GHScanner.GHRepo :=
  {| GHScanner.name := name repo;
     GHScanner.fullName := full_name repo;
     GHScanner.description := orElse (description repo) "";
     GHScanner.stars := stargazers_count repo;
     GHScanner.forks := forks_count repo;
     GHScanner.created := created_at repo;
     GHScanner.updated := updated_at repo;
     GHScanner.language := orElse (language repo) "unknown";
     GHScanner.url := html_url repo;
     GHScanner.query := query |}.

(** The loop over the queries: status 403 ends it, any other failure
    passes to the next query. *)
Fixpoint collect (fetch : string -> Outcome) (queries : list string)
  : list GHScanner.GHRepo :=
  match queries with
  | [] => []
  | query :: queries' =>
      match fetch query with
      | Response ok status items =>
          if negb ok then
            if (status =? 403)%Z then [] else collect fetch queries'
          else map (repoOf query) (orElse items []) ++ collect fetch queries'
      | Thrown => collect fetch queries'
      end
  end.

(** [/airdrop|free.token|claim.now/i.test(d)]: one of the three
    alternatives is found. *)
Definition isSpam (d : string) : bool :=
  existsb (fun p => test p d)
    [ lit "airdrop"; lit "free" ++ Any :: lit "token";
      lit "claim" ++ Any :: lit "now" ].

(** The filter on descriptions. *)
Definition described (r : GHScanner.GHRepo) : bool :=
  if String.eqb (GHScanner.description r) ""
     || (String.length (GHScanner.description r) <? 10)%nat
  then false
  else if isSpam (GHScanner.description r) then false
  else true.

Definition scanGitHub (fetch : string -> Outcome) (now : string)
  : GHScanner.GHScanResult :=
  let allRepos := collect fetch SCAN_QUERIES in
  let deduped := Dedup.byKey GHScanner.fullName allRepos in
  let filtered := filter described deduped in
  let filtered :=
    Arr.sort (fun a b => JS.gt (GHScanner.stars b - GHScanner.stars a) 0)
      filtered in
  {| GHScanner.scannedAt := now;
     GHScanner.queries := SCAN_QUERIES;
     GHScanner.repos := filtered;
     GHScanner.topicClusters := GHScanner.clusterReposByTopic filtered |}.

End GHScan.


(** ** The conversion script: its main function

    The three files that it reads are its arguments: the flat list of
    tweets, the lists of tweets by topic in the order of
    [Object.values], and the repositories; the clock gives
    [scannedAt]. *)

Module ConvertMain.

Import Text.
Local Open Scope string_scope.
Local Open Scope list_scope.
Local Open Scope js_scope.

Module OldTweet.
Record t : Type := {
  text : string;
  author : string;
  likes : JS.num;
  rts : JS.num;
  replies : JS.num;
  created : string;
  query : string
}.
End OldTweet.

(** [description] is tested for truth before its length is read. *)
Module OldRepo.
Record t : Type := {
  name : string;
  full_name : string;
  description : option string;
  stars : JS.num;
  forks : JS.num;
  created : string;
  updated : string;
  language : string;
  url : string;
  query : string
}.
End OldRepo.

Definition computeEngagement (likes rts replies : JS.num) : JS.num :=
  likes + rts * 2 + replies * 1.5.

(** [Map<string, OldTweet>]: entries in insertion order, [set] on a
    present key replaces the value and keeps the place. *)
Fixpoint mapSet (k : string) (v : OldTweet.t)
  (m : list (string * OldTweet.t)) : list (string * OldTweet.t) :=
  match m with
  | [] => [(k, v)]
  | (k', v') :: m' =>
      if String.eqb k' k then (k', v) :: m' else (k', v') :: mapSet k v m'
  end.

Definition mapValues (m : list (string * OldTweet.t)) : list OldTweet.t :=
  map snd m.

Definition merge (flatTweets : list OldTweet.t)
  (topicTweets : list (list OldTweet.t)) : list (string * OldTweet.t) :=
  let allOld :=
    fold_left (fun m t => mapSet (slice0 120 (OldTweet.text t)) t m)
      flatTweets [] in
  fold_left
    (fun m tweets =>
       fold_left (fun m t => mapSet (slice0 120 (OldTweet.text t)) t m)
         tweets m)
    topicTweets allOld.

(** The decimal digits of a counter. *)
Definition decimal (n : nat) : string :=
  DecimalString.NilZero.string_of_uint (Nat.to_uint n).

(** The loop that pushes the signals, [idCounter] counting them. *)
Fixpoint signalsFrom (idCounter : nat) (olds : list OldTweet.t)
  : list XScanner.XSignal :=
  match olds with
  | [] => []
  | t :: olds' =>
      let eng :=
        computeEngagement (OldTweet.likes t) (OldTweet.rts t)
          (OldTweet.replies t) in
      if eng < 20 then signalsFrom idCounter olds'
      else
        {| XScanner.text := OldTweet.text t;
           XScanner.author :=
             if String.prefix "@" (OldTweet.author t) then OldTweet.author t
             else String.append "@" (OldTweet.author t);
           XScanner.authorId := String.append "synth_" (decimal idCounter);
           XScanner.likes := OldTweet.likes t;
           XScanner.retweets := OldTweet.rts t;
           XScanner.replies := OldTweet.replies t;
           XScanner.created := OldTweet.created t;
           XScanner.tweetId := String.append "cache_" (decimal idCounter);
           XScanner.query := OldTweet.query t;
           XScanner.engagementScore := eng |}
        :: signalsFrom (S idCounter) olds'
  end.

(** [[...new Set(list)]]. *)
Definition distinct (l : list string) : list string :=
  Dedup.byKey (fun q => q) l.

Definition xResult (flatTweets : list OldTweet.t)
  (topicTweets : list (list OldTweet.t)) (now : string)
  : XScanner.XScanResult :=
  let allOld := merge flatTweets topicTweets in
  let signals := signalsFrom 1 (mapValues allOld) in
  let signals :=
    Arr.sort
      (fun a b =>
         JS.gt (XScanner.engagementScore b - XScanner.engagementScore a) 0)
      signals in
  {| XScanner.scannedAt := now;
     XScanner.queries := distinct (map XScanner.query signals);
     XScanner.signals := signals;
     XScanner.topicClusters := Convert.clusterTweets signals |}.

(** The two filters on the old repositories.  The second one, and the
    [map] after it, only see repositories that have a description; a
    missing one would be read as the text [null]. *)
Definition described (r : OldRepo.t) : bool :=
  match OldRepo.description r with
  | Some d => negb (String.eqb d "") && (10 <=? String.length d)%nat
  | None => false
  end.

Definition notSpam (r : OldRepo.t) : bool :=
  negb (GHScan.isSpam (orElse (OldRepo.description r) "null")).

Definition repoOf (r : OldRepo.t) : GHScanner.GHRepo :=
  {| GHScanner.name := OldRepo.name r;
     GHScanner.fullName := OldRepo.full_name r;
     GHScanner.description := orElse (OldRepo.description r) "null";
     GHScanner.stars := OldRepo.stars r;
     GHScanner.forks := OldRepo.forks r;
     GHScanner.created := OldRepo.created r;
     GHScanner.updated := OldRepo.updated r;
     GHScanner.language := OldRepo.language r;
     GHScanner.url := OldRepo.url r;
     GHScanner.query := OldRepo.query r |}.

Definition ghResult (oldRepos : list OldRepo.t) (now : string)
  : GHScanner.GHScanResult :=
  let repos := map repoOf (filter notSpam (filter described oldRepos)) in
  let repos :=
    Arr.sort (fun a b => JS.gt (GHScanner.stars b - GHScanner.stars a) 0)
      repos in
  {| GHScanner.scannedAt := now;
     GHScanner.queries := distinct (map GHScanner.query repos);
     GHScanner.repos := repos;
     GHScanner.topicClusters := ConvertGitHub.clusterRepos repos |}.

End ConvertMain.


(** Every character of the string is in the class. *)
Fixpoint allChars (class : ascii -> bool) (s : string) : bool :=
  match s with
  | EmptyString => true
  | String c s' => class c && allChars class s'
  end.


(** ** aggregator.ts: the build ideas of a narrative

    The texts are those of the source, byte for byte in UTF-8. *)

Module Ideas.

Local Open Scope string_scope.
Local Open Scope list_scope.

Inductive Difficulty : Type :=
| easy
| medium
| hard.

Record BuildIdea : Type := {
  title : string;
  description : string;
  difficulty : Difficulty;
  category : string
}.

(** The own properties of the object [ideas]. *)
Definition ideas : list (string * list BuildIdea) :=
  [ ("Privacy Infrastructure",
      [ {| title := "Private DeFi Aggregator";
           description :=
             String.concat ""
             [ "DEX aggregator that shields transaction details using ";
               "Solana's confidential transfer extensions. Users swap ";
               "tokens without revealing amounts or counterparties ";
               "on-chain." ];
           difficulty := hard;
           category := "DeFi" |};
        {| title := "Confidential DAO Voting";
           description :=
             String.concat ""
             [ "On-chain governance where votes are encrypted until the ";
               "voting period ends, preventing bandwagon effects and ";
               "last-minute vote manipulation." ];
           difficulty := medium;
           category := "Governance" |};
        {| title := "Privacy-Preserving Analytics Dashboard";
           description :=
             String.concat ""
             [ "Tool that lets protocols analyze user behavior patterns ";
               "without exposing individual wallet addresses. Uses ZK ";
               "proofs to generate aggregate stats." ];
           difficulty := hard;
           category := "Analytics" |};
        {| title := "Shielded Token Launchpad";
           description :=
             String.concat ""
             [ "Fair launch platform where participation amounts are ";
               "hidden during the sale period, preventing whales from ";
               "intimidating smaller participants." ];
           difficulty := medium;
           category := "Launchpad" |} ]);
    ("AI Agent Economy",
      [ {| title := "Agent Reputation System";
           description :=
             String.concat ""
             [ "On-chain reputation scores for AI agents based on their ";
               "transaction history, success rates, and peer reviews. ";
               "Think credit scores for agents." ];
           difficulty := medium;
           category := "Infrastructure" |};
        {| title := "Agent Skill Marketplace";
           description :=
             String.concat ""
             [ "Platform where agents can discover, purchase, and ";
               "integrate new capabilities. Skills are NFTs with usage ";
               "licenses and version tracking." ];
           difficulty := medium;
           category := "Marketplace" |};
        {| title := "Multi-Agent Orchestration Framework";
           description :=
             String.concat ""
             [ "Coordination layer for multiple AI agents to collaborate ";
               "on complex tasks with escrow-based payment splitting and ";
               "dispute resolution." ];
           difficulty := hard;
           category := "Infrastructure" |};
        {| title := "Agent Activity Monitor";
           description :=
             String.concat ""
             [ "Real-time dashboard tracking what AI agents are doing on ";
               "Solana — transactions, interactions, resource usage. The ";
               "'etherscan for agents'." ];
           difficulty := easy;
           category := "Analytics" |} ]);
    ("Agent Commerce",
      [ {| title := "x402 Payment Gateway";
           description :=
             String.concat ""
             [ "Middleware that adds pay-per-use billing to any API using ";
               "the x402 protocol. Developers add one line of code to ";
               "monetize their services for agents." ];
           difficulty := medium;
           category := "Payments" |};
        {| title := "Agent-to-Agent Invoice System";
           description :=
             String.concat ""
             [ "Smart contract system where agents can create, send, and ";
               "settle invoices automatically. Includes dispute resolution ";
               "and payment terms." ];
           difficulty := medium;
           category := "Commerce" |};
        {| title := "Autonomous Service Directory";
           description :=
             String.concat ""
             [ "Registry where AI agents list their services with pricing, ";
               "SLAs, and reviews. Other agents can discover and contract ";
               "services programmatically." ];
           difficulty := easy;
           category := "Discovery" |} ]);
    ("DePIN Growth",
      [ {| title := "DePIN Network Aggregator";
           description :=
             String.concat ""
             [ "Dashboard comparing all DePIN projects on Solana — device ";
               "counts, revenue, coverage maps, token performance. One ";
               "place to evaluate the sector." ];
           difficulty := easy;
           category := "Analytics" |};
        {| title := "DePIN Device Staking Platform";
           description :=
             String.concat ""
             [ "Stake tokens on specific DePIN devices/locations. ";
               "Higher-performing devices earn more yield. Creates a ";
               "market for network quality." ];
           difficulty := hard;
           category := "DeFi" |};
        {| title := "Cross-DePIN Data Marketplace";
           description :=
             String.concat ""
             [ "Platform where DePIN networks can sell their data to each ";
               "other and to traditional businesses. Weather data meets ";
               "WiFi coverage meets delivery routes." ];
           difficulty := medium;
           category := "Data" |} ]);
    ("Dev Tooling for Solana",
      [ {| title := "AI Audit Copilot for Anchor";
           description :=
             String.concat ""
             [ "Tool that reviews Anchor programs for common ";
               "vulnerabilities, suggests fixes, and generates test cases. ";
               "Trained on known Solana exploits." ];
           difficulty := hard;
           category := "Security" |};
        {| title := "Solana Program Template Generator";
           description :=
             String.concat ""
             [ "CLI that generates production-ready Anchor programs from ";
               "natural language descriptions. Includes tests, deployment ";
               "scripts, and documentation." ];
           difficulty := medium;
           category := "Developer Experience" |};
        {| title := "On-chain Error Decoder";
           description :=
             String.concat ""
             [ "Tool that translates cryptic Solana transaction errors ";
               "into human-readable explanations with suggested fixes. ";
               "Works across all major protocols." ];
           difficulty := easy;
           category := "Developer Experience" |} ]);
    ("Restaking & LSTs",
      [ {| title := "LST Yield Optimizer";
           description :=
             String.concat ""
             [ "Automatically rotates between liquid staking tokens on ";
               "Solana based on yield, risk, and liquidity. Like a ";
               "robo-advisor for SOL staking." ];
           difficulty := medium;
           category := "DeFi" |};
        {| title := "Restaking Risk Dashboard";
           description :=
             String.concat ""
             [ "Real-time monitoring of restaking positions — slashing ";
               "risk, operator performance, reward rates. Early warning ";
               "system for restaking participants." ];
           difficulty := easy;
           category := "Analytics" |} ]);
    ("Cross-chain",
      [ {| title := "Cross-chain Agent Router";
           description :=
             String.concat ""
             [ "Agents on different chains can transact through a unified ";
               "routing layer. Solana agent pays an Ethereum agent via ";
               "automatic bridging." ];
           difficulty := hard;
           category := "Infrastructure" |} ]) ].

(** The names that the object [ideas] inherits from [Object.prototype]:
    [ideas[narrative]] is no list of ideas for them, and not nullish. *)
Definition inherited : list string :=
  [ "constructor"; "hasOwnProperty"; "isPrototypeOf";
    "propertyIsEnumerable"; "toLocaleString"; "toString"; "valueOf";
    "__defineGetter__"; "__defineSetter__"; "__lookupGetter__";
    "__lookupSetter__"; "__proto__" ].

Fixpoint own (narrative : string) (table : list (string * list BuildIdea))
  : option (list BuildIdea) :=
  match table with
  | [] => None
  | (k, v) :: table' => if String.eqb k narrative then Some v
                        else own narrative table'
  end.

(** [ideas[narrative] ?? [...]]; [None] stands for the inherited values,
    which are no lists of ideas. *)
Definition generateBuildIdeas (narrative : string)
  (socialTerms devTerms : list string) : option (list BuildIdea) :=
  match own narrative ideas with
  | Some found => Some found
  | None =>
      if Text.has inherited narrative then None
      else
        Some
          [ {| title := "Narrative Tracker";
               description :=
                 String.concat ""
                   [ "Build a focused tracking tool for the "; narrative;
                     " space — monitoring key metrics, projects, ";
                     "and developments specific to this narrative." ];
               difficulty := easy;
               category := "Analytics" |} ]
  end.

End Ideas.


(** ** Further concrete inputs *)

Module Samples.

Local Open Scope string_scope.
Local Open Scope list_scope.

(** One tweet and one repository on privacy. *)
Definition xClusterOne : XScanner.TopicCluster :=
  {| XScanner.topic := "Privacy & Confidential Computing";
     XScanner.tweetCount := JS.Fin 1; XScanner.avgEngagement := JS.Fin 20;
     XScanner.totalEngagement := JS.Fin 20; XScanner.topTweets := [];
     XScanner.keyTerms := []; XScanner.uniqueAuthors := Some (JS.Fin 1) |}.

Definition ghClusterOne : GHScanner.GHTopicCluster :=
  {| GHScanner.topic := "Privacy & Confidential Computing";
     GHScanner.repoCount := JS.Fin 1; GHScanner.totalStars := JS.Fin 0;
     GHScanner.avgStars := JS.Fin 0; GHScanner.topRepos := [];
     GHScanner.keyTerms := [] |}.

Definition ghResultOf (clusters : list GHScanner.GHTopicCluster)
  : GHScanner.GHScanResult :=
  {| GHScanner.scannedAt := "2026-02-01T00:00:00.000Z";
     GHScanner.queries := []; GHScanner.repos := [];
     GHScanner.topicClusters := clusters |}.

(** Answers to the searches: one query answered with two tweets, one of
    them below the engagement threshold; the others fail, one of them on
    the rate limit in [searchLimited]. *)
Definition tweetOf (id text : string) (likes : R) : XScan.Tweet.t :=
  {| XScan.Tweet.id := id; XScan.Tweet.text := text;
     XScan.Tweet.author_id := Some "u1";
     XScan.Tweet.created_at := None;
     XScan.Tweet.public_metrics :=
       Some {| XScan.Metrics.like_count := Some (JS.Fin likes);
               XScan.Metrics.retweet_count := None;
               XScan.Metrics.reply_count := None |} |}.

Definition answer : XScan.SearchData :=
  {| XScan.data :=
       Some [ tweetOf "2" "a new zk bridge" 5;
              tweetOf "1" "Solana privacy is here" 100 ];
     XScan.users :=
       Some [ {| XScan.User.id := "u1"; XScan.User.username := "dev" |} ] |}.

Definition searchQuiet (query : string) : XScan.Outcome :=
  if String.eqb query "from:0xMert_ solana -is:retweet"
  then XScan.Returned answer
  else XScan.Thrown None.

Definition searchLimited (query : string) : XScan.Outcome :=
  if String.eqb query "from:rajgokal -is:retweet"
  then XScan.Thrown (Some 429%Z)
  else searchQuiet query.

(** The result that the conversion script writes for the four signals. *)
Definition xResultConverted : XScanner.XScanResult :=
  {| XScanner.scannedAt := "2026-02-01T00:00:00.000Z";
     XScanner.queries := ["solana"];
     XScanner.signals := Examples.signals4;
     XScanner.topicClusters := Convert.clusterTweets Examples.signals4 |}.

(** Answers to the repository searches: one query answered with three
    items, one without description and one found again by a later
    query; the others fail, one of them with status 403 in
    [fetchForbidden]. *)
Definition itemOf (full_name : string) (description : option string)
  (stars : R) : GHScan.Item :=
  {| GHScan.name := full_name; GHScan.full_name := full_name;
     GHScan.description := description;
     GHScan.stargazers_count := JS.Fin stars;
     GHScan.forks_count := JS.Fin 0;
     GHScan.created_at := "2026-01-20T00:00:00Z";
     GHScan.updated_at := "2026-02-01T00:00:00Z";
     GHScan.language := None;
     GHScan.html_url := String.append "https://github.com/" full_name |}.

Definition fetchQuiet (query : string) : GHScan.Outcome :=
  if String.eqb query "solana+agent"
  then GHScan.Response true 200
         (Some [ itemOf "dev/agent-kit" (Some "Agent toolkit for Solana") 12;
                 itemOf "dev/empty" None 40 ])
  else if String.eqb query "solana+ai"
  then GHScan.Response true 200
         (Some [ itemOf "dev/agent-kit" (Some "Agent toolkit for Solana") 12 ])
  else GHScan.Thrown.

Definition fetchForbidden (query : string) : GHScan.Outcome :=
  if String.eqb query "solana+privacy"
  then GHScan.Response false 403 None
  else fetchQuiet query.


(** Four social clusters, written in an order that is neither the order
    of the alignment table nor the order of their scores. *)
Definition xClusterAt (topic : string) (tweetCount avgEngagement
  uniqueAuthors : R) : XScanner.TopicCluster :=
  {| XScanner.topic := topic;
     XScanner.tweetCount := JS.Fin tweetCount;
     XScanner.avgEngagement := JS.Fin avgEngagement;
     XScanner.totalEngagement := JS.Fin (tweetCount * avgEngagement);
     XScanner.topTweets := []; XScanner.keyTerms := [];
     XScanner.uniqueAuthors := Some (JS.Fin uniqueAuthors) |}.

Definition xResultFour : XScanner.XScanResult :=
  Examples.xResultOf
    [ xClusterAt "Cross-chain & Interoperability" 6 24 5;
      xClusterAt "DePIN & Physical Infrastructure" 6 90 5;
      xClusterAt "AI Agent Infrastructure" 12 600 9;
      xClusterAt "Privacy & Confidential Computing" 6 24 5 ].


(** Three repositories found by one query, with 12, 3 and 40 stars. *)
Definition repoAt (name description : string) (stars : Z)
  : GHScanner.GHRepo :=
  {| GHScanner.name := name;
     GHScanner.fullName := String.append "dev/" name;
     GHScanner.description := description;
     GHScanner.stars := JS.Fin (IZR stars); GHScanner.forks := JS.Fin 0;
     GHScanner.created := "2026-01-20T00:00:00Z";
     GHScanner.updated := "2026-02-01T00:00:00Z";
     GHScanner.language := "TypeScript";
     GHScanner.url := String.append "https://github.com/dev/" name;
     GHScanner.query := "solana+agent" |}.

Definition reposThree : list GHScanner.GHRepo :=
  [ repoAt "solana-agent-kit" "Agent toolkit for Solana" 12;
    repoAt "agent-pay" "payments between agents" 3;
    repoAt "autonomous-vault" "autonomous yield vault" 40 ].


(** A busier scan: one query answered with seven tweets on bridges, one
    of them below the engagement threshold, and a later query that finds
    the second of them again; and the six signals that come of it. *)
Definition answerBusy : XScan.SearchData :=
  {| XScan.data :=
       Some [ tweetOf "1" "bridge one" 30; tweetOf "2" "bridge two" 80;
              tweetOf "3" "bridge three" 25; tweetOf "4" "bridge four" 60;
              tweetOf "5" "bridge five" 45; tweetOf "6" "bridge six" 90;
              tweetOf "7" "bridge seven" 5 ];
     XScan.users :=
       Some [ {| XScan.User.id := "u1"; XScan.User.username := "dev" |} ] |}.

Definition searchBusy (query : string) : XScan.Outcome :=
  if String.eqb query "from:0xMert_ solana -is:retweet"
  then XScan.Returned answerBusy
  else if String.eqb query "from:rajgokal -is:retweet"
  then XScan.Returned
         {| XScan.data := Some [ tweetOf "2" "bridge two" 80 ];
            XScan.users := None |}
  else XScan.Thrown None.

Definition signalBusy (id text : string) (likes : R) : XScanner.XSignal :=
  {| XScanner.text := text; XScanner.author := "@dev";
     XScanner.authorId := "u1"; XScanner.likes := JS.Fin likes;
     XScanner.retweets := JS.Fin 0; XScanner.replies := JS.Fin 0;
     XScanner.created := ""; XScanner.tweetId := id;
     XScanner.query := "from:0xMert_ solana -is:retweet";
     XScanner.engagementScore :=
       XScanner.computeEngagement (JS.Fin likes) (JS.Fin 0) (JS.Fin 0) |}.

(** A busier scan of the repositories: one query answered with seven
    toolkits, a later query that finds the second of them again; and
    the seven repositories that come of it. *)
Definition fetchBusy (query : string) : GHScan.Outcome :=
  if String.eqb query "solana+agent"
  then GHScan.Response true 200
         (Some [ itemOf "dev/kit-one" (Some "Agent toolkit one") 30;
                 itemOf "dev/kit-two" (Some "Agent toolkit two") 80;
                 itemOf "dev/kit-three" (Some "Agent toolkit three") 25;
                 itemOf "dev/kit-four" (Some "Agent toolkit four") 60;
                 itemOf "dev/kit-five" (Some "Agent toolkit five") 45;
                 itemOf "dev/kit-six" (Some "Agent toolkit six") 90;
                 itemOf "dev/kit-seven" (Some "Agent toolkit seven") 5;
                 itemOf "dev/empty" None 400 ])
  else if String.eqb query "solana+ai"
  then GHScan.Response true 200
         (Some [ itemOf "dev/kit-two" (Some "Agent toolkit two") 80 ])
  else GHScan.Thrown.

Definition repoBusy (full_name description : string) (stars : R)
  : GHScanner.GHRepo :=
  GHScan.repoOf "solana+agent" (itemOf full_name (Some description) stars).


End Samples.

(** * Properties *)

(** ** [Math.round] on real numbers *)

Lemma roundR_bounds (x : R) :
  IZR (JS.roundR x) <= x + / 2 < IZR (JS.roundR x) + 1.
Proof.
  unfold JS.roundR.
  destruct (base_Int_part (x + / 2)) as [H1 H2]. lra.
Qed.

Lemma roundR_eq (x : R) (z : Z) :
  IZR z <= x + / 2 < IZR z + 1 -> JS.roundR x = z.
Proof.
  intros [H1 H2]. unfold JS.roundR. symmetry.
  apply Int_part_spec. lra.
Qed.

Lemma roundR_IZR (z : Z) : JS.roundR (IZR z) = z.
Proof. apply roundR_eq. lra. Qed.

Lemma roundR_le (x y : R) : x <= y -> (JS.roundR x <= JS.roundR y)%Z.
Proof.
  intros Hxy.
  destruct (roundR_bounds x) as [Hx _].
  destruct (roundR_bounds y) as [_ Hy].
  assert (H : IZR (JS.roundR x) < IZR (JS.roundR y) + 1) by lra.
  rewrite <- plus_IZR in H. apply lt_IZR in H. lia.
Qed.

Lemma roundR_ge (x : R) (z : Z) : IZR z <= x -> (z <= JS.roundR x)%Z.
Proof.
  intros H. rewrite <- (roundR_IZR z). now apply roundR_le.
Qed.

Lemma roundR_le_int (x : R) (z : Z) : x <= IZR z -> (JS.roundR x <= z)%Z.
Proof.
  intros H. rewrite <- (roundR_IZR z). now apply roundR_le.
Qed.

(** Rounding commutes with a cap at an integer. *)
Lemma roundR_min (x : R) (z : Z) :
  JS.roundR (Rmin x (IZR z)) = Z.min (JS.roundR x) z.
Proof.
  unfold Rmin. destruct (Rle_dec x (IZR z)) as [H | H].
  - apply roundR_le_int in H. lia.
  - rewrite roundR_IZR.
    assert (H' : IZR z <= x) by lra.
    apply roundR_ge in H'. lia.
Qed.

(** ** The score on finite inputs *)

Import Aggregator.

Ltac js_cases :=
  repeat match goal with
  | |- context [Rlt_dec ?a ?b] => destruct (Rlt_dec a b); try lra
  | |- context [Rle_dec ?a ?b] => destruct (Rle_dec a b); try lra
  | |- context [Req_dec_T ?a ?b] => destruct (Req_dec_T a b); try lra
  end.

Ltac js_decide := cbn; js_cases; try reflexivity; try lra.

Lemma diversityBonus_Fin (social : Social.t) (t u : R) :
  Social.tweetCount social = JS.Fin t ->
  Social.uniqueAuthors social = JS.Fin u ->
  diversityBonus social = JS.Fin (Exact.diversityBonus t u).
Proof.
  intros Ht Hu. unfold diversityBonus, Exact.diversityBonus.
  rewrite Ht, Hu. cbn.
  js_cases; cbn; js_cases; reflexivity.
Qed.

Lemma socialScore_Fin (social : Social.t) (t e u : R) :
  Social.tweetCount social = JS.Fin t ->
  Social.avgEngagement social = JS.Fin e ->
  Social.uniqueAuthors social = JS.Fin u ->
  socialScore social = JS.Fin (Exact.socialScore t e u).
Proof.
  intros Ht He Hu.
  unfold socialScore. rewrite (diversityBonus_Fin social t u Ht Hu).
  unfold Exact.socialScore, Exact.socialVolume, Exact.socialEngagement.
  rewrite Ht, He. cbn.
  js_cases; cbn; js_cases; reflexivity.
Qed.

Lemma devScore_Fin (developer : Developer.t) (r ts av : R) :
  Developer.repoCount developer = JS.Fin r ->
  Developer.totalStars developer = JS.Fin ts ->
  Developer.avgStars developer = JS.Fin av ->
  devScore developer = JS.Fin (Exact.devScore r ts av).
Proof.
  intros Hr Hts Hav.
  unfold devScore, Exact.devScore, Exact.devDiversity.
  rewrite Hr, Hts, Hav. cbn.
  js_cases; cbn; js_cases; reflexivity.
Qed.

Lemma crossSourceBonus_Fin (social : Social.t) (developer : Developer.t)
  (t e u r ts av : R) :
  Social.tweetCount social = JS.Fin t ->
  Social.avgEngagement social = JS.Fin e ->
  Social.uniqueAuthors social = JS.Fin u ->
  Developer.repoCount developer = JS.Fin r ->
  Developer.totalStars developer = JS.Fin ts ->
  Developer.avgStars developer = JS.Fin av ->
  crossSourceBonus social developer
  = JS.Fin (Exact.crossSourceBonus t r (Exact.socialScore t e u)
              (Exact.devScore r ts av)).
Proof.
  intros Ht He Hu Hr Hts Hav.
  unfold crossSourceBonus, Exact.crossSourceBonus.
  rewrite (socialScore_Fin social t e u Ht He Hu).
  rewrite (devScore_Fin developer r ts av Hr Hts Hav).
  rewrite Ht, Hr. cbn.
  js_cases; cbn; js_cases; reflexivity.
Qed.

Lemma computeSignalScore_Fin (social : Social.t) (developer : Developer.t)
  (t e u r ts av : R) :
  Social.tweetCount social = JS.Fin t ->
  Social.avgEngagement social = JS.Fin e ->
  Social.uniqueAuthors social = JS.Fin u ->
  Developer.repoCount developer = JS.Fin r ->
  Developer.totalStars developer = JS.Fin ts ->
  Developer.avgStars developer = JS.Fin av ->
  computeSignalScore social developer = JS.Fin (Exact.score t e u r ts av).
Proof.
  intros Ht He Hu Hr Hts Hav.
  unfold computeSignalScore, Exact.score.
  rewrite (crossSourceBonus_Fin social developer t e u r ts av)
    by assumption.
  rewrite (socialScore_Fin social t e u Ht He Hu).
  rewrite (devScore_Fin developer r ts av Hr Hts Hav).
  reflexivity.
Qed.

(** ** Ranges of the sub-scores *)

Lemma log2_pos (x : R) : 0 < x -> 0 < ln (x + 1) / ln 2.
Proof.
  intros Hx.
  assert (H2 : 0 < ln 2) by (pose proof ln_lt_2; lra).
  assert (H1 : 0 < ln (x + 1)).
  { rewrite <- ln_1. apply ln_increasing; lra. }
  apply Rdiv_lt_0_compat; assumption.
Qed.

Lemma socialScore_range (t e u : R) :
  0 <= t -> 0 <= e -> 0 <= u -> 0 <= Exact.socialScore t e u <= 40.
Proof.
  intros Ht He Hu.
  unfold Exact.socialScore, Exact.socialVolume, Exact.socialEngagement,
    Exact.diversityBonus.
  assert (Hd : 0 <= (if Rlt_dec 0 t then u / t else 0) * u).
  { destruct (Rlt_dec 0 t).
    - apply Rmult_le_pos; [apply Rle_mult_inv_pos|]; lra.
    - lra. }
  pose proof (Rmin_r (t * 2.5) 15).
  pose proof (Rmin_r (e / 60) 20).
  pose proof (Rmin_r ((if Rlt_dec 0 t then u / t else 0) * u) 5).
  assert (0 <= Rmin (t * 2.5) 15) by (apply Rmin_glb; lra).
  assert (0 <= Rmin (e / 60) 20) by (apply Rmin_glb; lra).
  assert (0 <= Rmin ((if Rlt_dec 0 t then u / t else 0) * u) 5)
    by (apply Rmin_glb; lra).
  lra.
Qed.

Lemma devDiversity_range (r av : R) : 0 <= Exact.devDiversity r av <= 5.
Proof.
  unfold Exact.devDiversity.
  destruct (Rlt_dec 0 r) as [Hr | Hr]; [| lra].
  destruct (Rlt_dec 0 av) as [Hav | Hav]; [| lra].
  pose proof (log2_pos av Hav).
  split; [apply Rmin_glb; nra | apply Rmin_r].
Qed.

Lemma devScore_range (r ts av : R) :
  0 <= r -> 0 <= ts -> 0 <= Exact.devScore r ts av <= 40.
Proof.
  intros Hr Hts. unfold Exact.devScore.
  pose proof (devDiversity_range r av).
  pose proof (Rmin_r (r * 2) 15).
  pose proof (Rmin_r (ts / 10) 20).
  assert (0 <= Rmin (r * 2) 15) by (apply Rmin_glb; lra).
  assert (0 <= Rmin (ts / 10) 20) by (apply Rmin_glb; lra).
  lra.
Qed.

(** The rounded product of the two normalised strengths. *)
Lemma strength_product_range (ss ds : R) :
  0 <= ss -> 0 <= ds ->
  (0 <= JS.roundR (Rmin (ss / 30) 1 * Rmin (ds / 30) 1 * 10) <= 10)%Z.
Proof.
  intros Hs Hd.
  assert (Ha : 0 <= Rmin (ss / 30) 1 <= 1)
    by (split; [apply Rmin_glb; lra | apply Rmin_r]).
  assert (Hb : 0 <= Rmin (ds / 30) 1 <= 1)
    by (split; [apply Rmin_glb; lra | apply Rmin_r]).
  split.
  - apply roundR_ge. simpl. nra.
  - apply roundR_le_int. simpl. nra.
Qed.

Lemma crossSourceBonus_range (t r ss ds : R) :
  0 <= ss -> 0 <= ds ->
  exists k : Z,
    Exact.crossSourceBonus t r ss ds = IZR k /\ (0 <= k <= 20)%Z
    /\ (0 < t -> 0 < r -> (10 <= k)%Z).
Proof.
  intros Hs Hd. unfold Exact.crossSourceBonus.
  pose proof (strength_product_range ss ds Hs Hd) as Hp.
  destruct (Rlt_dec 0 t) as [Ht | Ht].
  - destruct (Rlt_dec 0 r) as [Hr | Hr].
    + exists (10 + JS.roundR (Rmin (ss / 30) 1 * Rmin (ds / 30) 1 * 10))%Z.
      rewrite plus_IZR. repeat split; try lia.
    + exists 0%Z. repeat split; try lia. intros; lra.
  - exists 0%Z. repeat split; try lia. intros; lra.
Qed.

Lemma nonneg_Fin (a : JS.num) : nonneg a -> exists x, a = JS.Fin x /\ 0 <= x.
Proof. destruct a; simpl; [tauto | eauto]. Qed.

Ltac snapshot_reals Hs Hd :=
  let t := fresh "t" in let e := fresh "e" in let u := fresh "u" in
  let r := fresh "r" in let ts := fresh "ts" in let av := fresh "av" in
  destruct Hs as (Ht & He & Hu); destruct Hd as (Hr & Hts & Hav);
  apply nonneg_Fin in Ht, He, Hu, Hr, Hts, Hav;
  destruct Ht as (t & Ht & Ht0); destruct He as (e & He & He0);
  destruct Hu as (u & Hu & Hu0); destruct Hr as (r & Hr & Hr0);
  destruct Hts as (ts & Hts & Hts0); destruct Hav as (av & Hav & Hav0).

(** ** C2: the composite score *)

(** Capping at 100 before or after rounding is the same. *)
Lemma round_min_100 (a : JS.num) :
  JS.min (JS.round a) (JS.Fin 100) = JS.round (JS.min a (JS.Fin 100)).
Proof.
  destruct a as [| x]; cbn; [reflexivity |].
  rewrite (roundR_min x 100).
  unfold Rmin. destruct (Rle_dec (IZR (JS.roundR x)) 100) as [H | H].
  - apply le_IZR in H. now rewrite Z.min_l.
  - rewrite Z.min_r; [reflexivity |].
    apply Z.lt_le_incl, lt_IZR. lra.
Qed.

(** C2.  The value of [computeSignalScore] is
    [round(min(socialScore + devScore + crossSourceBonus, 100))], and for
    snapshots with non-negative counts, engagements and stars it is an
    integer between 0 and 100. *)
Theorem computeSignalScore_integer_0_100 (social : Social.t)
  (developer : Developer.t) :
  computeSignalScore social developer = Spec.score social developer
  /\ (socialOk social -> developerOk developer ->
      integerIn 0 100 (computeSignalScore social developer)).
Proof.
  split; [apply round_min_100 |].
  intros Hs Hd. snapshot_reals Hs Hd.
  rewrite (computeSignalScore_Fin social developer t e u r ts av)
    by assumption.
  unfold Exact.score. cbv zeta.
  pose proof (socialScore_range t e u Ht0 He0 Hu0) as Hss.
  pose proof (devScore_range r ts av Hr0 Hts0) as Hds.
  destruct (crossSourceBonus_range t r (Exact.socialScore t e u)
              (Exact.devScore r ts av)) as (k & Hk & Hk20 & _); try lra.
  set (x := Exact.socialScore t e u + Exact.devScore r ts av
            + Exact.crossSourceBonus t r (Exact.socialScore t e u)
                (Exact.devScore r ts av)).
  assert (Hx : 0 <= x <= 100).
  { unfold x. rewrite Hk.
    assert (0 <= IZR k <= 20) by (split; apply IZR_le; lia). lra. }
  assert (Hlo : (0 <= JS.roundR x)%Z) by (apply roundR_ge; simpl; lra).
  assert (Hhi : (JS.roundR x <= 100)%Z) by (apply roundR_le_int; lra).
  exists (JS.roundR x). split; [| lia].
  f_equal. apply Rmin_left. apply IZR_le. exact Hhi.
Qed.

Lemma computeSignalScore_integer_0_100_witness :
  integerIn 0 100 (computeSignalScore Examples.social1 Examples.developer1).
Proof.
  apply computeSignalScore_integer_0_100.
  - unfold socialOk; simpl; lra.
  - unfold developerOk; simpl; lra.
Defined.

(** The scenario of the specification scores 59. *)
Example score_scenario :
  computeSignalScore Examples.social1 Examples.developer1 = JS.Fin 59.
Proof.
  rewrite (computeSignalScore_Fin _ _ 10 120 5 8 40 5) by reflexivity.
  f_equal. unfold Exact.score.
  assert (Hs : Exact.socialScore 10 120 5 = 19.5).
  { unfold Exact.socialScore, Exact.socialVolume, Exact.socialEngagement,
      Exact.diversityBonus.
    destruct (Rlt_dec 0 10); [| lra].
    rewrite Rmin_right by lra. rewrite Rmin_left by lra.
    rewrite Rmin_left by lra. lra. }
  assert (Hd : Exact.devScore 8 40 5 = 24).
  { unfold Exact.devScore, Exact.devDiversity.
    destruct (Rlt_dec 0 8); [| lra]. destruct (Rlt_dec 0 5); [| lra].
    assert (Hl : 1 <= ln (5 + 1) / ln 2).
    { assert (0 < ln 2) by (pose proof ln_lt_2; lra).
      assert (ln 2 < ln (5 + 1)) by (apply ln_increasing; lra).
      apply Rmult_le_reg_r with (ln 2); [assumption |].
      unfold Rdiv. rewrite Rmult_assoc, Rinv_l by lra. lra. }
    rewrite Rmin_right by lra. rewrite Rmin_left by lra.
    rewrite Rmin_right by lra. lra. }
  rewrite Hs, Hd. unfold Exact.crossSourceBonus.
  destruct (Rlt_dec 0 10); [| lra]. destruct (Rlt_dec 0 8); [| lra].
  rewrite (Rmin_left (19.5 / 30)) by lra.
  rewrite (Rmin_left (24 / 30)) by lra.
  rewrite (roundR_eq (19.5 / 30 * (24 / 30) * 10) 5) by lra.
  rewrite (roundR_eq _ 59) by lra.
  apply Rmin_left. lra.
Qed.

(** ** C4: the cross-source bonus *)

Lemma eq_zero_not_gt (a : JS.num) :
  JS.eq a (JS.Fin 0) = true -> JS.gt a (JS.Fin 0) = false.
Proof.
  destruct a as [| x]; cbn; [discriminate |].
  destruct (Req_dec_T x 0); [| discriminate].
  intros _. destruct (Rlt_dec 0 x); [lra | reflexivity].
Qed.

Lemma eq_zero_not_ge (a : JS.num) (y : R) :
  0 < y -> JS.eq a (JS.Fin 0) = true -> JS.ge a (JS.Fin y) = false.
Proof.
  intros Hy. destruct a as [| x]; cbn; [discriminate |].
  destruct (Req_dec_T x 0); [| discriminate].
  intros _. destruct (Rle_dec y x); [lra | reflexivity].
Qed.

Lemma gt_Fin (a : JS.num) (y : R) :
  JS.gt a (JS.Fin y) = true -> exists x, a = JS.Fin x /\ y < x.
Proof.
  destruct a as [| x]; cbn; [discriminate |].
  destruct (Rlt_dec y x); [eauto | discriminate].
Qed.

Lemma ge_Fin (a : JS.num) (y : R) :
  JS.ge a (JS.Fin y) = true -> exists x, a = JS.Fin x /\ y <= x.
Proof.
  destruct a as [| x]; cbn; [discriminate |].
  destruct (Rle_dec y x); [eauto | discriminate].
Qed.

(** C4 fails as stated: six tweets and eight repositories, both counts
    positive, and an average engagement that is NaN; the bonus is NaN,
    no number between 10 and 20. *)
Lemma nan_engagement_bonus :
  JS.gt (Social.tweetCount Examples.socialNaNEngagement) (JS.Fin 0) = true
  /\ JS.gt (Developer.repoCount Examples.developer1) (JS.Fin 0) = true
  /\ crossSourceBonus Examples.socialNaNEngagement Examples.developer1
     = JS.NaN
  /\ ~ integerIn 10 20
         (crossSourceBonus Examples.socialNaNEngagement Examples.developer1).
Proof.
  assert (Hnan : crossSourceBonus Examples.socialNaNEngagement
                   Examples.developer1 = JS.NaN).
  { unfold crossSourceBonus, socialScore, diversityBonus. cbn.
    js_cases; cbn; js_cases; reflexivity. }
  repeat split; try js_decide; try exact Hnan.
  rewrite Hnan. intros (z & Hz & _). discriminate.
Qed.

(** A NaN among [avgEngagement], [uniqueAuthors] and [totalStars] makes
    the bonus of two positive counts NaN. *)
Lemma crossSourceBonus_NaN (social : Social.t) (developer : Developer.t) :
  JS.gt (Social.tweetCount social) (JS.Fin 0) = true ->
  JS.gt (Developer.repoCount developer) (JS.Fin 0) = true ->
  Social.avgEngagement social = JS.NaN
  \/ Social.uniqueAuthors social = JS.NaN
  \/ Developer.totalStars developer = JS.NaN ->
  crossSourceBonus social developer = JS.NaN.
Proof.
  intros Hgt Hgr Hnan.
  destruct (gt_Fin _ _ Hgt) as (t & Ht & Htpos).
  destruct (gt_Fin _ _ Hgr) as (r & Hr & Hrpos).
  unfold crossSourceBonus, socialScore, devScore, diversityBonus.
  rewrite Hgt, Hgr, Ht, Hr. cbn [andb].
  destruct Hnan as [H | [H | H]]; rewrite H;
    destruct (Social.avgEngagement social),
      (Social.uniqueAuthors social),
      (Developer.totalStars developer),
      (Developer.avgStars developer);
    cbn; js_cases; cbn; js_cases; try reflexivity; try discriminate H.
Qed.

(** C4, as amended.  The cross-source bonus is 0 when [tweetCount == 0]
    or [repoCount == 0]; when both are positive it is
    [10 + round(min(socialScore/30,1) * min(devScore/30,1) * 10)], which
    is an integer between 10 and 20 for snapshots with non-negative
    fields, and NaN when [avgEngagement], [uniqueAuthors] or [totalStars]
    is NaN. *)
Theorem crossSourceBonus_zero_or_10_20 (social : Social.t)
  (developer : Developer.t) :
  (JS.eq (Social.tweetCount social) (JS.Fin 0) = true
   \/ JS.eq (Developer.repoCount developer) (JS.Fin 0) = true ->
   crossSourceBonus social developer = JS.Fin 0)
  /\ (JS.gt (Social.tweetCount social) (JS.Fin 0) = true ->
      JS.gt (Developer.repoCount developer) (JS.Fin 0) = true ->
      crossSourceBonus social developer = Spec.bonusWhenBoth social developer
      /\ (socialOk social -> developerOk developer ->
          integerIn 10 20 (crossSourceBonus social developer))
      /\ (Social.avgEngagement social = JS.NaN
          \/ Social.uniqueAuthors social = JS.NaN
          \/ Developer.totalStars developer = JS.NaN ->
          crossSourceBonus social developer = JS.NaN)).
Proof.
  split.
  - intros [H | H]; apply eq_zero_not_gt in H;
      unfold crossSourceBonus; rewrite H; [| rewrite andb_false_r];
      reflexivity.
  - intros Hgt Hgr. split; [| split].
    + unfold crossSourceBonus, Spec.bonusWhenBoth. rewrite Hgt, Hgr.
      reflexivity.
    + intros Hs Hd.
      destruct (gt_Fin _ _ Hgt) as (t' & Ht' & Htpos).
      destruct (gt_Fin _ _ Hgr) as (r' & Hr' & Hrpos).
      snapshot_reals Hs Hd.
      rewrite (crossSourceBonus_Fin social developer t e u r ts av)
        by assumption.
      pose proof (socialScore_range t e u Ht0 He0 Hu0) as Hss.
      pose proof (devScore_range r ts av Hr0 Hts0) as Hds.
      destruct (crossSourceBonus_range t r (Exact.socialScore t e u)
                  (Exact.devScore r ts av)) as (k & Hk & Hk20 & Hk10);
        try lra.
      assert (t = t') by congruence. assert (r = r') by congruence.
      subst t' r'.
      exists k. rewrite Hk. split; [reflexivity |].
      specialize (Hk10 Htpos Hrpos). lia.
    + apply crossSourceBonus_NaN; assumption.
Qed.

Lemma crossSourceBonus_zero_or_10_20_witness :
  integerIn 10 20 (crossSourceBonus Examples.social1 Examples.developer1).
Proof.
  destruct (crossSourceBonus_zero_or_10_20 Examples.social1
              Examples.developer1) as [_ H].
  apply H.
  - cbn. destruct (Rlt_dec 0 10); [reflexivity | lra].
  - cbn. destruct (Rlt_dec 0 8); [reflexivity | lra].
  - unfold socialOk; simpl; lra.
  - unfold developerOk; simpl; lra.
Defined.

(** ** C5 and C10: the stage *)

(** C5.  [determineStage] is the first match among the rules of the
    specification, tried in their order; a weak social-only signal is an
    emergence, a weak developer-only signal a pre-narrative. *)
Theorem determineStage_rule_order (social : Social.t)
  (developer : Developer.t) :
  determineStage social developer = Spec.determineStage social developer
  /\ (JS.gt (Social.tweetCount social) (JS.Fin 0) = true ->
      Spec.hasStrongSocial social = false ->
      JS.eq (Developer.repoCount developer) (JS.Fin 0) = true ->
      determineStage social developer = emergence)
  /\ (JS.gt (Developer.repoCount developer) (JS.Fin 0) = true ->
      Spec.hasStrongDev developer = false ->
      JS.eq (Social.tweetCount social) (JS.Fin 0) = true ->
      determineStage social developer = pre_narrative).
Proof.
  unfold determineStage, Spec.determineStage, Spec.stageRules,
    Spec.firstMatch, Spec.hasStrongSocial, Spec.hasStrongDev.
  pose proof (eq_zero_not_gt (Social.tweetCount social)) as Hts.
  pose proof (eq_zero_not_gt (Developer.repoCount developer)) as Hrs.
  assert (H05 : 0 < 5) by lra.
  pose proof (eq_zero_not_ge (Social.tweetCount social) 5 H05) as Ht5.
  pose proof (eq_zero_not_ge (Developer.repoCount developer) 5 H05) as Hr5.
  destruct (JS.ge (Social.tweetCount social) (JS.Fin 5));
    destruct (JS.ge (Social.avgEngagement social) (JS.Fin 100));
    destruct (JS.ge (Developer.repoCount developer) (JS.Fin 5));
    destruct (JS.ge (Developer.totalStars developer) (JS.Fin 20));
    destruct (JS.ge (Social.avgEngagement social) (JS.Fin 500));
    destruct (JS.ge (Social.uniqueAuthors social) (JS.Fin 8));
    destruct (JS.ge (Social.avgEngagement social) (JS.Fin 200));
    destruct (JS.gt (Social.tweetCount social) (JS.Fin 0));
    destruct (JS.gt (Developer.repoCount developer) (JS.Fin 0));
    destruct (JS.eq (Social.tweetCount social) (JS.Fin 0));
    destruct (JS.eq (Developer.repoCount developer) (JS.Fin 0));
    cbn; repeat split; intros; try reflexivity; try discriminate;
    try (specialize (Hts eq_refl); discriminate);
    try (specialize (Hrs eq_refl); discriminate);
    try (specialize (Ht5 eq_refl); discriminate);
    try (specialize (Hr5 eq_refl); discriminate).
Qed.

Lemma determineStage_rule_order_witness :
  determineStage Examples.socialWeak (developerOf None) = emergence
  /\ determineStage (socialOf None) Examples.developerWeak = pre_narrative.
Proof.
  split.
  - destruct (determineStage_rule_order Examples.socialWeak
                (developerOf None)) as (_ & H & _).
    apply H; unfold Spec.hasStrongSocial; js_decide.
  - destruct (determineStage_rule_order (socialOf None)
                Examples.developerWeak) as (_ & _ & H).
    apply H; unfold Spec.hasStrongDev; js_decide.
Defined.

(** C10.  With [tweetCount == 0] or [repoCount == 0], in particular with
    the all-zero snapshot of an absent cluster, the stage is neither
    acceleration nor peak; these two stages need [tweetCount >= 5] and
    [repoCount >= 5] together. *)
Theorem acceleration_peak_need_both (social : Social.t)
  (developer : Developer.t) :
  (JS.eq (Social.tweetCount social) (JS.Fin 0) = true
   \/ JS.eq (Developer.repoCount developer) (JS.Fin 0) = true ->
   determineStage social developer <> acceleration
   /\ determineStage social developer <> peak)
  /\ (determineStage social developer = acceleration
      \/ determineStage social developer = peak ->
      JS.ge (Social.tweetCount social) (JS.Fin 5) = true
      /\ JS.ge (Developer.repoCount developer) (JS.Fin 5) = true)
  /\ determineStage (socialOf None) developer <> acceleration
  /\ determineStage (socialOf None) developer <> peak
  /\ determineStage social (developerOf None) <> acceleration
  /\ determineStage social (developerOf None) <> peak.
Proof.
  assert (Hneed : forall s d,
             determineStage s d = acceleration \/ determineStage s d = peak ->
             JS.ge (Social.tweetCount s) (JS.Fin 5) = true
             /\ JS.ge (Developer.repoCount d) (JS.Fin 5) = true).
  { intros s d. unfold determineStage.
    destruct (JS.ge (Social.tweetCount s) (JS.Fin 5));
      destruct (JS.ge (Developer.repoCount d) (JS.Fin 5));
      destruct (JS.ge (Social.avgEngagement s) (JS.Fin 100));
      destruct (JS.ge (Developer.totalStars d) (JS.Fin 20));
      destruct (JS.gt (Social.tweetCount s) (JS.Fin 0));
      destruct (JS.gt (Developer.repoCount d) (JS.Fin 0));
      cbn; intros [H | H]; try discriminate; auto. }
  assert (H05 : 0 < 5) by lra.
  assert (Hzero : forall s d,
             JS.eq (Social.tweetCount s) (JS.Fin 0) = true
             \/ JS.eq (Developer.repoCount d) (JS.Fin 0) = true ->
             determineStage s d <> acceleration
             /\ determineStage s d <> peak).
  { intros s d Hz.
    split; intros Hst;
      (destruct (Hneed s d) as [Ht Hr]; [auto |]);
      destruct Hz as [Hz | Hz];
      apply (eq_zero_not_ge _ 5 H05) in Hz; congruence. }
  assert (Hz0 : JS.eq (JS.Fin 0) (JS.Fin 0) = true).
  { cbn. destruct (Req_dec_T 0 0); [reflexivity | lra]. }
  split; [apply Hzero |]. split; [apply Hneed |].
  destruct (Hzero (socialOf None) developer) as [H1 H2]; [left; exact Hz0 |].
  destruct (Hzero social (developerOf None)) as [H3 H4]; [right; exact Hz0 |].
  auto.
Qed.

Lemma acceleration_peak_need_both_witness :
  JS.ge (Social.tweetCount Examples.socialStrong) (JS.Fin 5) = true
  /\ JS.ge (Developer.repoCount Examples.developerStrong) (JS.Fin 5) = true.
Proof.
  destruct (acceleration_peak_need_both Examples.socialStrong
              Examples.developerStrong) as (_ & H & _).
  apply H. right. unfold determineStage. js_decide.
Defined.

(** ** C6: the confidence *)

Lemma addIf_bonus (c : bool) (x y : R) :
  addIf c (JS.Fin x) (JS.Fin y) = JS.Fin (y + Spec.bonus c x).
Proof. destruct c; cbn; f_equal; lra. Qed.

(** A sum of hundredths stays a sum of hundredths, and not below 0.25. *)
Lemma hundredths_step (x : R) (c : bool) (y : R) (k : Z) :
  (0 <= k)%Z -> y = IZR k / 100 ->
  (exists a : Z, x = IZR a / 100 /\ (25 <= a)%Z) ->
  exists a : Z, x + Spec.bonus c y = IZR a / 100 /\ (25 <= a)%Z.
Proof.
  intros Hk Hy (a & Ha & Ha25). subst x y.
  exists (a + if c then k else 0)%Z. split.
  - rewrite plus_IZR. destruct c; cbn; lra.
  - destruct c; lia.
Qed.

Lemma bonusSum_hundredths (social : Social.t) (developer : Developer.t) :
  exists a : Z, Spec.bonusSum social developer = IZR a / 100 /\ (25 <= a)%Z.
Proof.
  unfold Spec.bonusSum.
  apply (hundredths_step _ _ _ 12); [lia | lra |].
  apply (hundredths_step _ _ _ 5); [lia | lra |].
  apply (hundredths_step _ _ _ 7); [lia | lra |].
  apply (hundredths_step _ _ _ 8); [lia | lra |].
  apply (hundredths_step _ _ _ 7); [lia | lra |].
  apply (hundredths_step _ _ _ 8); [lia | lra |].
  apply (hundredths_step _ _ _ 5); [lia | lra |].
  apply (hundredths_step _ _ _ 8); [lia | lra |].
  apply (hundredths_step _ _ _ 7); [lia | lra |].
  apply (hundredths_step _ _ _ 8); [lia | lra |].
  exists 25%Z. split; [lra | lia].
Qed.

Lemma rawConfidence_Fin (social : Social.t) (developer : Developer.t) :
  rawConfidence social developer = JS.Fin (Spec.bonusSum social developer).
Proof.
  unfold rawConfidence, Spec.bonusSum. rewrite !addIf_bonus. reflexivity.
Qed.

Lemma computeConfidence_Fin (social : Social.t) (developer : Developer.t) :
  computeConfidence social developer
  = JS.Fin (Spec.confidence social developer).
Proof.
  unfold computeConfidence, Spec.confidence.
  rewrite rawConfidence_Fin.
  destruct (bonusSum_hundredths social developer) as (a & Ha & _).
  cbn. rewrite Ha.
  replace (IZR a / 100 * 100) with (IZR a) by lra.
  rewrite roundR_IZR.
  destruct (Req_dec_T 100 0); [lra |]. reflexivity.
Qed.

(** C6.  [computeConfidence] is 0.25 plus the independent threshold
    bonuses, capped at 0.95; it lies between 0.25 and 0.95 and is a whole
    number of hundredths. *)
Theorem computeConfidence_formula (social : Social.t)
  (developer : Developer.t) :
  computeConfidence social developer
  = JS.Fin (Spec.confidence social developer)
  /\ 0.25 <= Spec.confidence social developer <= 0.95
  /\ exists k : Z, Spec.confidence social developer = IZR k / 100.
Proof.
  split; [apply computeConfidence_Fin |].
  unfold Spec.confidence.
  destruct (bonusSum_hundredths social developer) as (a & Ha & Ha25).
  assert (Ha25R : 25 <= IZR a) by (apply IZR_le; exact Ha25).
  rewrite Ha. split.
  - split; [apply Rmin_glb; lra | apply Rmin_r].
  - exists (Z.min a 95).
    unfold Rmin. destruct (Rle_dec (IZR a / 100) 0.95) as [H | H].
    + rewrite Z.min_l; [reflexivity |]. apply le_IZR. lra.
    + rewrite Z.min_r; [lra |].
      apply Z.lt_le_incl, lt_IZR. lra.
Qed.

(** The scenario of the specification is an emergence. *)
Example stage_scenario :
  determineStage Examples.social1 Examples.developer1 = emergence.
Proof. unfold determineStage. js_decide. Qed.

Example confidence_scenario :
  computeConfidence Examples.social1 Examples.developer1 = JS.Fin 0.76.
Proof.
  rewrite computeConfidence_Fin. f_equal.
  unfold Spec.confidence, Spec.bonusSum. cbn. js_cases. cbn.
  rewrite Rmin_left by lra. lra.
Qed.

(** ** C3: monotonicity of the score *)

Lemma le_Fin (x y : R) : JS.le (JS.Fin x) (JS.Fin y) = true <-> x <= y.
Proof.
  cbn. destruct (Rle_dec x y); split; intros; try reflexivity;
    try assumption; try discriminate; contradiction.
Qed.

Lemma lt_Fin (x y : R) : JS.lt (JS.Fin x) (JS.Fin y) = true <-> x < y.
Proof.
  cbn. destruct (Rlt_dec x y); split; intros; try reflexivity;
    try assumption; try discriminate; contradiction.
Qed.

Lemma score_developer_absent (social : Social.t) (t e u : R) :
  Social.tweetCount social = JS.Fin t ->
  Social.avgEngagement social = JS.Fin e ->
  Social.uniqueAuthors social = JS.Fin u ->
  computeSignalScore social (developerOf None)
  = JS.Fin (Rmin (IZR (JS.roundR (Exact.socialScore t e u))) 100).
Proof.
  intros Ht He Hu.
  rewrite (computeSignalScore_Fin social (developerOf None) t e u 0 0 0)
    by (assumption || reflexivity).
  unfold Exact.score, Exact.crossSourceBonus, Exact.devScore,
    Exact.devDiversity.
  destruct (Rlt_dec 0 0) as [H | _]; [lra |].
  rewrite (Rmin_left (0 * 2) 15), (Rmin_left (0 / 10) 20) by lra.
  destruct (Rlt_dec 0 t); do 4 f_equal; lra.
Qed.

Lemma score_six_tweets :
  computeSignalScore Examples.socialSix (developerOf None) = JS.Fin 20.
Proof.
  rewrite (score_developer_absent _ 6 24 5) by reflexivity.
  unfold Exact.socialScore, Exact.socialVolume, Exact.socialEngagement,
    Exact.diversityBonus.
  destruct (Rlt_dec 0 6); [| lra].
  rewrite (Rmin_left (6 * 2.5)) by lra.
  rewrite (Rmin_left (24 / 60)) by lra.
  rewrite (Rmin_left (5 / 6 * 5)) by lra.
  rewrite (roundR_eq _ 20) by lra.
  rewrite Rmin_left by lra. reflexivity.
Qed.

Lemma score_seven_tweets :
  computeSignalScore Examples.socialSeven (developerOf None) = JS.Fin 19.
Proof.
  rewrite (score_developer_absent _ 7 24 5) by reflexivity.
  unfold Exact.socialScore, Exact.socialVolume, Exact.socialEngagement,
    Exact.diversityBonus.
  destruct (Rlt_dec 0 7); [| lra].
  rewrite (Rmin_right (7 * 2.5)) by lra.
  rewrite (Rmin_left (24 / 60)) by lra.
  rewrite (Rmin_left (5 / 7 * 5)) by lra.
  rewrite (roundR_eq _ 19) by lra.
  rewrite Rmin_left by lra. reflexivity.
Qed.


Lemma Rmin_mono_l (x y c : R) : x <= y -> Rmin x c <= Rmin y c.
Proof. intros H. apply Rle_min_compat_r. exact H. Qed.

Lemma crossSourceBonus_mono (t t' r ss ss' ds : R) :
  t <= t' -> ss <= ss' -> 0 <= ss' -> 0 <= ds ->
  Exact.crossSourceBonus t r ss ds <= Exact.crossSourceBonus t' r ss' ds.
Proof.
  intros Ht Hss Hss' Hds.
  destruct (crossSourceBonus_range t' r ss' ds Hss' Hds)
    as (k & Hk & Hk20 & _).
  unfold Exact.crossSourceBonus in *.
  destruct (Rlt_dec 0 t) as [Hpos | Hzero].
  - destruct (Rlt_dec 0 t') as [_ | Hn]; [| lra].
    destruct (Rlt_dec 0 r); [| lra].
    apply Rplus_le_compat_l, IZR_le, roundR_le.
    assert (Hd : 0 <= Rmin (ds / 30) 1) by (apply Rmin_glb; lra).
    assert (Hs : Rmin (ss / 30) 1 <= Rmin (ss' / 30) 1)
      by (apply Rmin_mono_l; lra).
    nra.
  - rewrite Hk. apply (IZR_le 0). lia.
Qed.

Lemma score_mono (t t' e e' u u' r ts av : R) :
  0 <= t' -> 0 <= e' -> 0 <= u' -> 0 <= r -> 0 <= ts ->
  t <= t' ->
  Exact.socialScore t e u <= Exact.socialScore t' e' u' ->
  Exact.score t e u r ts av <= Exact.score t' e' u' r ts av.
Proof.
  intros Ht' He' Hu' Hr Hts Htt Hss.
  pose proof (socialScore_range t' e' u' Ht' He' Hu') as Hss'.
  pose proof (devScore_range r ts av Hr Hts) as Hds.
  pose proof (crossSourceBonus_mono t t' r _ _ (Exact.devScore r ts av)
                Htt Hss (proj1 Hss') (proj1 Hds)) as Hcb.
  unfold Exact.score. cbv zeta.
  apply Rmin_mono_l, IZR_le, roundR_le. lra.
Qed.

Lemma socialScore_mono (t t' e e' u : R) :
  t <= t' -> e <= e' ->
  Exact.diversityBonus t u <= Exact.diversityBonus t' u ->
  Exact.socialScore t e u <= Exact.socialScore t' e' u.
Proof.
  intros Htt Hee Hdiv.
  unfold Exact.socialScore, Exact.socialVolume, Exact.socialEngagement.
  assert (Rmin (t * 2.5) 15 <= Rmin (t' * 2.5) 15)
    by (apply Rmin_mono_l; lra).
  assert (Rmin (e / 60) 20 <= Rmin (e' / 60) 20)
    by (apply Rmin_mono_l; lra).
  lra.
Qed.

(** Below the volume cap, with no more authors than tweets, one more
    tweet adds more volume than it takes from the diversity bonus. *)
Lemma socialScore_mono_volume (t t' e e' u : R) :
  0 <= t -> t <= t' -> t' <= 6 -> e <= e' -> 0 <= u -> u <= t ->
  Exact.socialScore t e u <= Exact.socialScore t' e' u.
Proof.
  intros Ht Htt Ht6 Hee Hu Hut.
  unfold Exact.socialScore, Exact.socialVolume, Exact.socialEngagement,
    Exact.diversityBonus.
  assert (He : Rmin (e / 60) 20 <= Rmin (e' / 60) 20)
    by (apply Rmin_mono_l; lra).
  rewrite (Rmin_left (t * 2.5) 15), (Rmin_left (t' * 2.5) 15) by lra.
  destruct (Rlt_dec 0 t) as [Hpos | Hzero].
  - destruct (Rlt_dec 0 t') as [Hpos' | Hn]; [| lra].
    assert (Hx : u / t' * u <= u / t * u).
    { apply Rmult_le_compat_r; [exact Hu |].
      unfold Rdiv. apply Rmult_le_compat_l; [exact Hu |].
      apply Rinv_le_contravar; assumption. }
    assert (Hgap : u / t * u - u / t' * u <= t' - t).
    { assert (Hq : u / t * u - u / t' * u = u * u * (t' - t) / (t * t'))
        by (field; lra).
      rewrite Hq.
      assert (Hprod : 0 < t * t') by (apply Rmult_lt_0_compat; assumption).
      assert (Huu : u * u <= t * t') by (apply Rmult_le_compat; lra).
      apply Rmult_le_reg_r with (t * t'); [exact Hprod |].
      unfold Rdiv. rewrite Rmult_assoc, Rinv_l by lra.
      rewrite Rmult_1_r, (Rmult_comm (t' - t)).
      apply Rmult_le_compat_r; lra. }
    assert (Hmin : Rmin (u / t * u) 5 - Rmin (u / t' * u) 5
                   <= u / t * u - u / t' * u).
    { unfold Rmin.
      destruct (Rle_dec (u / t * u) 5), (Rle_dec (u / t' * u) 5); lra. }
    lra.
  - assert (t = 0) by lra. assert (u = 0) by lra. subst t u.
    rewrite (Rmin_left (0 * 0) 5) by lra.
    assert (0 <= Rmin ((if Rlt_dec 0 t' then 0 / t' else 0) * 0) 5)
      by (apply Rmin_glb; lra).
    lra.
Qed.

(** While the diversity bonus stays at its cap, more tweets take nothing
    from it. *)
Lemma socialScore_mono_capped (t t' e e' u : R) :
  0 <= t -> t <= t' -> e <= e' -> 0 <= u -> t' * 5 <= u * u ->
  Exact.socialScore t e u <= Exact.socialScore t' e' u.
Proof.
  intros Ht Htt Hee Hu Hcap.
  unfold Exact.socialScore, Exact.socialVolume, Exact.socialEngagement,
    Exact.diversityBonus.
  assert (He : Rmin (e / 60) 20 <= Rmin (e' / 60) 20)
    by (apply Rmin_mono_l; lra).
  assert (Hv : Rmin (t * 2.5) 15 <= Rmin (t' * 2.5) 15)
    by (apply Rmin_mono_l; lra).
  destruct (Rlt_dec 0 t') as [Hpos' | Hzero'].
  - assert (H5 : 5 <= u / t' * u).
    { apply Rmult_le_reg_r with t'; [exact Hpos' |].
      replace (u / t' * u * t') with (u * u) by (field; lra). lra. }
    rewrite (Rmin_right (u / t' * u) 5) by exact H5.
    pose proof (Rmin_r ((if Rlt_dec 0 t then u / t else 0) * u) 5). lra.
  - destruct (Rlt_dec 0 t); [lra |]. lra.
Qed.



(** ** The stable sort *)

Section SortFacts.
Context {A : Type} (after : A -> A -> bool).

Lemma insert_perm (x : A) (l : list A) :
  Permutation (Arr.insert after x l) (x :: l).
Proof.
  induction l as [| y l IH]; cbn; [reflexivity |].
  destruct (after x y); [| reflexivity].
  rewrite IH. apply perm_swap.
Qed.

Lemma sort_perm (l : list A) : Permutation (Arr.sort after l) l.
Proof.
  induction l as [| x l IH]; cbn; [reflexivity |].
  rewrite insert_perm. now apply perm_skip.
Qed.

Lemma sort_In (x : A) (l : list A) : In x (Arr.sort after l) <-> In x l.
Proof.
  split; apply Permutation_in; [| symmetry]; apply sort_perm.
Qed.
End SortFacts.

(** Sorting commutes with a map that the comparison factors through. *)
Lemma sort_map {A B : Type} (f : A -> B) (after : A -> A -> bool)
  (after' : B -> B -> bool) (l : list A) :
  (forall a b, after' (f a) (f b) = after a b) ->
  Arr.sort after' (map f l) = map f (Arr.sort after l).
Proof.
  intros Hf. induction l as [| x l IH]; [reflexivity |].
  cbn [map Arr.sort fold_right]. fold (Arr.sort after' (map f l)).
  fold (Arr.sort after l). rewrite IH. clear IH.
  induction (Arr.sort after l) as [| y s IHs]; [reflexivity |].
  cbn [map Arr.insert]. rewrite Hf.
  destruct (after x y); cbn [map]; [rewrite IHs |]; reflexivity.
Qed.

(** ** C1: which narratives are emitted *)

Lemma finite_Fin (a : JS.num) : finite a -> exists x, a = JS.Fin x.
Proof. destruct a; simpl; [tauto | eauto]. Qed.

Lemma not_lt_ge (x y : R) :
  JS.lt (JS.Fin x) (JS.Fin y) = false <-> JS.ge (JS.Fin x) (JS.Fin y) = true.
Proof.
  cbn. destruct (Rlt_dec x y), (Rle_dec y x); split; intros;
    try reflexivity; try discriminate; lra.
Qed.

Lemma socialOf_finite (c : option XScanner.TopicCluster) :
  match c with Some c => xClusterFinite c | None => True end ->
  exists t e u,
    Social.tweetCount (socialOf c) = JS.Fin t
    /\ Social.avgEngagement (socialOf c) = JS.Fin e
    /\ Social.uniqueAuthors (socialOf c) = JS.Fin u.
Proof.
  destruct c as [c |]; cbn.
  - intros (Ht & He & Hu).
    apply finite_Fin in Ht, He. destruct Ht as (t & ->), He as (e & ->).
    destruct (XScanner.uniqueAuthors c) as [n |].
    + apply finite_Fin in Hu. destruct Hu as (u & ->). repeat eexists.
    + repeat eexists.
  - repeat eexists.
Qed.

Lemma developerOf_finite (c : option GHScanner.GHTopicCluster) :
  match c with Some c => ghClusterFinite c | None => True end ->
  exists r ts av,
    Developer.repoCount (developerOf c) = JS.Fin r
    /\ Developer.totalStars (developerOf c) = JS.Fin ts
    /\ Developer.avgStars (developerOf c) = JS.Fin av.
Proof.
  destruct c as [c |]; cbn.
  - intros (Hr & Hts & Hav).
    apply finite_Fin in Hr, Hts, Hav.
    destruct Hr as (r & ->), Hts as (ts & ->), Hav as (av & ->).
    repeat eexists.
  - repeat eexists.
Qed.

Lemma found_finite {A : Type} (P : A -> Prop) (f : A -> bool) (l : list A) :
  Forall P l ->
  match find f l with Some c => P c | None => True end.
Proof.
  intros Hall. destruct (find f l) as [c |] eqn:Hfind; [| exact I].
  apply find_some in Hfind. rewrite Forall_forall in Hall.
  apply Hall, Hfind.
Qed.

Lemma table_names_unique : NoDup (map fst TOPIC_ALIGNMENT).
Proof.
  cbn. repeat constructor; cbn; intuition discriminate.
Qed.

Lemma table_entry_unique (nm : string) (v v' : string * string) :
  In (nm, v) TOPIC_ALIGNMENT -> In (nm, v') TOPIC_ALIGNMENT -> v = v'.
Proof.
  pose proof table_names_unique as Hnd.
  induction TOPIC_ALIGNMENT as [| [k w] l IH]; cbn; [tauto |].
  cbn in Hnd. inversion Hnd as [| ? ? Hnotin Hnd']; subst.
  intros [H1 | H1] [H2 | H2].
  - congruence.
  - inversion H1; subst. exfalso. apply Hnotin.
    apply (in_map fst) in H2. exact H2.
  - inversion H2; subst. exfalso. apply Hnotin.
    apply (in_map fst) in H1. exact H1.
  - now apply IH.
Qed.

(** What one turn of the loop pushes. *)
Lemma narrativeFor_In (xResult : XScanner.XScanResult)
  (ghResult : GHScanner.GHScanResult) (nm xn gn : string)
  (n : DetectedNarrative) :
  In n (narrativeFor xResult ghResult (nm, (xn, gn))) <->
  (xClusterFor xResult xn <> None \/ ghClusterFor ghResult gn <> None)
  /\ JS.lt (computeSignalScore (socialOf (xClusterFor xResult xn))
              (developerOf (ghClusterFor ghResult gn))) (JS.Fin 15) = false
  /\ n = {| name := nm;
            confidence :=
              computeConfidence (socialOf (xClusterFor xResult xn))
                (developerOf (ghClusterFor ghResult gn));
            stage :=
              determineStage (socialOf (xClusterFor xResult xn))
                (developerOf (ghClusterFor ghResult gn));
            signalScore :=
              computeSignalScore (socialOf (xClusterFor xResult xn))
                (developerOf (ghClusterFor ghResult gn));
            social := socialOf (xClusterFor xResult xn);
            developer := developerOf (ghClusterFor ghResult gn) |}.
Proof.
  unfold narrativeFor.
  set (xCluster := xClusterFor xResult xn).
  set (ghCluster := ghClusterFor ghResult gn).
  destruct (isNone xCluster && isNone ghCluster) eqn:Hnone.
  - split; [intros [] |]. intros ([H | H] & _); exfalso;
      destruct xCluster, ghCluster; cbn in Hnone; congruence.
  - assert (Hsome : xCluster <> None \/ ghCluster <> None).
    { destruct xCluster, ghCluster; cbn in Hnone;
        try discriminate; (left; discriminate) || (right; discriminate). }
    destruct (JS.lt (computeSignalScore (socialOf xCluster)
                       (developerOf ghCluster)) (JS.Fin 15)) eqn:Hlt.
    + split; [intros [] |]. intros (_ & H & _). discriminate.
    + split.
      * intros [H | []]. auto.
      * intros (_ & _ & ->). left. reflexivity.
Qed.

Lemma emitted_iff_pushed (xResult : XScanner.XScanResult)
  (ghResult : GHScanner.GHScanResult) (nm xn gn : string) :
  In (nm, (xn, gn)) TOPIC_ALIGNMENT ->
  emitted (aggregateSignals xResult ghResult) nm <->
  (xClusterFor xResult xn <> None \/ ghClusterFor ghResult gn <> None)
  /\ JS.lt (computeSignalScore (socialOf (xClusterFor xResult xn))
              (developerOf (ghClusterFor ghResult gn))) (JS.Fin 15) = false.
Proof.
  intros Hentry. unfold emitted, aggregateSignals. split.
  - intros (n & Hin & Hname).
    apply sort_In, in_flat_map in Hin.
    destruct Hin as ([nm' [xn' gn']] & Hentry' & Hin).
    apply narrativeFor_In in Hin. destruct Hin as (Hsome & Hlt & ->).
    cbn in Hname. subst nm'.
    pose proof (table_entry_unique nm _ _ Hentry Hentry') as Heq.
    inversion Heq; subst. auto.
  - intros (Hsome & Hlt).
    eexists. split.
    + apply sort_In, in_flat_map. eexists. split; [exact Hentry |].
      apply narrativeFor_In. repeat split; [exact Hsome | exact Hlt].
    + reflexivity.
Qed.

Lemma nan_cluster_score :
  computeSignalScore (socialOf (Some Examples.xClusterNaN)) (developerOf None)
  = JS.NaN.
Proof. reflexivity. Qed.

Lemma nan_cluster_pushed :
  exists n,
    In n (aggregateSignals (Examples.xResultOf [Examples.xClusterNaN])
            Examples.ghResultEmpty)
    /\ name n = "Cross-chain"%string /\ signalScore n = JS.NaN.
Proof.
  eexists. split; [| split].
  - unfold aggregateSignals. apply sort_In, in_flat_map.
    exists ("Cross-chain", ("Cross-chain & Interoperability", ""))%string.
    split; [cbn; do 6 right; left; reflexivity |].
    apply narrativeFor_In. split; [left; cbn; discriminate |].
    split; [| reflexivity].
    change (JS.lt (computeSignalScore
                     (socialOf (Some Examples.xClusterNaN))
                     (developerOf None)) (JS.Fin 15) = false).
    rewrite nan_cluster_score. reflexivity.
  - reflexivity.
  - exact nan_cluster_score.
Qed.

(** C1 fails as stated: the cluster of the entry is found with a
    [tweetCount] that is NaN; the score is NaN, which is not at least 15,
    and the record is in the result all the same. *)
Lemma nan_score_emitted :
  xClusterFor (Examples.xResultOf [Examples.xClusterNaN])
    "Cross-chain & Interoperability" = Some Examples.xClusterNaN
  /\ computeSignalScore (socialOf (Some Examples.xClusterNaN))
       (developerOf None) = JS.NaN
  /\ JS.ge (computeSignalScore (socialOf (Some Examples.xClusterNaN))
              (developerOf None)) (JS.Fin 15) = false
  /\ emitted
       (aggregateSignals (Examples.xResultOf [Examples.xClusterNaN])
          Examples.ghResultEmpty) "Cross-chain".
Proof.
  split; [reflexivity |]. split; [exact nan_cluster_score |].
  split; [rewrite nan_cluster_score; reflexivity |].
  destruct nan_cluster_pushed as (n & Hin & Hname & _).
  exists n. split; assumption.
Qed.

(** C1, as amended.  For an entry of the alignment table, a record of
    that name is in the result of [aggregateSignals] exactly when one of
    the two clusters is found and the test [signalScore < 15] is false.
    For clusters whose counts are numbers that means a score of at least
    15; a score that is NaN passes the test as well, so the record of a
    found cluster is then in the result.  An entry with both clusters
    absent gives no record, and no record has a score below 15. *)
Theorem aggregateSignals_emits_iff (xResult : XScanner.XScanResult)
  (ghResult : GHScanner.GHScanResult)
  (narrativeName xClusterName ghClusterName : string) :
  In (narrativeName, (xClusterName, ghClusterName)) TOPIC_ALIGNMENT ->
  let xCluster := xClusterFor xResult xClusterName in
  let ghCluster := ghClusterFor ghResult ghClusterName in
  let score :=
    computeSignalScore (socialOf xCluster) (developerOf ghCluster) in
  (emitted (aggregateSignals xResult ghResult) narrativeName <->
   (xCluster <> None \/ ghCluster <> None) /\ JS.lt score (JS.Fin 15) = false)
  /\ (Forall xClusterFinite (XScanner.topicClusters xResult) ->
      Forall ghClusterFinite (GHScanner.topicClusters ghResult) ->
      (emitted (aggregateSignals xResult ghResult) narrativeName <->
       (xCluster <> None \/ ghCluster <> None)
       /\ JS.ge score (JS.Fin 15) = true))
  /\ (score = JS.NaN ->
      (emitted (aggregateSignals xResult ghResult) narrativeName <->
       xCluster <> None \/ ghCluster <> None))
  /\ (xCluster = None -> ghCluster = None ->
      ~ emitted (aggregateSignals xResult ghResult) narrativeName)
  /\ (forall n, In n (aggregateSignals xResult ghResult) ->
      JS.lt (signalScore n) (JS.Fin 15) = false).
Proof.
  intros Hentry xCluster ghCluster score.
  pose proof (emitted_iff_pushed xResult ghResult _ _ _ Hentry) as Hiff.
  fold xCluster ghCluster score in Hiff.
  split; [exact Hiff |]. split; [| split; [| split]].
  - intros Hx Hg.
    destruct (socialOf_finite xCluster) as (t & e & u & Ht & He & Hu).
    { apply found_finite, Hx. }
    destruct (developerOf_finite ghCluster) as (r & ts & av & Hr & Hts & Hav).
    { apply found_finite, Hg. }
    assert (Hscore : score = JS.Fin (Exact.score t e u r ts av))
      by (apply computeSignalScore_Fin; assumption).
    rewrite Hiff, Hscore, not_lt_ge. reflexivity.
  - intros Hnan. rewrite Hiff, Hnan. cbn. tauto.
  - intros Hx Hg Hem. apply Hiff in Hem. destruct Hem as ([H | H] & _); auto.
  - intros n Hin. unfold aggregateSignals in Hin.
    apply sort_In, in_flat_map in Hin.
    destruct Hin as ([nm' [xn' gn']] & _ & Hin).
    apply narrativeFor_In in Hin. destruct Hin as (_ & Hlt & ->).
    exact Hlt.
Qed.

Lemma aggregateSignals_emits_iff_witness :
  emitted (aggregateSignals (Examples.xResultOf [Examples.xCluster6])
             Examples.ghResultEmpty) "Cross-chain".
Proof.
  destruct (aggregateSignals_emits_iff
              (Examples.xResultOf [Examples.xCluster6])
              Examples.ghResultEmpty
              "Cross-chain" "Cross-chain & Interoperability" "")
    as (_ & H & _).
  - cbn. do 6 right. left. reflexivity.
  - apply H.
    + repeat constructor.
    + constructor.
    + split.
      * left. cbn. discriminate.
      * change (JS.ge (computeSignalScore Examples.socialSix
                         (developerOf None)) (JS.Fin 15) = true).
        rewrite score_six_tweets. js_decide.
Defined.

(** ** C8: what the snapshot builder does with NaN and undefined *)


(** Every test of the stage and of the confidence is false on NaN, as
    it is on 0. *)
Lemma ge_orZero (a : JS.num) (y : R) :
  0 < y -> JS.ge (orZero a) (JS.Fin y) = JS.ge a (JS.Fin y).
Proof.
  intros Hy. destruct a as [| x]; [| reflexivity].
  cbn. destruct (Rle_dec y 0); [lra | reflexivity].
Qed.

Lemma gt_orZero (a : JS.num) :
  JS.gt (orZero a) (JS.Fin 0) = JS.gt a (JS.Fin 0).
Proof.
  destruct a as [| x]; [| reflexivity].
  cbn. destruct (Rlt_dec 0 0); [lra | reflexivity].
Qed.

Lemma determineStage_zeroed (social : Social.t) (developer : Developer.t) :
  determineStage (socialZeroed social) (developerZeroed developer)
  = determineStage social developer.
Proof.
  unfold determineStage, socialZeroed, developerZeroed.
  cbn [Social.tweetCount Social.avgEngagement Social.uniqueAuthors
       Developer.repoCount Developer.totalStars].
  rewrite !ge_orZero by lra. rewrite !gt_orZero. reflexivity.
Qed.

Lemma computeConfidence_zeroed (social : Social.t)
  (developer : Developer.t) :
  computeConfidence (socialZeroed social) (developerZeroed developer)
  = computeConfidence social developer.
Proof.
  unfold computeConfidence, rawConfidence, socialZeroed, developerZeroed.
  cbn [Social.tweetCount Social.avgEngagement Social.uniqueAuthors
       Developer.repoCount Developer.totalStars].
  rewrite !ge_orZero by lra. rewrite !gt_orZero. reflexivity.
Qed.

(** The score reads [avgStars] in one test only, and never reads
    [totalEngagement]. *)
Lemma computeSignalScore_zeroed (social : Social.t)
  (developer : Developer.t) :
  finite (Social.tweetCount social) ->
  finite (Social.avgEngagement social) ->
  finite (Social.uniqueAuthors social) ->
  finite (Developer.repoCount developer) ->
  finite (Developer.totalStars developer) ->
  computeSignalScore (socialZeroed social) (developerZeroed developer)
  = computeSignalScore social developer.
Proof.
  intros Ht He Hu Hr Hts.
  apply finite_Fin in Ht, He, Hu, Hr, Hts.
  destruct Ht as (t & Ht), He as (e & He), Hu as (u & Hu),
    Hr as (r & Hr), Hts as (ts & Hts).
  unfold computeSignalScore, crossSourceBonus, socialScore, devScore,
    diversityBonus, socialZeroed, developerZeroed.
  cbn [Social.tweetCount Social.avgEngagement Social.uniqueAuthors
       Developer.repoCount Developer.totalStars Developer.avgStars].
  rewrite Ht, He, Hu, Hr, Hts.
  destruct (Developer.avgStars developer) as [| a]; [| reflexivity].
  cbn [orZero]. replace (JS.gt (JS.Fin 0) (JS.Fin 0)) with false
    by (cbn; destruct (Rlt_dec 0 0); [lra | reflexivity]).
  replace (JS.gt JS.NaN (JS.Fin 0)) with false by reflexivity.
  rewrite !andb_false_r. reflexivity.
Qed.

Lemma computeSignalScore_NaN (social : Social.t) (developer : Developer.t) :
  Social.tweetCount social = JS.NaN
  \/ Social.avgEngagement social = JS.NaN
  \/ Social.uniqueAuthors social = JS.NaN
  \/ Developer.repoCount developer = JS.NaN
  \/ Developer.totalStars developer = JS.NaN ->
  computeSignalScore social developer = JS.NaN.
Proof.
  intros Hnan.
  unfold computeSignalScore, crossSourceBonus, socialScore, devScore,
    diversityBonus.
  destruct Hnan as [H | [H | [H | [H | H]]]]; rewrite H;
    destruct (Social.tweetCount social), (Social.avgEngagement social),
      (Social.uniqueAuthors social), (Developer.repoCount developer),
      (Developer.totalStars developer), (Developer.avgStars developer);
    try discriminate H;
    cbn; js_cases; cbn; js_cases; cbn; js_cases; reflexivity.
Qed.



(** ** The insertion-ordered map *)

Lemma get_set_same (k : string) (v : nat) (m : StrMap.t) :
  StrMap.get k (StrMap.set k v m) = Some v.
Proof.
  induction m as [| [k' v'] m IH]; cbn.
  - now rewrite String.eqb_refl.
  - destruct (String.eqb k' k) eqn:E; cbn; rewrite E; auto.
Qed.

Lemma get_set_other (k k' : string) (v : nat) (m : StrMap.t) :
  k <> k' -> StrMap.get k' (StrMap.set k v m) = StrMap.get k' m.
Proof.
  intros Hne. induction m as [| [k0 v0] m IH]; cbn.
  - destruct (String.eqb k k') eqn:E; [| reflexivity].
    apply String.eqb_eq in E. contradiction.
  - destruct (String.eqb k0 k) eqn:E; cbn.
    + apply String.eqb_eq in E. subst k0.
      destruct (String.eqb k k') eqn:E'; [| reflexivity].
      apply String.eqb_eq in E'. contradiction.
    + destruct (String.eqb k0 k'); auto.
Qed.

Lemma get_None_keys (k : string) (m : StrMap.t) :
  StrMap.get k m = None <-> ~ In k (map fst m).
Proof.
  induction m as [| [k' v'] m IH]; cbn; [tauto |].
  destruct (String.eqb k' k) eqn:E.
  - apply String.eqb_eq in E. split; [discriminate | tauto].
  - apply String.eqb_neq in E. rewrite IH. tauto.
Qed.

(** [set] keeps the place of a present key and appends a new one. *)
Lemma set_keys (k : string) (v : nat) (m : StrMap.t) :
  map fst (StrMap.set k v m)
  = match StrMap.get k m with
    | Some _ => map fst m
    | None => map fst m ++ [k]
    end.
Proof.
  induction m as [| [k' v'] m IH]; cbn; [reflexivity |].
  destruct (String.eqb k' k) eqn:E; cbn; [reflexivity |].
  rewrite IH. destruct (StrMap.get k m); reflexivity.
Qed.

Lemma In_get (k : string) (c : nat) (m : StrMap.t) :
  NoDup (map fst m) -> In (k, c) m -> StrMap.get k m = Some c.
Proof.
  induction m as [| [k' v'] m IH]; cbn; [tauto |].
  intros Hnd [Heq | Hin].
  - inversion Heq; subst. now rewrite String.eqb_refl.
  - inversion Hnd as [| ? ? Hnotin Hnd']; subst.
    destruct (String.eqb k' k) eqn:E.
    + apply String.eqb_eq in E. subst k'. exfalso. apply Hnotin.
      apply (in_map fst) in Hin. exact Hin.
    + now apply IH.
Qed.

(** ** Sorted lists *)

Section SortedFacts.
Context {A : Type}.

Lemma StronglySorted_snoc (R : A -> A -> Prop) (l : list A) (x : A) :
  StronglySorted R l -> Forall (fun a => R a x) l ->
  StronglySorted R (l ++ [x]).
Proof.
  induction 1 as [| a l Hl IH Ha]; intros Hx; cbn.
  - repeat constructor.
  - inversion Hx; subst. constructor; [auto |].
    apply Forall_app. split; [assumption | repeat constructor; assumption].
Qed.

Lemma StronglySorted_impl_In (R R' : A -> A -> Prop) (l : list A) :
  (forall a b, In a l -> In b l -> R a b -> R' a b) ->
  StronglySorted R l -> StronglySorted R' l.
Proof.
  intros Himp Hs. induction Hs as [| a l Hl IH Ha]; constructor.
  - apply IH. intros; apply Himp; cbn; auto.
  - rewrite Forall_forall in *. intros b Hb.
    apply Himp; cbn; auto.
Qed.

Lemma StronglySorted_filter (R : A -> A -> Prop) (f : A -> bool)
  (l : list A) :
  StronglySorted R l -> StronglySorted R (filter f l).
Proof.
  induction 1 as [| a l Hl IH Ha]; cbn; [constructor |].
  destruct (f a); [| assumption]. constructor; [assumption |].
  rewrite Forall_forall in *. intros b Hb.
  apply filter_In in Hb. apply Ha, Hb.
Qed.

Lemma firstn_In (n : nat) (l : list A) (x : A) :
  In x (firstn n l) -> In x l.
Proof.
  revert n. induction l as [| a l IH]; intros [| n]; cbn; try tauto.
  intros [H | H]; [auto | right; eapply IH; eassumption].
Qed.

Lemma StronglySorted_firstn (R : A -> A -> Prop) (n : nat) (l : list A) :
  StronglySorted R l -> StronglySorted R (firstn n l).
Proof.
  intros Hs. revert n.
  induction Hs as [| a l Hl IH Ha]; intros [| n]; cbn; try constructor.
  - apply IH.
  - rewrite Forall_forall in *. intros b Hb.
    apply Ha. eapply firstn_In; eassumption.
Qed.

Lemma StronglySorted_map {B : Type} (R : B -> B -> Prop) (f : A -> B)
  (l : list A) :
  StronglySorted (fun a b => R (f a) (f b)) l -> StronglySorted R (map f l).
Proof.
  induction 1 as [| a l Hl IH Ha]; cbn; constructor; [assumption |].
  rewrite Forall_forall in *. intros b Hb.
  apply in_map_iff in Hb. destruct Hb as (x & <- & Hx). now apply Ha.
Qed.

Lemma StronglySorted_NoDup (R : A -> A -> Prop) (l : list A) :
  (forall a, ~ R a a) -> StronglySorted R l -> NoDup l.
Proof.
  intros Hirr. induction 1 as [| a l Hl IH Ha]; constructor; [| assumption].
  intros Hin. rewrite Forall_forall in Ha. apply (Hirr a), Ha, Hin.
Qed.
End SortedFacts.

(** Stability: sorting by decreasing key a list that is in [T]-order
    leaves elements of equal key in [T]-order. *)
Section Stable.
Context {A : Type} (key : A -> nat) (T : A -> A -> Prop).
Context (after : A -> A -> bool).
Hypothesis after_key : forall a b, after a b = true <-> (key a < key b)%nat.

Lemma insert_sorted (x : A) (s : list A) :
  StronglySorted (byKeyThen key T) s -> Forall (T x) s ->
  StronglySorted (byKeyThen key T) (Arr.insert after x s).
Proof.
  induction 1 as [| y s Hs IH Hy]; intros Hx; cbn [Arr.insert].
  - repeat constructor.
  - inversion Hx as [| ? ? Hxy Hxs]; subst.
    destruct (after x y) eqn:E.
    + apply after_key in E.
      constructor; [auto |].
      rewrite Forall_forall in *. intros z Hz.
      apply (Permutation_in _ (insert_perm after x s)) in Hz.
      destruct Hz as [<- | Hz]; [left; exact E | auto].
    + assert (Hge : (key y <= key x)%nat).
      { destruct (Nat.lt_ge_cases (key x) (key y)) as [Hlt | Hge];
          [| exact Hge].
        apply after_key in Hlt. congruence. }
      constructor; [constructor; assumption |].
      constructor.
      * unfold byKeyThen.
        destruct (Nat.eq_dec (key x) (key y)); [right | left];
          auto; lia.
      * rewrite Forall_forall in *. intros z Hz.
        specialize (Hy z Hz). specialize (Hxs z Hz).
        unfold byKeyThen in *.
        destruct (Nat.eq_dec (key x) (key z)); [right; auto | left].
        destruct Hy as [Hy | [Hy _]]; lia.
Qed.

Lemma sort_stable (l : list A) :
  StronglySorted T l ->
  StronglySorted (byKeyThen key T) (Arr.sort after l).
Proof.
  induction 1 as [| x l Hl IH Hx]; cbn [Arr.sort fold_right];
    [constructor |].
  apply insert_sorted; [exact IH |].
  rewrite Forall_forall in *. intros y Hy.
  apply Hx. apply (sort_In after). exact Hy.
Qed.
End Stable.


(** ** Counting words *)

Import KeyTerms.

Lemma freq_snoc (pre : list string) (w k : string) :
  freq (pre ++ [w]) k
  = (freq pre k + if string_dec w k then 1 else 0)%nat.
Proof.
  unfold freq. rewrite count_occ_app. cbn.
  destruct (string_dec w k); reflexivity.
Qed.

Lemma firstSeen_app (k : string) (pre l : list string) :
  In k pre -> firstSeen k (pre ++ l) = firstSeen k pre.
Proof.
  induction pre as [| x pre IH]; cbn; [tauto |].
  intros Hin. destruct (String.eqb x k) eqn:E; [reflexivity |].
  apply String.eqb_neq in E. destruct Hin as [-> | Hin]; [congruence |].
  now rewrite IH.
Qed.

Lemma firstSeen_lt (k : string) (pre : list string) :
  In k pre -> (firstSeen k pre < List.length pre)%nat.
Proof.
  induction pre as [| x pre IH]; cbn; [tauto |].
  intros Hin. destruct (String.eqb x k) eqn:E; [lia |].
  apply String.eqb_neq in E. destruct Hin as [-> | Hin]; [congruence |].
  specialize (IH Hin). lia.
Qed.

Lemma firstSeen_new (k : string) (pre : list string) :
  ~ In k pre -> firstSeen k (pre ++ [k]) = List.length pre.
Proof.
  induction pre as [| x pre IH]; cbn.
  - now rewrite String.eqb_refl.
  - intros Hnin. destruct (String.eqb x k) eqn:E.
    + apply String.eqb_eq in E. tauto.
    + rewrite IH; tauto.
Qed.

Lemma counted_keys (pre : list string) (m : StrMap.t) (k : string) :
  counted pre m -> In k (map fst m) -> In k pre.
Proof.
  intros [Hget _] Hin. specialize (Hget k).
  destruct (in_dec string_dec k pre) as [H | H]; [exact H |].
  apply get_None_keys in Hget. contradiction.
Qed.

Lemma counted_nil : counted [] [].
Proof. split; [reflexivity | constructor]. Qed.

Lemma counted_step (pre : list string) (m : StrMap.t) (w : string) :
  counted pre m -> counted (pre ++ [w]) (countWord m w).
Proof.
  intros Hc. pose proof Hc as [Hget Hord]. unfold countWord. split.
  - intros k. destruct (string_dec w k) as [<- | Hne].
    + rewrite get_set_same, (Hget w), freq_snoc.
      destruct (string_dec w w); [| congruence].
      destruct (in_dec string_dec w (pre ++ [w])) as [_ | Hn];
        [| exfalso; apply Hn, in_or_app; right; left; reflexivity].
      destruct (in_dec string_dec w pre) as [Hin | Hnin]; [reflexivity |].
      unfold freq. rewrite (proj1 (count_occ_not_In _ _ _) Hnin).
      reflexivity.
    + rewrite (get_set_other w k) by exact Hne.
      rewrite (Hget k), freq_snoc.
      destruct (string_dec w k); [congruence |]. rewrite Nat.add_0_r.
      destruct (in_dec string_dec k pre) as [Hin | Hnin];
        destruct (in_dec string_dec k (pre ++ [w])) as [Hin' | Hnin'];
        try reflexivity.
      * exfalso. apply Hnin', in_or_app. left. exact Hin.
      * exfalso. apply in_app_or in Hin'.
        destruct Hin' as [H | [H | []]]; [tauto | congruence].
  - rewrite set_keys.
    assert (Hold : StronglySorted
                     (fun a b =>
                        (firstSeen a (pre ++ [w])
                         < firstSeen b (pre ++ [w]))%nat)
                     (map fst m)).
    { apply (StronglySorted_impl_In _ _ _ (fun a b Ha Hb Hab =>
               eq_ind_r (fun n => (n < _)%nat)
                 (eq_ind_r (fun n => (_ < n)%nat) Hab
                    (firstSeen_app b pre [w] (counted_keys _ _ _ Hc Hb)))
                 (firstSeen_app a pre [w] (counted_keys _ _ _ Hc Ha)))).
      exact Hord. }
    destruct (StrMap.get w m) eqn:Hw; [exact Hold |].
    apply StronglySorted_snoc; [exact Hold |].
    rewrite (Hget w) in Hw.
    destruct (in_dec string_dec w pre) as [| Hnin]; [discriminate |].
    rewrite Forall_forall. intros a Ha.
    pose proof (counted_keys _ _ _ Hc Ha) as Hapre.
    rewrite (firstSeen_app a pre [w] Hapre), (firstSeen_new w pre Hnin).
    now apply firstSeen_lt.
Qed.

Lemma counted_fold (ws pre : list string) (m : StrMap.t) :
  counted pre m -> counted (pre ++ ws) (fold_left countWord ws m).
Proof.
  revert pre m. induction ws as [| w ws IH]; intros pre m Hc; cbn.
  - now rewrite app_nil_r.
  - replace (pre ++ w :: ws) with ((pre ++ [w]) ++ ws)
      by (rewrite <- app_assoc; reflexivity).
    apply IH, counted_step, Hc.
Qed.

(** The comparator [(a, b) => b[1] - a[1]] is positive when [a] has the
    smaller count. *)
Lemma after_count (a b : string * nat) :
  JS.gt (JS.sub (JS.ofNat (snd b)) (JS.ofNat (snd a))) (JS.Fin 0) = true
  <-> (snd a < snd b)%nat.
Proof.
  unfold JS.gt, JS.ofNat. cbn [JS.sub]. rewrite lt_Fin. split.
  - intros H. apply INR_lt. lra.
  - intros H. apply lt_INR in H. lra.
Qed.

(** Ranking: at most ten words, each counted at least twice, in order of
    decreasing frequency and, among equals, of first appearance. *)
Lemma rank_spec (ws : list string) :
  (List.length (rank ws) <= 10)%nat
  /\ Forall (fun w => In w ws /\ (2 <= freq ws w)%nat) (rank ws)
  /\ StronglySorted (ranksBefore ws) (rank ws).
Proof.
  pose proof (counted_fold ws [] [] counted_nil) as Hc. cbn in Hc.
  set (m := fold_left countWord ws []) in *.
  pose proof Hc as [Hget Hord].
  assert (Hnd : NoDup (map fst m)).
  { apply (StronglySorted_NoDup _ _ (fun a => Nat.lt_irrefl (firstSeen a ws))
             Hord). }
  assert (Hentry : forall e, In e m ->
             In (fst e) ws /\ snd e = freq ws (fst e)).
  { intros [k c] Hin. cbn.
    apply (In_get k c m Hnd) in Hin. rewrite (Hget k) in Hin.
    destruct (in_dec string_dec k ws); [| discriminate].
    inversion Hin. auto. }
  unfold rank, StrMap.entries. fold m.
  set (after := fun a b : string * nat => JS.gt _ _).
  set (kept := filter (fun e => (2 <=? snd e)%nat) m).
  assert (Hkept : forall e, In e (firstn 10 (Arr.sort after kept)) ->
             In e m /\ (2 <= snd e)%nat).
  { intros e He. apply firstn_In, sort_In, filter_In in He.
    destruct He as [He H2]. apply Nat.leb_le in H2. auto. }
  split; [| split].
  - rewrite length_map. apply firstn_le_length.
  - rewrite Forall_forall. intros w Hw.
    apply in_map_iff in Hw. destruct Hw as (e & <- & He).
    destruct (Hkept e He) as [Hin H2].
    destruct (Hentry e Hin) as [Hws Hfreq].
    split; [exact Hws | lia].
  - apply StronglySorted_map, StronglySorted_firstn.
    assert (Hsorted :
              StronglySorted
                (fun a b =>
                   (snd b < snd a)%nat
                   \/ (snd a = snd b
                       /\ (firstSeen (fst a) ws < firstSeen (fst b) ws)%nat))
                (Arr.sort after kept)).
    { apply (sort_stable snd
               (fun a b => (firstSeen (fst a) ws < firstSeen (fst b) ws)%nat)
               after after_count).
      apply StronglySorted_filter.
      clear - Hord. induction m as [| e m IH]; [constructor |].
      cbn in Hord. inversion Hord as [| ? ? Hm He]; subst.
      constructor; [auto |].
      rewrite Forall_forall in *. intros b Hb.
      apply He, in_map, Hb. }
    apply (StronglySorted_impl_In _ _ _) with (2 := Hsorted).
    intros a b Ha Hb Hab.
    apply sort_In, filter_In in Ha, Hb.
    destruct (Hentry a (proj1 Ha)) as [_ Hfa].
    destruct (Hentry b (proj1 Hb)) as [_ Hfb].
    unfold ranksBefore. rewrite <- Hfa, <- Hfb. exact Hab.
Qed.

(** ** C9: the key-term extractors *)

Lemma count_loop {Item : Type} (words : Item -> list string)
  (items : list Item) (m : StrMap.t) :
  fold_left (fun m s => fold_left countWord (words s) m) items m
  = fold_left countWord (flat_map words items) m.
Proof.
  revert m. induction items as [| s items IH]; intros m; cbn.
  - reflexivity.
  - rewrite fold_left_app. apply IH.
Qed.

Lemma XScanner_extractKeyTerms_rank (signals : list XScanner.XSignal) :
  XScanner.extractKeyTerms signals = rank (flat_map XScanner.words signals).
Proof.
  unfold XScanner.extractKeyTerms, rank. now rewrite count_loop.
Qed.

Lemma GHScanner_extractKeyTerms_rank (repos : list GHScanner.GHRepo) :
  GHScanner.extractKeyTerms repos = rank (flat_map GHScanner.words repos).
Proof.
  unfold GHScanner.extractKeyTerms, rank. now rewrite count_loop.
Qed.

Lemma XScanner_words_kept (s : XScanner.XSignal) (w : string) :
  In w (XScanner.words s) ->
  (3 < String.length w)%nat /\ Text.has XScanner.stopWords w = false.
Proof.
  unfold XScanner.words. intros H. apply filter_In in H.
  destruct H as [_ H]. apply andb_true_iff in H. destruct H as [H1 H2].
  apply Nat.ltb_lt in H1. apply negb_true_iff in H2. auto.
Qed.

Lemma GHScanner_words_kept (r : GHScanner.GHRepo) (w : string) :
  In w (GHScanner.words r) ->
  (3 < String.length w)%nat /\ Text.has GHScanner.stopWords w = false.
Proof.
  unfold GHScanner.words. intros H. apply filter_In in H.
  destruct H as [_ H]. apply andb_true_iff in H. destruct H as [H1 H2].
  apply Nat.ltb_lt in H1. apply negb_true_iff in H2. auto.
Qed.

(** C9.  Either [extractKeyTerms] returns at most ten words; each is
    longer than three characters, is no stop word of its stream and was
    counted at least twice over the items; the list is in order of
    decreasing frequency, words of equal frequency in the order they
    were first seen; and the same items give the same list. *)
Theorem extractKeyTerms_ranked (signals : list XScanner.XSignal)
  (repos : list GHScanner.GHRepo) :
  let xs := flat_map XScanner.words signals in
  let gs := flat_map GHScanner.words repos in
  ((List.length (XScanner.extractKeyTerms signals) <= 10)%nat
   /\ Forall (fun w => (3 < String.length w)%nat
                       /\ Text.has XScanner.stopWords w = false
                       /\ (2 <= freq xs w)%nat)
        (XScanner.extractKeyTerms signals)
   /\ StronglySorted (ranksBefore xs) (XScanner.extractKeyTerms signals)
   /\ forall signals', signals' = signals ->
        XScanner.extractKeyTerms signals' = XScanner.extractKeyTerms signals)
  /\ ((List.length (GHScanner.extractKeyTerms repos) <= 10)%nat
      /\ Forall (fun w => (3 < String.length w)%nat
                          /\ Text.has GHScanner.stopWords w = false
                          /\ (2 <= freq gs w)%nat)
           (GHScanner.extractKeyTerms repos)
      /\ StronglySorted (ranksBefore gs) (GHScanner.extractKeyTerms repos)
      /\ forall repos', repos' = repos ->
           GHScanner.extractKeyTerms repos' = GHScanner.extractKeyTerms repos).
Proof.
  intros xs gs. split.
  - rewrite XScanner_extractKeyTerms_rank. fold xs.
    destruct (rank_spec xs) as (Hlen & Hall & Hsorted).
    repeat split; try assumption.
    + rewrite Forall_forall in *. intros w Hw.
      destruct (Hall w Hw) as [Hin H2].
      apply in_flat_map in Hin. destruct Hin as (s & _ & Hin).
      destruct (XScanner_words_kept s w Hin). auto.
    + intros signals' ->. apply XScanner_extractKeyTerms_rank.
  - rewrite GHScanner_extractKeyTerms_rank. fold gs.
    destruct (rank_spec gs) as (Hlen & Hall & Hsorted).
    repeat split; try assumption.
    + rewrite Forall_forall in *. intros w Hw.
      destruct (Hall w Hw) as [Hin H2].
      apply in_flat_map in Hin. destruct Hin as (r & _ & Hin).
      destruct (GHScanner_words_kept r w Hin). auto.
    + intros repos' ->. apply GHScanner_extractKeyTerms_rank.
Qed.

Lemma rank_computable (ws : list string) :
  rank ws
  = map fst
      (firstn 10
         (Arr.sort (fun a b => (snd a <? snd b)%nat)
            (filter (fun e => (2 <=? snd e)%nat)
               (fold_left countWord ws [])))).
Proof.
  unfold rank, StrMap.entries. do 2 f_equal.
  generalize (filter (fun e : string * nat => (2 <=? snd e)%nat)
                (fold_left countWord ws [])) as l.
  induction l as [| x l IH]; cbn [Arr.sort fold_right]; [reflexivity |].
  fold (Arr.sort
          (fun a b : string * nat =>
             JS.gt (JS.sub (JS.ofNat (snd b)) (JS.ofNat (snd a))) (JS.Fin 0))
          l).
  fold (Arr.sort (fun a b : string * nat => (snd a <? snd b)%nat) l).
  rewrite IH. generalize (Arr.sort (fun a b => (snd a <? snd b)%nat) l) as s.
  induction s as [| y s IHs]; cbn [Arr.insert]; [reflexivity |].
  rewrite IHs.
  destruct (Nat.ltb_spec (snd x) (snd y)) as [H | H].
  - apply after_count in H. rewrite H. reflexivity.
  - destruct (JS.gt _ _) eqn:E; [| reflexivity].
    apply after_count in E. lia.
Qed.

(** The key terms of the four example signals. *)
Example extractKeyTerms_signals4 :
  XScanner.extractKeyTerms Examples.signals4
  = ["solana"; "bridge"; "privacy"]%string.
Proof.
  rewrite XScanner_extractKeyTerms_rank, rank_computable. reflexivity.
Qed.

Lemma extractKeyTerms_ranked_witness :
  StronglySorted (ranksBefore (flat_map XScanner.words Examples.signals4))
    (XScanner.extractKeyTerms Examples.signals4)
  /\ XScanner.extractKeyTerms Examples.signals4
     = XScanner.extractKeyTerms Examples.signals4.
Proof.
  destruct (extractKeyTerms_ranked Examples.signals4 [Examples.repoKit])
    as ((_ & _ & Hsorted & Hsame) & _).
  split; [exact Hsorted | apply Hsame; reflexivity].
Defined.

(** The key terms of the example repository: the hyphens of its name
    separate words, the name of the ecosystem is a stop word. *)
Example extractKeyTerms_repoKit :
  GHScanner.extractKeyTerms [Examples.repoKit] = ["agent"]%string.
Proof.
  rewrite GHScanner_extractKeyTerms_rank, rank_computable. reflexivity.
Qed.

(** ** C7: the order of the clusters *)

Section Descending.
Context {A : Type} (key : A -> R) (after : A -> A -> bool).

Lemma insert_desc (x : A) (s : list A) :
  (forall y, In y s -> (after x y = true <-> key x < key y)) ->
  StronglySorted (fun a b => key b <= key a) s ->
  StronglySorted (fun a b => key b <= key a) (Arr.insert after x s).
Proof.
  intros Hafter Hs. revert Hafter.
  induction Hs as [| y s Hs IH Hy]; intros Hafter; cbn [Arr.insert].
  - repeat constructor.
  - destruct (after x y) eqn:E.
    + apply (Hafter y (or_introl eq_refl)) in E.
      constructor.
      * apply IH. intros z Hz. apply Hafter. right. exact Hz.
      * rewrite Forall_forall in Hy. rewrite Forall_forall. intros z Hz.
        apply (Permutation_in _ (insert_perm after x s)) in Hz.
        destruct Hz as [<- | Hz]; [lra | apply Hy; exact Hz].
    + assert (Hge : key y <= key x).
      { destruct (Rlt_le_dec (key x) (key y)) as [Hlt | Hge]; [| exact Hge].
        apply (Hafter y (or_introl eq_refl)) in Hlt. congruence. }
      constructor; [constructor; assumption |].
      constructor; [exact Hge |].
      rewrite Forall_forall in *. intros z Hz. specialize (Hy z Hz). lra.
Qed.

Lemma sort_desc (l : list A) :
  (forall a b, In a l -> In b l -> (after a b = true <-> key a < key b)) ->
  StronglySorted (fun a b => key b <= key a) (Arr.sort after l).
Proof.
  induction l as [| x l IH]; intros Hafter; cbn [Arr.sort fold_right].
  - constructor.
  - apply insert_desc.
    + intros y Hy. pose proof (proj1 (sort_In after y l) Hy) as Hy'.
      exact (Hafter x y (or_introl eq_refl) (or_intror Hy')).
    + apply IH. intros a b Ha Hb.
      exact (Hafter a b (or_intror Ha) (or_intror Hb)).
Qed.
End Descending.

Lemma finite_real (a : JS.num) : finite a -> a = JS.Fin (real a).
Proof. destruct a; cbn; [tauto | reflexivity]. Qed.

(** The comparator [(a, b) => scoreB - scoreA] on scores that are numbers. *)
Lemma after_score (sa sb : JS.num) :
  finite sa -> finite sb ->
  JS.gt (JS.sub sb sa) (JS.Fin 0) = true <-> real sa < real sb.
Proof.
  intros Ha Hb. rewrite (finite_real sa Ha), (finite_real sb Hb).
  unfold JS.gt. cbn [JS.sub real]. rewrite lt_Fin. lra.
Qed.

Lemma sorted_by_score {A : Type} (score : A -> JS.num) (l : list A) :
  (forall c, In c l -> finite (score c)) ->
  StronglySorted (fun a b => JS.ge (score a) (score b) = true)
    (Arr.sort (fun a b => JS.gt (JS.sub (score b) (score a)) (JS.Fin 0)) l).
Proof.
  intros Hfin.
  set (after := fun a b => JS.gt (JS.sub (score b) (score a)) (JS.Fin 0)).
  assert (Hs : StronglySorted (fun a b => real (score b) <= real (score a))
                 (Arr.sort after l)).
  { apply sort_desc. intros a b Ha Hb.
    exact (after_score (score a) (score b) (Hfin a Ha) (Hfin b Hb)). }
  apply (StronglySorted_impl_In _ _ _) with (2 := Hs).
  intros a b Ha Hb Hab. apply sort_In in Ha, Hb.
  rewrite (finite_real _ (Hfin a Ha)), (finite_real _ (Hfin b Hb)).
  unfold JS.ge. apply le_Fin. exact Hab.
Qed.

Lemma sum_finite {Item : Type} (metric : Item -> JS.num) (l : list Item)
  (acc : JS.num) :
  finite acc -> Forall (fun s => finite (metric s)) l ->
  finite (fold_left (fun sum s => JS.add sum (metric s)) l acc).
Proof.
  revert acc. induction l as [| s l IH]; intros acc Hacc Hall; cbn.
  - exact Hacc.
  - inversion Hall as [| ? ? Hs Hl]; subst. apply IH; [| exact Hl].
    destruct acc, (metric s); cbn in *; tauto.
Qed.

Lemma ofNat_div_finite (total : JS.num) (n : nat) :
  finite total -> n <> 0%nat -> finite (JS.div total (JS.ofNat n)).
Proof.
  intros Ht Hn. destruct total as [| x]; cbn in *; [tauto |].
  destruct (Req_dec_T (INR n) 0) as [H0 | _]; [| exact I].
  apply (INR_eq n 0) in H0. contradiction.
Qed.

Lemma round_finite (a : JS.num) : finite a -> finite (JS.round a).
Proof. destruct a; cbn; tauto. Qed.

Lemma social_strength_finite (n : nat) (avg : JS.num) :
  finite avg -> finite (JS.add (JS.mul (JS.ofNat n) (JS.Fin 10)) avg).
Proof. destruct avg; cbn; tauto. Qed.

Lemma length_filter_nonzero {Item : Type} (l : list Item) :
  (List.length l =? 0)%nat = false -> List.length l <> 0%nat.
Proof. intros H. now apply Nat.eqb_neq. Qed.

Lemma matching_finite {Item : Type} (P : Item -> Prop) (f : Item -> bool)
  (l : list Item) :
  Forall P l -> Forall P (filter f l).
Proof.
  rewrite !Forall_forall. intros H x Hx. apply filter_In in Hx.
  apply H, Hx.
Qed.

Lemma XScanner_clusters_finite (signals : list XScanner.XSignal) :
  Forall (fun s => finite (XScanner.engagementScore s)) signals ->
  forall c,
    In c (flat_map
            (fun '(topic, patterns) =>
               let matching := XScanner.matchingSignals patterns signals in
               if (List.length matching =? 0)%nat then []
               else [XScanner.clusterOf topic matching])
            XScanner.topicPatterns) ->
    finite (XScanner.strength c).
Proof.
  intros Hall c Hc. apply in_flat_map in Hc.
  destruct Hc as ([topic patterns] & _ & Hc). cbv zeta in Hc.
  destruct (List.length _ =? 0)%nat eqn:Hlen; [contradiction |].
  destruct Hc as [<- | []].
  unfold XScanner.strength, XScanner.clusterOf. cbn.
  apply social_strength_finite, round_finite, ofNat_div_finite.
  - apply sum_finite with (metric := XScanner.engagementScore);
      [exact I | apply matching_finite, Hall].
  - apply length_filter_nonzero, Hlen.
Qed.

Lemma Convert_clusters_finite (signals : list XScanner.XSignal) :
  Forall (fun s => finite (XScanner.engagementScore s)) signals ->
  forall c,
    In c (flat_map
            (fun '(topic, patterns) =>
               let matching := XScanner.matchingSignals patterns signals in
               if (List.length matching =? 0)%nat then []
               else [Convert.clusterOf topic matching])
            Convert.X_TOPIC_PATTERNS) ->
    finite (XScanner.strength c).
Proof.
  intros Hall c Hc. apply in_flat_map in Hc.
  destruct Hc as ([topic patterns] & _ & Hc). cbv zeta in Hc.
  destruct (List.length _ =? 0)%nat eqn:Hlen; [contradiction |].
  destruct Hc as [<- | []].
  unfold XScanner.strength, Convert.clusterOf. cbn.
  apply social_strength_finite, round_finite, ofNat_div_finite.
  - apply sum_finite with (metric := XScanner.engagementScore);
      [exact I | apply matching_finite, Hall].
  - apply length_filter_nonzero, Hlen.
Qed.

Lemma GHScanner_clusters_finite (repos : list GHScanner.GHRepo) :
  Forall (fun r => finite (GHScanner.stars r)) repos ->
  forall c,
    In c (flat_map
            (fun '(topic, patterns) =>
               let matching := GHScanner.matchingRepos patterns repos in
               if (List.length matching =? 0)%nat then []
               else [GHScanner.clusterOf topic matching])
            GHScanner.topicPatterns) ->
    finite (GHScanner.strength c).
Proof.
  intros Hall c Hc. apply in_flat_map in Hc.
  destruct Hc as ([topic patterns] & _ & Hc). cbv zeta in Hc.
  destruct (List.length _ =? 0)%nat eqn:Hlen; [contradiction |].
  destruct Hc as [<- | []].
  unfold GHScanner.strength, GHScanner.clusterOf. cbn.
  assert (Hsum : finite (fold_left
                           (fun sum r => JS.add sum (GHScanner.stars r))
                           (GHScanner.matchingRepos patterns repos)
                           (JS.Fin 0))).
  { apply sum_finite with (metric := GHScanner.stars);
      [exact I | apply matching_finite, Hall]. }
  destruct (fold_left _ _ _); cbn in *; tauto.
Qed.

(** C7, as amended.  When the engagement scores and the star counts are
    numbers, the clusters come out in decreasing order of
    [tweetCount * 10 + avgEngagement] for the social stream (in the
    scanner and in the conversion script), the average engagement and not
    the total, and of [repoCount * 5 + totalStars] for the developer
    stream. *)
Theorem clusters_sorted_by_strength (signals : list XScanner.XSignal)
  (repos : list GHScanner.GHRepo) :
  Forall (fun s => finite (XScanner.engagementScore s)) signals ->
  Forall (fun r => finite (GHScanner.stars r)) repos ->
  StronglySorted
    (fun a b => JS.ge (XScanner.strength a) (XScanner.strength b) = true)
    (XScanner.clusterByTopic signals)
  /\ StronglySorted
       (fun a b => JS.ge (XScanner.strength a) (XScanner.strength b) = true)
       (Convert.clusterTweets signals)
  /\ StronglySorted
       (fun a b =>
          JS.ge (Spec.developerStrength a) (Spec.developerStrength b) = true)
       (GHScanner.clusterReposByTopic repos).
Proof.
  intros Hs Hr. split; [| split].
  - apply (sorted_by_score XScanner.strength).
    apply XScanner_clusters_finite, Hs.
  - apply (sorted_by_score XScanner.strength).
    apply Convert_clusters_finite, Hs.
  - apply (sorted_by_score GHScanner.strength).
    apply GHScanner_clusters_finite, Hr.
Qed.

Lemma clusters_sorted_by_strength_witness :
  StronglySorted
    (fun a b => JS.ge (XScanner.strength a) (XScanner.strength b) = true)
    (XScanner.clusterByTopic Examples.signals4).
Proof.
  apply (clusters_sorted_by_strength Examples.signals4 []).
  - repeat constructor.
  - constructor.
Defined.

Lemma signals4_clusters :
  flat_map
    (fun '(topic, patterns) =>
       let matching := XScanner.matchingSignals patterns Examples.signals4 in
       if (List.length matching =? 0)%nat then []
       else [XScanner.clusterOf topic matching])
    XScanner.topicPatterns
  = [Examples.clusterPrivacy; Examples.clusterBridges].
Proof. reflexivity. Qed.

Lemma clusterPrivacy_strength :
  XScanner.strength Examples.clusterPrivacy = JS.Fin 110
  /\ Spec.socialStrength Examples.clusterPrivacy = JS.Fin 110.
Proof.
  unfold XScanner.strength, Spec.socialStrength, Examples.clusterPrivacy,
    XScanner.clusterOf.
  cbn -[JS.roundR Rplus Rmult Rdiv].
  destruct (Req_dec_T 1 0) as [H | _]; [lra |].
  cbn [JS.round].
  rewrite (roundR_eq ((0 + 100) / 1) 100) by lra.
  rewrite (roundR_eq (0 + 100) 100) by lra.
  split; f_equal; lra.
Qed.

Lemma clusterBridges_strength :
  XScanner.strength Examples.clusterBridges = JS.Fin 60
  /\ Spec.socialStrength Examples.clusterBridges = JS.Fin 120.
Proof.
  unfold XScanner.strength, Spec.socialStrength, Examples.clusterBridges,
    XScanner.clusterOf.
  cbn -[JS.roundR Rplus Rmult Rdiv].
  destruct (Req_dec_T (1 + 1 + 1) 0) as [H | _]; [lra |].
  cbn [JS.round].
  rewrite (roundR_eq ((0 + 30 + 30 + 30) / (1 + 1 + 1)) 30) by lra.
  rewrite (roundR_eq (0 + 30 + 30 + 30) 90) by lra.
  split; f_equal; lra.
Qed.

Lemma signals4_clusterByTopic :
  XScanner.clusterByTopic Examples.signals4
  = [Examples.clusterPrivacy; Examples.clusterBridges].
Proof.
  unfold XScanner.clusterByTopic.
  pose proof signals4_clusters as H. cbv zeta in H |- *. rewrite H.
  cbn [Arr.sort fold_right Arr.insert].
  rewrite (proj1 clusterPrivacy_strength), (proj1 clusterBridges_strength).
  unfold JS.gt. cbn [JS.sub].
  destruct (JS.lt (JS.Fin 0) (JS.Fin (60 - 110))) eqn:E; [| reflexivity].
  apply lt_Fin in E. lra.
Qed.

(** C7 fails as stated for the social stream: one tweet with engagement
    100 is put before three tweets with engagement 30 each, although
    [count * 10 + total] is 110 for the first cluster and 120 for the
    second. *)
Lemma social_clusters_not_sorted_by_total :
  map XScanner.topic (XScanner.clusterByTopic Examples.signals4)
  = ["Privacy & Confidential Computing";
     "Cross-chain & Interoperability"]%string
  /\ map Spec.socialStrength (XScanner.clusterByTopic Examples.signals4)
     = [JS.Fin 110; JS.Fin 120]
  /\ ~ StronglySorted
         (fun a b =>
            JS.ge (Spec.socialStrength a) (Spec.socialStrength b) = true)
         (XScanner.clusterByTopic Examples.signals4).
Proof.
  rewrite signals4_clusterByTopic. split; [reflexivity |]. split.
  - cbn [map]. rewrite (proj2 clusterPrivacy_strength),
      (proj2 clusterBridges_strength). reflexivity.
  - intros Hs. inversion Hs as [| ? ? _ Hall]; subst.
    inversion Hall as [| ? ? Hge _]; subst.
    rewrite (proj2 clusterPrivacy_strength),
      (proj2 clusterBridges_strength) in Hge.
    unfold JS.ge in Hge. apply le_Fin in Hge. lra.
Qed.

(** * Further properties *)

(** ** The order of the narratives *)

Section StableReal.
Context {A : Type} (key : A -> R) (T : A -> A -> Prop).
Context (after : A -> A -> bool).

Lemma insert_sorted_real (x : A) (s : list A) :
  (forall y, In y s -> (after x y = true <-> key x < key y)) ->
  StronglySorted (byScoreThen key T) s -> Forall (T x) s ->
  StronglySorted (byScoreThen key T) (Arr.insert after x s).
Proof.
  intros Hafter Hs. revert Hafter.
  induction Hs as [| y s Hs IH Hy]; intros Hafter Hx; cbn [Arr.insert].
  - repeat constructor.
  - inversion Hx as [| ? ? Hxy Hxs]; subst.
    destruct (after x y) eqn:E.
    + apply (Hafter y (or_introl eq_refl)) in E.
      constructor.
      * apply IH; [| exact Hxs].
        intros z Hz. apply Hafter. right. exact Hz.
      * rewrite Forall_forall in Hy. rewrite Forall_forall. intros z Hz.
        apply (Permutation_in _ (insert_perm after x s)) in Hz.
        destruct Hz as [<- | Hz]; [left; exact E | apply Hy; exact Hz].
    + assert (Hge : key y <= key x).
      { destruct (Rlt_le_dec (key x) (key y)) as [Hlt | Hge]; [| exact Hge].
        apply (Hafter y (or_introl eq_refl)) in Hlt. congruence. }
      constructor; [constructor; assumption |].
      constructor.
      * unfold byScoreThen.
        destruct (Req_dec_T (key x) (key y)); [right; auto | left; lra].
      * rewrite Forall_forall in Hy, Hxs. rewrite Forall_forall.
        intros z Hz. specialize (Hy z Hz). specialize (Hxs z Hz).
        unfold byScoreThen in *.
        destruct (Req_dec_T (key x) (key z)); [right; auto | left].
        destruct Hy as [Hy | [Hy _]]; lra.
Qed.

Lemma sort_stable_real (l : list A) :
  (forall a b, In a l -> In b l -> (after a b = true <-> key a < key b)) ->
  StronglySorted T l ->
  StronglySorted (byScoreThen key T) (Arr.sort after l).
Proof.
  intros Hafter Hl. revert Hafter.
  induction Hl as [| x l Hl IH Hx]; intros Hafter;
    cbn [Arr.sort fold_right]; [constructor |].
  apply insert_sorted_real.
  - intros y Hy. pose proof (proj1 (sort_In after y l) Hy) as Hy'.
    exact (Hafter x y (or_introl eq_refl) (or_intror Hy')).
  - apply IH. intros a b Ha Hb.
    exact (Hafter a b (or_intror Ha) (or_intror Hb)).
  - rewrite Forall_forall in Hx. rewrite Forall_forall. intros y Hy.
    apply Hx. exact (proj1 (sort_In after y l) Hy).
Qed.
End StableReal.

Lemma firstSeen_skip (k : string) (pre l : list string) :
  ~ In k pre ->
  firstSeen k (pre ++ l) = (List.length pre + firstSeen k l)%nat.
Proof.
  induction pre as [| x pre IH]; cbn; [reflexivity |].
  intros Hnin. destruct (String.eqb x k) eqn:E.
  - apply String.eqb_eq in E. tauto.
  - rewrite IH; tauto.
Qed.

Lemma NoDup_disjoint {A : Type} (a b : list A) :
  NoDup (a ++ b) -> forall x, In x a -> In x b -> False.
Proof.
  induction a as [| y a IH]; cbn; [tauto |].
  intros Hnd x [<- | Ha] Hb.
  - inversion Hnd as [| ? ? Hnin _]; subst.
    apply Hnin, in_or_app. right. exact Hb.
  - inversion Hnd; subst. eapply IH; eassumption.
Qed.

Lemma narrativeFor_cases (xResult : XScanner.XScanResult)
  (ghResult : GHScanner.GHScanResult) (entry : string * (string * string)) :
  narrativeFor xResult ghResult entry = []
  \/ exists n, narrativeFor xResult ghResult entry = [n]
               /\ name n = fst entry.
Proof.
  destruct entry as [nm [xn gn]]. unfold narrativeFor.
  destruct (isNone _ && isNone _); [left; reflexivity |].
  destruct (JS.lt _ _); [left; reflexivity |].
  right. eexists. split; reflexivity.
Qed.

(** The records are pushed in the order of the table. *)
Lemma pushed_in_table_order (xResult : XScanner.XScanResult)
  (ghResult : GHScanner.GHScanResult)
  (pre : list string) (tbl : list (string * (string * string))) :
  NoDup (pre ++ map fst tbl) ->
  StronglySorted
    (fun a b =>
       (firstSeen (name a) (pre ++ map fst tbl)
        < firstSeen (name b) (pre ++ map fst tbl))%nat)
    (flat_map (narrativeFor xResult ghResult) tbl)
  /\ forall n, In n (flat_map (narrativeFor xResult ghResult) tbl) ->
               In (name n) (map fst tbl).
Proof.
  revert pre. induction tbl as [| e tbl IH]; intros pre Hnd.
  - split; [constructor | cbn; tauto].
  - change (map fst (e :: tbl)) with (fst e :: map fst tbl) in *.
    change (flat_map (narrativeFor xResult ghResult) (e :: tbl))
      with (narrativeFor xResult ghResult e
            ++ flat_map (narrativeFor xResult ghResult) tbl).
    assert (Hnd' : NoDup ((pre ++ [fst e]) ++ map fst tbl))
      by (rewrite <- app_assoc; exact Hnd).
    destruct (IH (pre ++ [fst e]) Hnd') as [Hs Hin].
    rewrite <- app_assoc in Hs.
    change ([fst e] ++ map fst tbl) with (fst e :: map fst tbl) in Hs.
    pose proof (NoDup_remove_2 _ _ _ Hnd) as Hrem.
    assert (Hpre : ~ In (fst e) pre)
      by (intros H; apply Hrem, in_or_app; left; exact H).
    destruct (narrativeFor_cases xResult ghResult e) as [-> | (n & -> & Hn)].
    + split; [exact Hs | intros n Hn; right; apply Hin, Hn].
    + split.
      * constructor; [exact Hs |].
        rewrite Forall_forall. intros m Hm. pose proof (Hin m Hm) as Hmt.
        assert (Hne : fst e <> name m).
        { intros Heq. apply Hrem, in_or_app. right. rewrite Heq. exact Hmt. }
        assert (Hmpre : ~ In (name m) pre).
        { intros H. apply (NoDup_disjoint _ _ Hnd' (name m));
            [apply in_or_app; left; exact H | exact Hmt]. }
        rewrite Hn, (firstSeen_skip (fst e) pre) by exact Hpre.
        rewrite (firstSeen_skip (name m) pre) by exact Hmpre.
        cbn [firstSeen]. rewrite String.eqb_refl.
        destruct (String.eqb (fst e) (name m)) eqn:E;
          [apply String.eqb_eq in E; contradiction | lia].
      * intros m [<- | Hm]; [left; symmetry; exact Hn |].
        right. apply Hin, Hm.
Qed.

(** Every record of the result was pushed for an entry of the table. *)
Lemma aggregateSignals_In (xResult : XScanner.XScanResult)
  (ghResult : GHScanner.GHScanResult) (n : DetectedNarrative) :
  In n (flat_map (narrativeFor xResult ghResult) TOPIC_ALIGNMENT) ->
  exists nm xn gn,
    In (nm, (xn, gn)) TOPIC_ALIGNMENT
    /\ (xClusterFor xResult xn <> None \/ ghClusterFor ghResult gn <> None)
    /\ name n = nm
    /\ social n = socialOf (xClusterFor xResult xn)
    /\ developer n = developerOf (ghClusterFor ghResult gn)
    /\ signalScore n = computeSignalScore (social n) (developer n)
    /\ stage n = determineStage (social n) (developer n)
    /\ confidence n = computeConfidence (social n) (developer n)
    /\ JS.lt (signalScore n) (JS.Fin 15) = false.
Proof.
  intros Hin. apply in_flat_map in Hin.
  destruct Hin as ([nm [xn gn]] & Hentry & Hin).
  apply narrativeFor_In in Hin. destruct Hin as (Hsome & Hlt & ->).
  exists nm, xn, gn. cbn. repeat split; auto.
Qed.

Lemma pushed_score_finite (xResult : XScanner.XScanResult)
  (ghResult : GHScanner.GHScanResult) (n : DetectedNarrative) :
  Forall xClusterFinite (XScanner.topicClusters xResult) ->
  Forall ghClusterFinite (GHScanner.topicClusters ghResult) ->
  In n (flat_map (narrativeFor xResult ghResult) TOPIC_ALIGNMENT) ->
  finite (signalScore n).
Proof.
  intros Hx Hg Hin.
  destruct (aggregateSignals_In _ _ _ Hin)
    as (nm & xn & gn & _ & _ & _ & Hs & Hd & Hscore & _).
  rewrite Hscore, Hs, Hd.
  destruct (socialOf_finite (xClusterFor xResult xn))
    as (t & e & u & Ht & He & Hu); [apply found_finite, Hx |].
  destruct (developerOf_finite (ghClusterFor ghResult gn))
    as (r & ts & av & Hr & Hts & Hav); [apply found_finite, Hg |].
  rewrite (computeSignalScore_Fin _ _ t e u r ts av) by assumption.
  exact I.
Qed.

(** X1.  When the counts of the clusters are numbers, the narratives come
    out in order of decreasing score, and narratives of equal score in
    the order of the alignment table. *)
Theorem narratives_ranked (xResult : XScanner.XScanResult)
  (ghResult : GHScanner.GHScanResult) :
  Forall xClusterFinite (XScanner.topicClusters xResult) ->
  Forall ghClusterFinite (GHScanner.topicClusters ghResult) ->
  StronglySorted
    (fun a b => JS.ge (signalScore a) (signalScore b) = true)
    (aggregateSignals xResult ghResult)
  /\ StronglySorted
       (byScoreThen (fun n => real (signalScore n))
          (fun a b => (tableIndex (name a) < tableIndex (name b))%nat))
       (aggregateSignals xResult ghResult).
Proof.
  intros Hx Hg. split.
  - apply (sorted_by_score signalScore).
    intros n Hn. exact (pushed_score_finite _ _ n Hx Hg Hn).
  - unfold aggregateSignals. cbv zeta. apply sort_stable_real.
    + intros a b Ha Hb. apply after_score;
        eapply pushed_score_finite; eassumption.
    + apply (pushed_in_table_order xResult ghResult [] TOPIC_ALIGNMENT).
      exact table_names_unique.
Qed.

(** One turn of the loop for an entry whose social cluster alone is
    found, with a score that is known. *)
Lemma narrativeFor_social_only (xResult : XScanner.XScanResult)
  (ghResult : GHScanner.GHScanResult) (nm xn gn : string)
  (c : XScanner.TopicCluster) (s : R) :
  xClusterFor xResult xn = Some c -> ghClusterFor ghResult gn = None ->
  computeSignalScore (socialOf (Some c)) (developerOf None) = JS.Fin s ->
  15 <= s ->
  narrativeFor xResult ghResult (nm, (xn, gn))
  = [ {| name := nm;
         confidence := computeConfidence (socialOf (Some c)) (developerOf None);
         stage := determineStage (socialOf (Some c)) (developerOf None);
         signalScore := JS.Fin s;
         social := socialOf (Some c);
         developer := developerOf None |} ].
Proof.
  intros Hx Hg Hscore Hs. unfold narrativeFor. rewrite Hx, Hg, Hscore.
  cbn [isNone andb].
  destruct (JS.lt (JS.Fin s) (JS.Fin 15)) eqn:E; [| reflexivity].
  apply lt_Fin in E. lra.
Qed.

Lemma narrativeFor_absent (xResult : XScanner.XScanResult)
  (ghResult : GHScanner.GHScanResult) (nm xn gn : string) :
  xClusterFor xResult xn = None -> ghClusterFor ghResult gn = None ->
  narrativeFor xResult ghResult (nm, (xn, gn)) = [].
Proof.
  intros Hx Hg. unfold narrativeFor. rewrite Hx, Hg. reflexivity.
Qed.

Lemma score_at (topic : string) (t e u : R) (s : Z) :
  0 < t -> IZR s - / 2 <= Exact.socialScore t e u < IZR s + / 2 ->
  IZR s <= 100 ->
  computeSignalScore (socialOf (Some (Samples.xClusterAt topic t e u)))
    (developerOf None) = JS.Fin (IZR s).
Proof.
  intros Ht Hs Hle.
  rewrite (score_developer_absent _ t e u) by reflexivity.
  rewrite (roundR_eq _ s) by lra.
  rewrite Rmin_left by lra. reflexivity.
Qed.

Lemma four_scores :
  computeSignalScore
    (socialOf (Some (Samples.xClusterAt "Privacy & Confidential Computing"
                       6 24 5))) (developerOf None) = JS.Fin 20
  /\ computeSignalScore
       (socialOf (Some (Samples.xClusterAt "AI Agent Infrastructure"
                          12 600 9))) (developerOf None) = JS.Fin 30
  /\ computeSignalScore
       (socialOf (Some (Samples.xClusterAt "DePIN & Physical Infrastructure"
                          6 90 5))) (developerOf None) = JS.Fin 21
  /\ computeSignalScore
       (socialOf (Some (Samples.xClusterAt "Cross-chain & Interoperability"
                          6 24 5))) (developerOf None) = JS.Fin 20.
Proof.
  assert (H6 : Exact.diversityBonus 6 5 = 25 / 6).
  { unfold Exact.diversityBonus. destruct (Rlt_dec 0 6); [| lra].
    rewrite Rmin_left by lra. lra. }
  assert (H12 : Exact.diversityBonus 12 9 = 5).
  { unfold Exact.diversityBonus. destruct (Rlt_dec 0 12); [| lra].
    rewrite Rmin_right by lra. reflexivity. }
  assert (Hlow : Exact.socialScore 6 24 5 = 15 + 0.4 + 25 / 6).
  { unfold Exact.socialScore, Exact.socialVolume, Exact.socialEngagement.
    rewrite H6, (Rmin_left (6 * 2.5)), (Rmin_left (24 / 60)) by lra. lra. }
  assert (Hmid : Exact.socialScore 6 90 5 = 15 + 1.5 + 25 / 6).
  { unfold Exact.socialScore, Exact.socialVolume, Exact.socialEngagement.
    rewrite H6, (Rmin_left (6 * 2.5)), (Rmin_left (90 / 60)) by lra. lra. }
  assert (Hhigh : Exact.socialScore 12 600 9 = 30).
  { unfold Exact.socialScore, Exact.socialVolume, Exact.socialEngagement.
    rewrite H12, (Rmin_right (12 * 2.5)), (Rmin_left (600 / 60)) by lra.
    lra. }
  repeat split.
  - apply (score_at _ 6 24 5 20); rewrite ?Hlow; lra.
  - apply (score_at _ 12 600 9 30); rewrite ?Hhigh; lra.
  - apply (score_at _ 6 90 5 21); rewrite ?Hmid; lra.
  - apply (score_at _ 6 24 5 20); rewrite ?Hlow; lra.
Qed.

Lemma four_pushed :
  map (fun n => (name n, signalScore n))
    (flat_map (narrativeFor Samples.xResultFour Examples.ghResultEmpty)
       TOPIC_ALIGNMENT)
  = [ ("Privacy Infrastructure", JS.Fin 20); ("AI Agent Economy", JS.Fin 30);
      ("DePIN Growth", JS.Fin 21); ("Cross-chain", JS.Fin 20) ]%string.
Proof.
  destruct four_scores as (Hp & Ha & Hd & Hc).
  unfold TOPIC_ALIGNMENT. cbn [flat_map].
  rewrite (narrativeFor_social_only Samples.xResultFour
             Examples.ghResultEmpty "Privacy Infrastructure"
             "Privacy & Confidential Computing"
             "Privacy & Confidential Computing" _ 20 eq_refl eq_refl Hp)
    by lra.
  rewrite (narrativeFor_social_only Samples.xResultFour
             Examples.ghResultEmpty "AI Agent Economy"
             "AI Agent Infrastructure" "AI Agent Infrastructure" _ 30
             eq_refl eq_refl Ha) by lra.
  rewrite (narrativeFor_absent Samples.xResultFour Examples.ghResultEmpty
             "Agent Commerce" "Agent Commerce & Payments"
             "Payments & Commerce" eq_refl eq_refl).
  rewrite (narrativeFor_social_only Samples.xResultFour
             Examples.ghResultEmpty "DePIN Growth"
             "DePIN & Physical Infrastructure" "DePIN" _ 21
             eq_refl eq_refl Hd) by lra.
  rewrite (narrativeFor_absent Samples.xResultFour Examples.ghResultEmpty
             "Dev Tooling for Solana" "Dev Tooling & AI-Assisted Building"
             "Dev Tooling" eq_refl eq_refl).
  rewrite (narrativeFor_absent Samples.xResultFour Examples.ghResultEmpty
             "Restaking & LSTs" "Restaking & Liquid Staking"
             "DeFi & Financial" eq_refl eq_refl).
  rewrite (narrativeFor_social_only Samples.xResultFour
             Examples.ghResultEmpty "Cross-chain"
             "Cross-chain & Interoperability" "" _ 20 eq_refl eq_refl Hc)
    by lra.
  reflexivity.
Qed.

Lemma four_ranked :
  map (fun n => (name n, signalScore n))
    (aggregateSignals Samples.xResultFour Examples.ghResultEmpty)
  = [ ("AI Agent Economy", JS.Fin 30); ("DePIN Growth", JS.Fin 21);
      ("Privacy Infrastructure", JS.Fin 20); ("Cross-chain", JS.Fin 20) ]%string.
Proof.
  unfold aggregateSignals. cbv zeta.
  rewrite <- (sort_map (fun n => (name n, signalScore n))
                (fun a b => JS.gt (JS.sub (signalScore b) (signalScore a))
                              (JS.Fin 0))
                (fun a b => JS.gt (JS.sub (snd b) (snd a)) (JS.Fin 0))).
  - rewrite four_pushed. cbn [Arr.sort fold_right Arr.insert snd JS.sub].
    unfold JS.gt.
    repeat (cbn [Arr.insert snd JS.sub];
            match goal with
            | |- context [JS.lt (JS.Fin ?a) (JS.Fin ?b)] =>
                let E := fresh "E" in
                destruct (JS.lt (JS.Fin a) (JS.Fin b)) eqn:E;
                [apply lt_Fin in E; try lra
                | apply not_true_iff_false in E; rewrite lt_Fin in E;
                  try lra]
            end).
    reflexivity.
  - intros a b. reflexivity.
Qed.

Lemma narratives_ranked_witness :
  map (fun n => (name n, signalScore n))
    (aggregateSignals Samples.xResultFour Examples.ghResultEmpty)
  = [ ("AI Agent Economy", JS.Fin 30); ("DePIN Growth", JS.Fin 21);
      ("Privacy Infrastructure", JS.Fin 20);
      ("Cross-chain", JS.Fin 20) ]%string
  /\ (tableIndex "Privacy Infrastructure" < tableIndex "Cross-chain")%nat
  /\ StronglySorted
       (fun a b => JS.ge (signalScore a) (signalScore b) = true)
       (aggregateSignals Samples.xResultFour Examples.ghResultEmpty)
  /\ StronglySorted
       (byScoreThen (fun n => real (signalScore n))
          (fun a b => (tableIndex (name a) < tableIndex (name b))%nat))
       (aggregateSignals Samples.xResultFour Examples.ghResultEmpty).
Proof.
  split; [exact four_ranked |]. split; [cbn; lia |].
  apply (narratives_ranked Samples.xResultFour Examples.ghResultEmpty).
  - repeat constructor.
  - constructor.
Defined.

(** X2.  The result holds at most one narrative per entry of the alignment
    table: the names are distinct names of the table, at most seven. *)
Theorem narratives_distinct (xResult : XScanner.XScanResult)
  (ghResult : GHScanner.GHScanResult) :
  NoDup (map name (aggregateSignals xResult ghResult))
  /\ Forall (fun n => In (name n) (map fst TOPIC_ALIGNMENT))
       (aggregateSignals xResult ghResult)
  /\ (List.length (aggregateSignals xResult ghResult) <= 7)%nat.
Proof.
  destruct (pushed_in_table_order xResult ghResult [] TOPIC_ALIGNMENT
              table_names_unique) as [Hs Hin].
  set (pushed := flat_map (narrativeFor xResult ghResult) TOPIC_ALIGNMENT)
    in *.
  assert (Hperm : Permutation (aggregateSignals xResult ghResult) pushed)
    by apply sort_perm.
  split; [| split].
  - apply (Permutation_NoDup (l := map name pushed)).
    + apply Permutation_map. symmetry. exact Hperm.
    + apply (StronglySorted_NoDup
               (fun a b => (tableIndex a < tableIndex b)%nat)).
      * intros a. apply Nat.lt_irrefl.
      * apply StronglySorted_map. exact Hs.
  - rewrite Forall_forall. intros n Hn.
    apply Hin. apply (Permutation_in _ Hperm). exact Hn.
  - rewrite (Permutation_length Hperm). unfold pushed.
    assert (Hlen : forall tbl,
               (List.length (flat_map (narrativeFor xResult ghResult) tbl)
                <= List.length tbl)%nat).
    { induction tbl as [| e tbl IH]; cbn; [lia |].
      rewrite length_app.
      destruct (narrativeFor_cases xResult ghResult e)
        as [-> | (n & -> & _)]; cbn; lia. }
    apply (Hlen TOPIC_ALIGNMENT).
Qed.

(** ** Ranges of the emitted records *)

Lemma Exact_score_range (t e u r ts av : R) :
  0 <= t -> 0 <= e -> 0 <= u -> 0 <= r -> 0 <= ts ->
  exists z : Z,
    Exact.score t e u r ts av = IZR z /\ (0 <= z <= 100)%Z
    /\ (1 <= t -> 1 <= r -> (15 <= z)%Z)
    /\ (r = 0 -> ts = 0 -> (z <= 40)%Z)
    /\ (t = 0 -> e = 0 -> (z <= 40)%Z).
Proof.
  intros Ht He Hu Hr Hts.
  pose proof (socialScore_range t e u Ht He Hu) as Hss.
  pose proof (devScore_range r ts av Hr Hts) as Hds.
  destruct (crossSourceBonus_range t r (Exact.socialScore t e u)
              (Exact.devScore r ts av)) as (k & Hk & Hk20 & Hk10); try lra.
  unfold Exact.score. cbv zeta. rewrite Hk.
  set (x := Exact.socialScore t e u + Exact.devScore r ts av + IZR k).
  assert (HkR : 0 <= IZR k <= 20) by (split; apply IZR_le; lia).
  assert (Hx : 0 <= x <= 100) by (unfold x; lra).
  assert (Hlo : (0 <= JS.roundR x)%Z) by (apply roundR_ge; simpl; lra).
  assert (Hhi : (JS.roundR x <= 100)%Z) by (apply roundR_le_int; lra).
  exists (JS.roundR x). split; [| split; [lia | split; [| split]]].
  - apply Rmin_left, IZR_le, Hhi.
  - intros Ht1 Hr1.
    assert (Hk10' : (10 <= k)%Z) by (apply Hk10; lra).
    assert (10 <= IZR k) by (apply IZR_le; exact Hk10').
    assert (Hsv : 2.5 <= Exact.socialScore t e u).
    { unfold Exact.socialScore, Exact.socialVolume,
        Exact.socialEngagement, Exact.diversityBonus.
      assert (2.5 <= Rmin (t * 2.5) 15) by (apply Rmin_glb; lra).
      assert (0 <= Rmin (e / 60) 20) by (apply Rmin_glb; lra).
      assert (0 <= (if Rlt_dec 0 t then u / t else 0) * u).
      { destruct (Rlt_dec 0 t);
          [apply Rmult_le_pos; [apply Rle_mult_inv_pos |]; lra | lra]. }
      assert (0 <= Rmin ((if Rlt_dec 0 t then u / t else 0) * u) 5)
        by (apply Rmin_glb; lra).
      lra. }
    assert (Hdv : 2 <= Exact.devScore r ts av).
    { unfold Exact.devScore.
      pose proof (devDiversity_range r av).
      assert (2 <= Rmin (r * 2) 15) by (apply Rmin_glb; lra).
      assert (0 <= Rmin (ts / 10) 20) by (apply Rmin_glb; lra).
      lra. }
    destruct (roundR_bounds x) as [_ Hb].
    assert (H14 : IZR 14 < IZR (JS.roundR x)) by (unfold x in *; lra).
    apply lt_IZR in H14. lia.
  - intros -> ->. apply roundR_le_int. unfold x.
    assert (Hk0 : Exact.crossSourceBonus t 0 (Exact.socialScore t e u)
                    (Exact.devScore 0 0 av) = 0).
    { unfold Exact.crossSourceBonus.
      destruct (Rlt_dec 0 t); destruct (Rlt_dec 0 0); lra. }
    rewrite Hk0 in Hk.
    assert (Hd0 : Exact.devScore 0 0 av = 0).
    { unfold Exact.devScore, Exact.devDiversity.
      destruct (Rlt_dec 0 0); [lra |].
      rewrite !Rmin_left by lra. lra. }
    rewrite Hd0, <- Hk. lra.
  - intros -> ->. apply roundR_le_int. unfold x.
    assert (Hk0 : Exact.crossSourceBonus 0 r (Exact.socialScore 0 0 u)
                    (Exact.devScore r ts av) = 0).
    { unfold Exact.crossSourceBonus. destruct (Rlt_dec 0 0); lra. }
    rewrite Hk0 in Hk.
    assert (Hs0 : Exact.socialScore 0 0 u = 0).
    { unfold Exact.socialScore, Exact.socialVolume,
        Exact.socialEngagement, Exact.diversityBonus.
      destruct (Rlt_dec 0 0); [lra |].
      rewrite !Rmin_left by lra. lra. }
    rewrite Hs0, <- Hk. lra.
Qed.

Lemma socialOf_nonneg (c : option XScanner.TopicCluster) :
  match c with Some c => xClusterNonneg c | None => True end ->
  socialOk (socialOf c).
Proof.
  destruct c as [c |]; unfold socialOk; cbn.
  - intros (Ht & He & Hu). repeat split; try assumption.
    destruct (XScanner.uniqueAuthors c); [exact Hu | cbn; lra].
  - intros _. repeat split; lra.
Qed.

Lemma developerOf_nonneg (c : option GHScanner.GHTopicCluster) :
  match c with Some c => ghClusterNonneg c | None => True end ->
  developerOk (developerOf c).
Proof.
  destruct c as [c |]; unfold developerOk; cbn.
  - tauto.
  - intros _. repeat split; lra.
Qed.

Lemma score_of_snapshots (social : Social.t) (developer : Developer.t) :
  socialOk social -> developerOk developer ->
  exists t e u r ts av : R,
    Social.tweetCount social = JS.Fin t
    /\ Social.avgEngagement social = JS.Fin e
    /\ Developer.repoCount developer = JS.Fin r
    /\ Developer.totalStars developer = JS.Fin ts
    /\ 0 <= t /\ 0 <= e /\ 0 <= u /\ 0 <= r /\ 0 <= ts
    /\ computeSignalScore social developer
       = JS.Fin (Exact.score t e u r ts av).
Proof.
  intros Hs Hd. snapshot_reals Hs Hd.
  exists t, e, u, r, ts, av. repeat split; try assumption.
  apply computeSignalScore_Fin; assumption.
Qed.

(** X3.  Every narrative of the result carries the score, the stage and
    the confidence of its own snapshots, and a confidence between 0.25 and
    0.95; when the counts of the clusters are non-negative numbers its
    score is an integer between 15 and 100. *)
Theorem narratives_consistent (xResult : XScanner.XScanResult)
  (ghResult : GHScanner.GHScanResult) :
  Forall
    (fun n =>
       signalScore n = computeSignalScore (social n) (developer n)
       /\ stage n = determineStage (social n) (developer n)
       /\ confidence n = computeConfidence (social n) (developer n)
       /\ exists c, confidence n = JS.Fin c /\ 0.25 <= c <= 0.95)
    (aggregateSignals xResult ghResult)
  /\ (Forall xClusterNonneg (XScanner.topicClusters xResult) ->
      Forall ghClusterNonneg (GHScanner.topicClusters ghResult) ->
      Forall (fun n => integerIn 15 100 (signalScore n))
        (aggregateSignals xResult ghResult)).
Proof.
  split.
  - rewrite Forall_forall. intros n Hn.
    apply (proj1 (sort_In _ n _)) in Hn.
    destruct (aggregateSignals_In _ _ _ Hn)
      as (nm & xn & gn & _ & _ & _ & _ & _ & Hscore & Hstage & Hconf & _).
    repeat split; try assumption.
    exists (Spec.confidence (social n) (developer n)).
    rewrite Hconf, computeConfidence_Fin. split; [reflexivity |].
    unfold Spec.confidence.
    destruct (bonusSum_hundredths (social n) (developer n))
      as (a & Ha & Ha25).
    assert (25 <= IZR a) by (apply IZR_le; exact Ha25).
    rewrite Ha. split; [apply Rmin_glb; lra | apply Rmin_r].
  - intros Hx Hg. rewrite Forall_forall. intros n Hn.
    apply (proj1 (sort_In _ n _)) in Hn.
    destruct (aggregateSignals_In _ _ _ Hn)
      as (nm & xn & gn & _ & _ & _ & Hs & Hd & Hscore & _ & _ & Hlt).
    destruct (score_of_snapshots (social n) (developer n))
      as (t & e & u & r & ts & av & _ & _ & _ & _
          & Ht & He & Hu & Hr & Hts & Hval).
    { rewrite Hs. apply socialOf_nonneg, found_finite, Hx. }
    { rewrite Hd. apply developerOf_nonneg, found_finite, Hg. }
    destruct (Exact_score_range t e u r ts av Ht He Hu Hr Hts)
      as (z & Hz & Hz100 & _).
    rewrite Hscore, Hval, Hz in Hlt |- *.
    exists z. split; [reflexivity |].
    assert (H15 : ~ IZR z < 15).
    { intros H. apply lt_Fin in H. congruence. }
    assert (IZR 15 <= IZR z) by lra.
    apply le_IZR in H. lia.
Qed.

Lemma narratives_consistent_witness :
  Forall (fun n => integerIn 15 100 (signalScore n))
    (aggregateSignals (Examples.xResultOf [Examples.xCluster6])
       Examples.ghResultEmpty).
Proof.
  apply (narratives_consistent (Examples.xResultOf [Examples.xCluster6])
           Examples.ghResultEmpty).
  - repeat constructor; cbn; lra.
  - constructor.
Defined.

(** X4.  A narrative whose two clusters are both found, with at least one
    tweet and one repository and non-negative counts, is always emitted:
    its score is at least 15. *)
Theorem cross_confirmed_emitted (xResult : XScanner.XScanResult)
  (ghResult : GHScanner.GHScanResult)
  (narrativeName xClusterName ghClusterName : string)
  (xCluster : XScanner.TopicCluster) (ghCluster : GHScanner.GHTopicCluster) :
  In (narrativeName, (xClusterName, ghClusterName)) TOPIC_ALIGNMENT ->
  xClusterFor xResult xClusterName = Some xCluster ->
  ghClusterFor ghResult ghClusterName = Some ghCluster ->
  xClusterNonneg xCluster -> ghClusterNonneg ghCluster ->
  JS.ge (XScanner.tweetCount xCluster) (JS.Fin 1) = true ->
  JS.ge (GHScanner.repoCount ghCluster) (JS.Fin 1) = true ->
  emitted (aggregateSignals xResult ghResult) narrativeName
  /\ JS.ge (computeSignalScore (socialOf (Some xCluster))
              (developerOf (Some ghCluster))) (JS.Fin 15) = true.
Proof.
  intros Hentry Hxc Hgc Hxn Hgn Ht1 Hr1.
  destruct (score_of_snapshots (socialOf (Some xCluster))
              (developerOf (Some ghCluster)))
    as (t & e & u & r & ts & av & Ht & _ & Hr & _
        & Ht0 & He0 & Hu0 & Hr0 & Hts0 & Hval).
  { apply socialOf_nonneg, Hxn. }
  { apply developerOf_nonneg, Hgn. }
  cbn in Ht, Hr. rewrite Ht in Ht1. rewrite Hr in Hr1.
  unfold JS.ge in Ht1, Hr1. apply le_Fin in Ht1, Hr1.
  destruct (Exact_score_range t e u r ts av Ht0 He0 Hu0 Hr0 Hts0)
    as (z & Hz & _ & H15 & _).
  specialize (H15 Ht1 Hr1).
  assert (Hge : JS.ge (computeSignalScore (socialOf (Some xCluster))
                         (developerOf (Some ghCluster))) (JS.Fin 15) = true).
  { rewrite Hval, Hz. unfold JS.ge. apply le_Fin.
    apply (IZR_le 15). exact H15. }
  split; [| exact Hge].
  apply (emitted_iff_pushed xResult ghResult _ _ _ Hentry).
  rewrite Hxc, Hgc. split; [left; discriminate |].
  rewrite Hval in Hge |- *. apply not_lt_ge. exact Hge.
Qed.

Lemma cross_confirmed_emitted_witness :
  emitted
    (aggregateSignals (Examples.xResultOf [Samples.xClusterOne])
       (Samples.ghResultOf [Samples.ghClusterOne]))
    "Privacy Infrastructure".
Proof.
  apply (cross_confirmed_emitted
           (Examples.xResultOf [Samples.xClusterOne])
           (Samples.ghResultOf [Samples.ghClusterOne])
           "Privacy Infrastructure"
           "Privacy & Confidential Computing"
           "Privacy & Confidential Computing"
           Samples.xClusterOne Samples.ghClusterOne).
  - left. reflexivity.
  - reflexivity.
  - reflexivity.
  - repeat split; cbn; lra.
  - repeat split; cbn; lra.
  - cbn. js_decide.
  - cbn. js_decide.
Defined.

Lemma bonus_bounds (c : bool) (x : R) : 0 <= x -> 0 <= Spec.bonus c x <= x.
Proof. destruct c; cbn; lra. Qed.

Lemma bonus_false (x : R) : Spec.bonus false x = 0.
Proof. reflexivity. Qed.

Lemma ge_zero_false (x : R) : 0 < x -> JS.ge (JS.Fin 0) (JS.Fin x) = false.
Proof. intros H. js_decide. Qed.

Lemma gt_zero_false : JS.gt (JS.Fin 0) (JS.Fin 0) = false.
Proof. js_decide. Qed.

Ltac bound_bonuses :=
  repeat match goal with
  | |- context [Spec.bonus ?c ?x] =>
      let H := fresh "Hb" in
      assert (H : 0 <= Spec.bonus c x <= x) by (apply bonus_bounds; lra);
      generalize dependent (Spec.bonus c x); intros
  end.

Lemma confidence_social_only (social : Social.t) :
  Spec.confidence social (developerOf None) <= 0.68.
Proof.
  unfold Spec.confidence, Spec.bonusSum. cbn [developerOf Developer.repoCount Developer.totalStars].
  rewrite !ge_zero_false by lra. rewrite gt_zero_false, andb_false_r.
  rewrite !bonus_false.
  eapply Rle_trans; [apply Rmin_l |].
  bound_bonuses. lra.
Qed.

Lemma confidence_developer_only (developer : Developer.t) :
  Spec.confidence (socialOf None) developer <= 0.45.
Proof.
  unfold Spec.confidence, Spec.bonusSum. cbn [socialOf Social.tweetCount Social.avgEngagement Social.uniqueAuthors].
  rewrite !ge_zero_false by lra. rewrite gt_zero_false, andb_false_l.
  rewrite !bonus_false.
  eapply Rle_trans; [apply Rmin_l |].
  bound_bonuses. lra.
Qed.

(** X5.  A narrative seen in one stream only, the other cluster absent,
    scores at most 40; its confidence is at most 0.68, and at most 0.45
    when it is the social cluster that is absent. *)
Theorem single_source_capped (social : Social.t) (developer : Developer.t) :
  socialOk social -> developerOk developer ->
  social = socialOf None \/ developer = developerOf None ->
  exists (z : Z) (c : R),
    computeSignalScore social developer = JS.Fin (IZR z)
    /\ (0 <= z <= 40)%Z
    /\ computeConfidence social developer = JS.Fin c
    /\ c <= 0.68
    /\ (social = socialOf None -> c <= 0.45).
Proof.
  intros Hs Hd Hone.
  destruct (score_of_snapshots social developer Hs Hd)
    as (t & e & u & r & ts & av & Ht & He & Hr & Hts
        & Ht0 & He0 & Hu0 & Hr0 & Hts0 & Hval).
  destruct (Exact_score_range t e u r ts av Ht0 He0 Hu0 Hr0 Hts0)
    as (z & Hz & Hz100 & _ & Hdev & Hsoc).
  exists z, (Spec.confidence social developer).
  split; [rewrite Hval, Hz; reflexivity |].
  split.
  { split; [lia |]. destruct Hone as [-> | ->]; cbn in *.
    - apply Hsoc; congruence.
    - apply Hdev; congruence. }
  split; [apply computeConfidence_Fin |].
  split.
  - destruct Hone as [-> | ->].
    + pose proof (confidence_developer_only developer). lra.
    + apply confidence_social_only.
  - intros ->. apply confidence_developer_only.
Qed.

Lemma single_source_capped_witness :
  exists (z : Z) (c : R),
    computeSignalScore Examples.socialSix (developerOf None) = JS.Fin (IZR z)
    /\ (0 <= z <= 40)%Z
    /\ computeConfidence Examples.socialSix (developerOf None) = JS.Fin c
    /\ c <= 0.68
    /\ (Examples.socialSix = socialOf None -> c <= 0.45).
Proof.
  apply (single_source_capped Examples.socialSix (developerOf None)).
  - repeat split; cbn; lra.
  - repeat split; cbn; lra.
  - right. reflexivity.
Defined.

(** ** The snapshots of the emitted records *)

Lemma slice0_length (n : nat) (s : string) :
  String.length (Text.slice0 n s) = Nat.min n (String.length s).
Proof.
  unfold Text.slice0. revert s.
  induction n as [| n IH]; intros [| c s]; cbn; auto.
Qed.

Lemma slice0_prefix (n : nat) (s : string) :
  String.prefix (Text.slice0 n s) s = true.
Proof.
  unfold Text.slice0. revert s.
  induction n as [| n IH]; intros [| c s]; cbn; auto.
  rewrite IH. destruct (ascii_dec c c); congruence.
Qed.

Lemma firstn_length_le3 {A : Type} (l : list A) :
  (List.length (firstn 3 l) <= 3)%nat.
Proof. rewrite length_firstn. lia. Qed.

(** X6.  The snapshots of a narrative hold at most three tweets and three
    repositories; each tweet text and repository description is the start
    of a text of the cluster, of at most 200 characters, and each tweet
    links to its status page. *)
Theorem snapshots_bounded (xResult : XScanner.XScanResult)
  (ghResult : GHScanner.GHScanResult) :
  Forall
    (fun n =>
       (List.length (Social.topTweets (social n)) <= 3)%nat
       /\ Forall
            (fun t =>
               (String.length (Social.text t) <= 200)%nat
               /\ (exists c s,
                      In c (XScanner.topicClusters xResult)
                      /\ In s (XScanner.topTweets c)
                      /\ String.prefix (Social.text t) (XScanner.text s)
                         = true
                      /\ Social.url t
                         = String.append "https://x.com/i/status/"
                             (XScanner.tweetId s)))
            (Social.topTweets (social n))
       /\ (List.length (Developer.topRepos (developer n)) <= 3)%nat
       /\ Forall
            (fun r =>
               (String.length (Developer.description r) <= 200)%nat
               /\ (exists c g,
                      In c (GHScanner.topicClusters ghResult)
                      /\ In g (GHScanner.topRepos c)
                      /\ String.prefix (Developer.description r)
                           (GHScanner.description g) = true
                      /\ Developer.name r = GHScanner.fullName g))
            (Developer.topRepos (developer n)))
    (aggregateSignals xResult ghResult).
Proof.
  rewrite Forall_forall. intros n Hn.
  apply (proj1 (sort_In _ n _)) in Hn.
  destruct (aggregateSignals_In _ _ _ Hn)
    as (nm & xn & gn & _ & _ & _ & Hs & Hd & _).
  rewrite Hs, Hd. clear Hs Hd Hn.
  repeat split.
  - destruct (xClusterFor xResult xn); cbn [socialOf Social.topTweets];
      [rewrite length_map; apply firstn_length_le3 | cbn; lia].
  - destruct (xClusterFor xResult xn) as [c |] eqn:Hc;
      cbn [socialOf Social.topTweets]; [| constructor].
    rewrite Forall_forall. intros t Ht.
    apply in_map_iff in Ht. destruct Ht as (s & <- & Hs).
    cbn. split.
    + rewrite slice0_length. lia.
    + exists c, s. repeat split.
      * unfold xClusterFor in Hc. apply find_some in Hc. tauto.
      * apply (firstn_In _ _ _ Hs).
      * apply slice0_prefix.
  - destruct (ghClusterFor ghResult gn); cbn [developerOf Developer.topRepos];
      [rewrite length_map; apply firstn_length_le3 | cbn; lia].
  - destruct (ghClusterFor ghResult gn) as [c |] eqn:Hc;
      cbn [developerOf Developer.topRepos]; [| constructor].
    rewrite Forall_forall. intros r Hr.
    apply in_map_iff in Hr. destruct Hr as (g & <- & Hg).
    cbn. split.
    + rewrite slice0_length. lia.
    + exists c, g. repeat split.
      * unfold ghClusterFor in Hc. apply find_some in Hc. tauto.
      * apply (firstn_In _ _ _ Hg).
      * apply slice0_prefix.
Qed.

(** ** Stage and confidence *)

(** X7.  A narrative is classified pre-narrative exactly when neither
    stream is strong and there is no tweet: any tweet lifts it to
    emergence at least, and without tweets the repositories alone decide
    between pre-narrative and emergence. *)
Theorem pre_narrative_iff (social : Social.t) (developer : Developer.t) :
  (determineStage social developer = pre_narrative
   <-> Spec.hasStrongSocial social = false
       /\ Spec.hasStrongDev developer = false
       /\ JS.gt (Social.tweetCount social) (JS.Fin 0) = false)
  /\ (JS.gt (Social.tweetCount social) (JS.Fin 0) = false ->
      determineStage social developer
      = if Spec.hasStrongDev developer then emergence else pre_narrative).
Proof.
  unfold determineStage, Spec.hasStrongSocial, Spec.hasStrongDev.
  destruct (JS.ge (Social.tweetCount social) (JS.Fin 5)) eqn:H5;
    destruct (JS.ge (Social.avgEngagement social) (JS.Fin 100));
    destruct (JS.ge (Developer.repoCount developer) (JS.Fin 5));
    destruct (JS.ge (Developer.totalStars developer) (JS.Fin 20));
    destruct (JS.ge (Social.avgEngagement social) (JS.Fin 500));
    destruct (JS.ge (Social.avgEngagement social) (JS.Fin 200));
    destruct (JS.ge (Social.uniqueAuthors social) (JS.Fin 8));
    destruct (JS.gt (Developer.repoCount developer) (JS.Fin 0));
    destruct (JS.gt (Social.tweetCount social) (JS.Fin 0)) eqn:H0;
    cbn;
    (split;
     [ split; [try discriminate; tauto | intros (? & ? & ?); congruence]
     | try discriminate; try reflexivity ]).
  all: intros _; exfalso; revert H5 H0.
  all: destruct (Social.tweetCount social); cbn; js_cases; congruence.
Qed.

Lemma pre_narrative_iff_witness :
  determineStage (socialOf None) Examples.developerWeak = pre_narrative.
Proof.
  destruct (pre_narrative_iff (socialOf None) Examples.developerWeak)
    as (_ & H).
  rewrite H; [| js_decide].
  unfold Spec.hasStrongDev. cbn. js_cases. reflexivity.
Defined.

Lemma ge_mono (a b : JS.num) (x : R) :
  JS.le a b = true -> JS.ge a (JS.Fin x) = true -> JS.ge b (JS.Fin x) = true.
Proof.
  destruct a as [| a], b as [| b]; cbn; try discriminate.
  js_cases; congruence.
Qed.

Lemma gt_mono (a b : JS.num) (x : R) :
  JS.le a b = true -> JS.gt a (JS.Fin x) = true -> JS.gt b (JS.Fin x) = true.
Proof.
  destruct a as [| a], b as [| b]; cbn; try discriminate.
  js_cases; congruence.
Qed.

Lemma bonus_mono (c c' : bool) (x : R) :
  0 <= x -> (c = true -> c' = true) -> Spec.bonus c x <= Spec.bonus c' x.
Proof.
  intros Hx H. destruct c, c'; cbn; try lra.
  all: specialize (H eq_refl); discriminate.
Qed.

(** X8.  The confidence never decreases when tweets, engagement, authors,
    repositories or stars increase. *)
Theorem confidence_monotone (s s' : Social.t) (d d' : Developer.t) :
  JS.le (Social.tweetCount s) (Social.tweetCount s') = true ->
  JS.le (Social.avgEngagement s) (Social.avgEngagement s') = true ->
  JS.le (Social.uniqueAuthors s) (Social.uniqueAuthors s') = true ->
  JS.le (Developer.repoCount d) (Developer.repoCount d') = true ->
  JS.le (Developer.totalStars d) (Developer.totalStars d') = true ->
  JS.le (computeConfidence s d) (computeConfidence s' d') = true.
Proof.
  intros Ht He Hu Hr Hts.
  rewrite !computeConfidence_Fin. apply le_Fin.
  unfold Spec.confidence. apply Rle_min_compat_r.
  unfold Spec.bonusSum.
  repeat apply Rplus_le_compat; try apply Rle_refl;
    apply bonus_mono; try lra;
    try (apply ge_mono; assumption).
  intros H. apply andb_true_iff in H. destruct H as (H1 & H2).
  apply andb_true_iff. split; eapply gt_mono; eassumption.
Qed.

Lemma confidence_monotone_witness :
  JS.le (computeConfidence Examples.socialWeak Examples.developerWeak)
    (computeConfidence Examples.social1 Examples.developer1) = true.
Proof.
  apply (confidence_monotone Examples.socialWeak Examples.social1
           Examples.developerWeak Examples.developer1); js_decide.
Defined.

(** * The clusterers *)

(** ** The loop over the pattern table *)

Section Clusterer.
Context {Item Cluster : Type}.
Context (matching : list Text.RegExp -> list Item).
Context (clusterOf : string -> list Item -> Cluster).
Context (topic : Cluster -> string).
Hypothesis topic_clusterOf : forall t m, topic (clusterOf t m) = t.

Lemma pushed_clusters_In (table : list (string * list Text.RegExp))
  (c : Cluster) :
  In c (flat_map
          (fun '(t, patterns) =>
             if (List.length (matching patterns) =? 0)%nat then []
             else [clusterOf t (matching patterns)])
          table)
  <-> exists t patterns,
        In (t, patterns) table /\ matching patterns <> []
        /\ c = clusterOf t (matching patterns).
Proof.
  rewrite in_flat_map. split.
  - intros ([t patterns] & Hentry & Hc).
    destruct (matching patterns) as [| x m] eqn:Hm; [contradiction |].
    destruct Hc as [<- | []]. exists t, patterns. rewrite Hm.
    repeat split; [exact Hentry | discriminate].
  - intros (t & patterns & Hentry & Hne & ->).
    exists (t, patterns). split; [exact Hentry |].
    destruct (matching patterns); [congruence |]. left. reflexivity.
Qed.

Lemma pushed_clusters_NoDup (table : list (string * list Text.RegExp)) :
  NoDup (map fst table) ->
  NoDup
    (map topic
       (flat_map
          (fun '(t, patterns) =>
             if (List.length (matching patterns) =? 0)%nat then []
             else [clusterOf t (matching patterns)])
          table)).
Proof.
  induction table as [| [t patterns] tbl IH]; intros Hnd.
  - constructor.
  - cbn [flat_map map fst] in *. inversion Hnd as [| ? ? Hout Hnd']; subst.
    specialize (IH Hnd').
    destruct (List.length (matching patterns) =? 0)%nat; [exact IH |].
    cbn [app map]. constructor; [| exact IH].
    rewrite topic_clusterOf. intros Hc. apply Hout.
    apply in_map_iff in Hc. destruct Hc as (c & Htopic & Hc).
    apply pushed_clusters_In in Hc.
    destruct Hc as (t' & ps' & Hentry & _ & ->).
    rewrite topic_clusterOf in Htopic. subst t'.
    apply in_map_iff. exists (t, ps'). split; [reflexivity | exact Hentry].
Qed.

End Clusterer.

Lemma NoDup_sorted_map {A B : Type} (f : A -> B) (after : A -> A -> bool)
  (l : list A) :
  NoDup (map f l) -> NoDup (map f (Arr.sort after l)).
Proof.
  apply Permutation_NoDup, Permutation_map, Permutation_sym, sort_perm.
Qed.

Lemma XScanner_table_unique : NoDup (map fst XScanner.topicPatterns).
Proof.
  repeat constructor; cbn; intuition discriminate.
Qed.

Lemma GHScanner_table_unique : NoDup (map fst GHScanner.topicPatterns).
Proof.
  repeat constructor; cbn; intuition discriminate.
Qed.

Lemma clusterByTopic_In (signals : list XScanner.XSignal)
  (c : XScanner.TopicCluster) :
  In c (XScanner.clusterByTopic signals)
  <-> exists t patterns,
        In (t, patterns) XScanner.topicPatterns
        /\ filter (signalMatches patterns) signals <> []
        /\ c = XScanner.clusterOf t (filter (signalMatches patterns) signals).
Proof.
  unfold XScanner.clusterByTopic. rewrite sort_In.
  apply (pushed_clusters_In
           (fun patterns => XScanner.matchingSignals patterns signals)
           XScanner.clusterOf XScanner.topicPatterns c).
Qed.

Lemma clusterReposByTopic_In (repos : list GHScanner.GHRepo)
  (c : GHScanner.GHTopicCluster) :
  In c (GHScanner.clusterReposByTopic repos)
  <-> exists t patterns,
        In (t, patterns) GHScanner.topicPatterns
        /\ filter (repoMatches patterns) repos <> []
        /\ c = GHScanner.clusterOf t (filter (repoMatches patterns) repos).
Proof.
  unfold GHScanner.clusterReposByTopic. rewrite sort_In.
  apply (pushed_clusters_In
           (fun patterns => GHScanner.matchingRepos patterns repos)
           GHScanner.clusterOf GHScanner.topicPatterns c).
Qed.

(** X9.  The social clusterer gives one cluster to each topic of its
    table that some signal matches, and to no other: the topics of the
    result are distinct topics of the table. *)
Theorem clusterByTopic_topics (signals : list XScanner.XSignal) :
  NoDup (map XScanner.topic (XScanner.clusterByTopic signals))
  /\ (List.length (XScanner.clusterByTopic signals) <= 7)%nat
  /\ forall t,
       In t (map XScanner.topic (XScanner.clusterByTopic signals))
       <-> exists patterns s,
             In (t, patterns) XScanner.topicPatterns
             /\ In s signals /\ signalMatches patterns s = true.
Proof.
  assert (Hnd : NoDup (map XScanner.topic (XScanner.clusterByTopic signals))).
  { apply NoDup_sorted_map.
    apply (pushed_clusters_NoDup
             (fun patterns => XScanner.matchingSignals patterns signals)
             XScanner.clusterOf XScanner.topic (fun _ _ => eq_refl)
             XScanner.topicPatterns XScanner_table_unique). }
  assert (Hiff : forall t,
       In t (map XScanner.topic (XScanner.clusterByTopic signals))
       <-> exists patterns s,
             In (t, patterns) XScanner.topicPatterns
             /\ In s signals /\ signalMatches patterns s = true).
  { intros t. rewrite in_map_iff. split.
    - intros (c & <- & Hc). apply clusterByTopic_In in Hc.
      destruct Hc as (t & patterns & Hentry & Hne & ->).
      destruct (filter (signalMatches patterns) signals) as [| s m] eqn:Hm;
        [congruence |].
      assert (Hs : In s (filter (signalMatches patterns) signals))
        by (rewrite Hm; left; reflexivity).
      apply filter_In in Hs. exists patterns, s. cbn. tauto.
    - intros (patterns & s & Hentry & Hs & Hmatch).
      exists (XScanner.clusterOf t (filter (signalMatches patterns) signals)).
      split; [reflexivity |]. apply clusterByTopic_In.
      exists t, patterns. repeat split; [exact Hentry |].
      intros Hnil.
      assert (Hin : In s (filter (signalMatches patterns) signals))
        by (apply filter_In; split; assumption).
      rewrite Hnil in Hin. exact Hin. }
  repeat split; try assumption; try apply Hiff.
  rewrite <- (length_map XScanner.topic).
  change 7%nat with (List.length (map fst XScanner.topicPatterns)).
  apply NoDup_incl_length; [exact Hnd |].
  intros t Ht. apply Hiff in Ht. destruct Ht as (patterns & _ & Hentry & _).
  apply in_map_iff. exists (t, patterns). split; [reflexivity | exact Hentry].
Qed.

(** ** What a cluster holds *)

Lemma nodup_length_le {A : Type} (dec : forall x y : A, {x = y} + {x <> y})
  (l : list A) :
  (List.length (nodup dec l) <= List.length l)%nat.
Proof.
  induction l as [| a l IH]; cbn; [lia |].
  destruct (in_dec dec a l); cbn; lia.
Qed.

Lemma nodup_length_pos {A : Type} (dec : forall x y : A, {x = y} + {x <> y})
  (l : list A) :
  l <> [] -> (1 <= List.length (nodup dec l))%nat.
Proof.
  destruct l as [| a l]; [congruence |]. intros _.
  assert (H : In a (nodup dec (a :: l))) by (apply nodup_In; left; reflexivity).
  destruct (nodup dec (a :: l)); [contradiction | cbn; lia].
Qed.

Lemma nodup_length_eq {A : Type} (dec : forall x y : A, {x = y} + {x <> y})
  (l : list A) :
  List.length (nodup dec l) = List.length l <-> NoDup l.
Proof.
  split.
  - induction l as [| a l IH]; cbn; [constructor |].
    destruct (in_dec dec a l) as [Hin | Hout]; cbn; intros H.
    + pose proof (nodup_length_le dec l). lia.
    + constructor; [exact Hout | apply IH; lia].
  - intros H. rewrite (nodup_fixed_point dec H). reflexivity.
Qed.

Lemma filter_length_le {A : Type} (f : A -> bool) (l : list A) :
  (List.length (filter f l) <= List.length l)%nat.
Proof.
  induction l as [| a l IH]; cbn; [lia |]. destruct (f a); cbn; lia.
Qed.

Lemma nonempty_length {A : Type} (l : list A) :
  l <> [] -> (1 <= List.length l)%nat.
Proof. destruct l; [congruence | cbn; lia]. Qed.

(** X10.  A social cluster counts the signals that match a pattern of its
    topic; its top tweets are the first five of them, in the order of the
    input; its authors are at least one and at most one for each tweet,
    and as many as the tweets exactly when no author wrote two. *)
Theorem clusterByTopic_counts (signals : list XScanner.XSignal) :
  Forall
    (fun c =>
       exists patterns,
         In (XScanner.topic c, patterns) XScanner.topicPatterns
         /\ let m := filter (signalMatches patterns) signals in
            (1 <= List.length m <= List.length signals)%nat
            /\ XScanner.tweetCount c = JS.ofNat (List.length m)
            /\ XScanner.topTweets c = firstn 5 m
            /\ exists u : nat,
                 XScanner.uniqueAuthors c = Some (JS.ofNat u)
                 /\ (1 <= u <= List.length m)%nat
                 /\ (u = List.length m
                     <-> NoDup (map XScanner.authorId m)))
    (XScanner.clusterByTopic signals).
Proof.
  rewrite Forall_forall. intros c Hc. apply clusterByTopic_In in Hc.
  destruct Hc as (t & patterns & Hentry & Hne & ->).
  exists patterns. split; [exact Hentry |]. cbv zeta.
  set (m := filter (signalMatches patterns) signals) in *.
  repeat split.
  - apply nonempty_length, Hne.
  - apply filter_length_le.
  - exists (List.length (nodup string_dec (map XScanner.authorId m))).
    split; [reflexivity |].
    rewrite <- (length_map XScanner.authorId m).
    repeat split.
    + apply nodup_length_pos. destruct m; [congruence | discriminate].
    + apply nodup_length_le.
    + apply nodup_length_eq.
    + apply nodup_length_eq.
Qed.

(** ** Engagement of the social clusters *)

Lemma sum_total {Item : Type} (metric : Item -> JS.num) (l : list Item)
  (acc : R) :
  Forall (fun s => finite (metric s)) l ->
  fold_left (fun sum s => JS.add sum (metric s)) l (JS.Fin acc)
  = JS.Fin (acc + total (fun s => real (metric s)) l).
Proof.
  revert acc. induction l as [| s l IH]; intros acc Hall; cbn.
  - f_equal. lra.
  - inversion Hall as [| ? ? Hs Hl]; subst.
    destruct (metric s) as [| x] eqn:Hx; [contradiction |].
    cbn [JS.add]. rewrite (IH _ Hl). f_equal.
    unfold total. cbn [fold_right real]. lra.
Qed.

Lemma total_bounds {Item : Type} (metric : Item -> R) (l : list Item)
  (lo hi : R) :
  Forall (fun s => lo <= metric s <= hi) l ->
  lo * INR (List.length l) <= total metric l <= hi * INR (List.length l).
Proof.
  induction l as [| s l IH]; intros Hall.
  - cbn. lra.
  - inversion Hall as [| ? ? Hs Hl]; subst. specialize (IH Hl).
    change (total metric (s :: l)) with (metric s + total metric l).
    change (List.length (s :: l)) with (S (List.length l)).
    rewrite S_INR. lra.
Qed.

Lemma INR_pos (n : nat) : (1 <= n)%nat -> 0 < INR n.
Proof. intros H. apply lt_0_INR. lia. Qed.

Lemma div_ofNat (x : R) (n : nat) :
  (1 <= n)%nat -> JS.div (JS.Fin x) (JS.ofNat n) = JS.Fin (x / INR n).
Proof.
  intros H. pose proof (INR_pos n H). cbn.
  destruct (Req_dec_T (INR n) 0); [lra | reflexivity].
Qed.

Lemma mean_bounds (x lo hi : R) (n : nat) :
  (1 <= n)%nat -> lo * INR n <= x <= hi * INR n -> lo <= x / INR n <= hi.
Proof.
  intros Hn [Hlo Hhi]. pose proof (INR_pos n Hn) as Hpos.
  split.
  - apply Rmult_le_reg_r with (INR n); [exact Hpos |].
    unfold Rdiv. rewrite Rmult_assoc, Rinv_l by lra. lra.
  - apply Rmult_le_reg_r with (INR n); [exact Hpos |].
    unfold Rdiv. rewrite Rmult_assoc, Rinv_l by lra. lra.
Qed.

(** X11.  When every signal has an engagement between two integers
    [lo >= 0] and [hi], so has the average engagement of every cluster,
    an integer, and the total lies between [lo] and [hi] times the tweet
    count; the counts of such a cluster are non-negative numbers. *)
Theorem clusterByTopic_engagement (signals : list XScanner.XSignal)
  (lo hi : Z) :
  (0 <= lo)%Z ->
  Forall
    (fun s =>
       exists e, XScanner.engagementScore s = JS.Fin e
                 /\ IZR lo <= e <= IZR hi)
    signals ->
  Forall
    (fun c =>
       xClusterNonneg c
       /\ exists (a t : Z) (k : nat),
            XScanner.tweetCount c = JS.ofNat k
            /\ XScanner.avgEngagement c = JS.Fin (IZR a)
            /\ XScanner.totalEngagement c = JS.Fin (IZR t)
            /\ (lo <= a <= hi)%Z
            /\ (lo * Z.of_nat k <= t <= hi * Z.of_nat k)%Z)
    (XScanner.clusterByTopic signals).
Proof.
  intros Hlo Hall. rewrite Forall_forall. intros c Hc.
  apply clusterByTopic_In in Hc.
  destruct Hc as (t & patterns & Hentry & Hne & ->).
  set (m := filter (signalMatches patterns) signals) in *.
  assert (Hk : (1 <= List.length m)%nat) by (apply nonempty_length, Hne).
  assert (Hm : Forall
            (fun s => exists e, XScanner.engagementScore s = JS.Fin e
                                /\ IZR lo <= e <= IZR hi) m)
    by (apply matching_finite, Hall).
  assert (Hfin : Forall (fun s => finite (XScanner.engagementScore s)) m).
  { eapply Forall_impl; [| exact Hm]. intros s (e & -> & _). exact I. }
  assert (Hb : Forall
            (fun s => IZR lo <= real (XScanner.engagementScore s) <= IZR hi)
            m).
  { eapply Forall_impl; [| exact Hm]. intros s (e & -> & H). exact H. }
  pose proof (total_bounds _ m _ _ Hb) as Htot.
  pose proof (mean_bounds _ _ _ _ Hk Htot) as Hmean.
  set (x := total (fun s => real (XScanner.engagementScore s)) m) in *.
  assert (Hsum : fold_left
            (fun sum s => JS.add sum (XScanner.engagementScore s)) m
            (JS.Fin 0) = JS.Fin x).
  { rewrite (sum_total _ m 0 Hfin). f_equal. fold x. lra. }
  assert (Ha : (lo <= JS.roundR (x / INR (List.length m)) <= hi)%Z).
  { split; [apply roundR_ge | apply roundR_le_int]; lra. }
  assert (Ht : (lo * Z.of_nat (List.length m) <= JS.roundR x
                <= hi * Z.of_nat (List.length m))%Z).
  { split; [apply roundR_ge | apply roundR_le_int];
      rewrite mult_IZR, <- INR_IZR_INZ; lra. }
  assert (Havg : XScanner.avgEngagement (XScanner.clusterOf t m)
                 = JS.Fin (IZR (JS.roundR (x / INR (List.length m))))).
  { unfold XScanner.clusterOf. cbn [XScanner.avgEngagement].
    rewrite Hsum, (div_ofNat _ _ Hk). reflexivity. }
  assert (Htotal : XScanner.totalEngagement (XScanner.clusterOf t m)
                   = JS.Fin (IZR (JS.roundR x))).
  { unfold XScanner.clusterOf. cbn [XScanner.totalEngagement].
    rewrite Hsum. reflexivity. }
  split.
  - unfold xClusterNonneg. rewrite Havg. cbn. repeat split.
    + apply pos_INR.
    + apply (IZR_le 0). lia.
    + apply pos_INR.
  - exists (JS.roundR (x / INR (List.length m))), (JS.roundR x),
      (List.length m).
    repeat split; try assumption; try lia.
Qed.

Lemma clusterByTopic_engagement_witness :
  Forall xClusterNonneg (XScanner.clusterByTopic Examples.signals4).
Proof.
  assert (H := clusterByTopic_engagement Examples.signals4 30 100).
  eapply Forall_impl; [| apply H].
  - intros c Hc. apply Hc.
  - lia.
  - repeat constructor; eexists; (split; [reflexivity | cbn; lra]).
Defined.

(** ** The developer clusterer *)

(** X12.  The developer clusterer gives one cluster to each topic of its
    table that some repository matches in its name, description or
    query, and to no other; a cluster counts the matching repositories
    and lists the first five of them, in the order of the input. *)
Theorem clusterReposByTopic_clusters (repos : list GHScanner.GHRepo) :
  NoDup (map GHScanner.topic (GHScanner.clusterReposByTopic repos))
  /\ (forall t,
        In t (map GHScanner.topic (GHScanner.clusterReposByTopic repos))
        <-> exists patterns r,
              In (t, patterns) GHScanner.topicPatterns
              /\ In r repos /\ repoMatches patterns r = true)
  /\ Forall
       (fun c =>
          exists patterns,
            In (GHScanner.topic c, patterns) GHScanner.topicPatterns
            /\ let m := filter (repoMatches patterns) repos in
               (1 <= List.length m <= List.length repos)%nat
               /\ GHScanner.repoCount c = JS.ofNat (List.length m)
               /\ GHScanner.topRepos c = firstn 5 m)
       (GHScanner.clusterReposByTopic repos).
Proof.
  split; [| split].
  - apply NoDup_sorted_map.
    apply (pushed_clusters_NoDup
             (fun patterns => GHScanner.matchingRepos patterns repos)
             GHScanner.clusterOf GHScanner.topic (fun _ _ => eq_refl)
             GHScanner.topicPatterns GHScanner_table_unique).
  - intros t. rewrite in_map_iff. split.
    + intros (c & <- & Hc). apply clusterReposByTopic_In in Hc.
      destruct Hc as (t & patterns & Hentry & Hne & ->).
      destruct (filter (repoMatches patterns) repos) as [| r m] eqn:Hm;
        [congruence |].
      assert (Hr : In r (filter (repoMatches patterns) repos))
        by (rewrite Hm; left; reflexivity).
      apply filter_In in Hr. exists patterns, r. cbn. tauto.
    + intros (patterns & r & Hentry & Hr & Hmatch).
      exists (GHScanner.clusterOf t (filter (repoMatches patterns) repos)).
      split; [reflexivity |]. apply clusterReposByTopic_In.
      exists t, patterns. repeat split; [exact Hentry |].
      intros Hnil.
      assert (Hin : In r (filter (repoMatches patterns) repos))
        by (apply filter_In; split; assumption).
      rewrite Hnil in Hin. exact Hin.
  - rewrite Forall_forall. intros c Hc. apply clusterReposByTopic_In in Hc.
    destruct Hc as (t & patterns & Hentry & Hne & ->).
    exists patterns. split; [exact Hentry |]. cbv zeta.
    repeat split.
    + apply nonempty_length, Hne.
    + apply filter_length_le.
Qed.

Lemma round_tenths (x : R) :
  - 0.05 <= IZR (JS.roundR (x * 10)) / 10 - x <= 0.05.
Proof.
  destruct (roundR_bounds (x * 10)) as [H1 H2]. lra.
Qed.

Lemma round_tenths_bounds (x : R) (lo hi : Z) :
  IZR lo <= x <= IZR hi ->
  IZR lo <= IZR (JS.roundR (x * 10)) / 10 <= IZR hi.
Proof.
  intros [Hlo Hhi].
  assert (H1 : (lo * 10 <= JS.roundR (x * 10))%Z)
    by (apply roundR_ge; rewrite mult_IZR; lra).
  assert (H2 : (JS.roundR (x * 10) <= hi * 10)%Z)
    by (apply roundR_le_int; rewrite mult_IZR; lra).
  apply IZR_le in H1, H2. rewrite mult_IZR in H1, H2. lra.
Qed.

Lemma total_integer {Item : Type} (metric : Item -> JS.num)
  (l : list Item) :
  Forall (fun s => exists z : Z, metric s = JS.Fin (IZR z)) l ->
  exists x : Z, total (fun s => real (metric s)) l = IZR x.
Proof.
  induction l as [| s l IH]; intros Hall.
  - exists 0%Z. reflexivity.
  - inversion Hall as [| ? ? (z & Hz) Hl]; subst.
    destruct (IH Hl) as (x & Hx). exists (z + x)%Z.
    change (total (fun s => real (metric s)) (s :: l))
      with (real (metric s) + total (fun s => real (metric s)) l).
    rewrite Hx, Hz, plus_IZR. reflexivity.
Qed.

(** X13.  When the star counts are integers between [lo >= 0] and [hi],
    and [hi] times the number of repositories is at most 2^32, the total
    of a cluster is the sum of the stars of its repositories, an integer
    between [lo] and [hi] times their number; its average lies between
    [lo] and [hi] and within 0.06 of the mean, and its counts are
    non-negative numbers. *)
Theorem clusterReposByTopic_stars (repos : list GHScanner.GHRepo)
  (lo hi : Z) :
  (0 <= lo)%Z ->
  (hi * Z.of_nat (List.length repos) <= 2 ^ 32)%Z ->
  Forall
    (fun r =>
       exists z : Z,
         GHScanner.stars r = JS.Fin (IZR z) /\ (lo <= z <= hi)%Z)
    repos ->
  Forall
    (fun c =>
       ghClusterNonneg c
       /\ exists (patterns : list Text.RegExp) (k : nat) (x : Z) (a : R),
            In (GHScanner.topic c, patterns) GHScanner.topicPatterns
            /\ k = List.length (filter (repoMatches patterns) repos)
            /\ (1 <= k)%nat
            /\ GHScanner.repoCount c = JS.ofNat k
            /\ IZR x = total (fun r => real (GHScanner.stars r))
                         (filter (repoMatches patterns) repos)
            /\ GHScanner.totalStars c = JS.Fin (IZR x)
            /\ (lo * Z.of_nat k <= x <= hi * Z.of_nat k)%Z
            /\ (x <= 2 ^ 32)%Z
            /\ GHScanner.avgStars c = JS.Fin a
            /\ IZR lo <= a <= IZR hi
            /\ - 0.06 <= a - IZR x / INR k <= 0.06)
    (GHScanner.clusterReposByTopic repos).
Proof.
  intros Hlo Hsmall Hall. rewrite Forall_forall. intros c Hc.
  apply clusterReposByTopic_In in Hc.
  destruct Hc as (t & patterns & Hentry & Hne & ->).
  set (m := filter (repoMatches patterns) repos) in *.
  assert (Hk : (1 <= List.length m)%nat) by (apply nonempty_length, Hne).
  assert (Hkn : (List.length m <= List.length repos)%nat)
    by apply filter_length_le.
  assert (Hm : Forall
            (fun r => exists z : Z, GHScanner.stars r = JS.Fin (IZR z)
                                    /\ (lo <= z <= hi)%Z) m)
    by (apply matching_finite, Hall).
  assert (Hfin : Forall (fun r => finite (GHScanner.stars r)) m).
  { eapply Forall_impl; [| exact Hm]. intros r (z & -> & _). exact I. }
  assert (Hint : Forall
            (fun r => exists z : Z, GHScanner.stars r = JS.Fin (IZR z)) m).
  { eapply Forall_impl; [| exact Hm]. intros r (z & Hz & _).
    exists z. exact Hz. }
  assert (Hb : Forall
            (fun r => IZR lo <= real (GHScanner.stars r) <= IZR hi) m).
  { eapply Forall_impl; [| exact Hm]. intros r (z & -> & H1 & H2).
    cbn. split; apply IZR_le; assumption. }
  pose proof (total_bounds _ m _ _ Hb) as Htot.
  pose proof (mean_bounds _ _ _ _ Hk Htot) as Hmean.
  destruct (total_integer GHScanner.stars m Hint) as (x & Hx).
  rewrite Hx in Htot, Hmean.
  assert (Hsum : fold_left (fun sum r => JS.add sum (GHScanner.stars r)) m
                   (JS.Fin 0) = JS.Fin (IZR x)).
  { rewrite (sum_total _ m 0 Hfin), Hx. f_equal. lra. }
  assert (Havg : GHScanner.avgStars (GHScanner.clusterOf t m)
                 = JS.Fin (IZR (JS.roundR (IZR x / INR (List.length m) * 10))
                           / 10)).
  { unfold GHScanner.clusterOf. cbn [GHScanner.avgStars].
    rewrite Hsum, (div_ofNat _ _ Hk). cbn.
    destruct (Req_dec_T 10 0); [lra | reflexivity]. }
  assert (Htotal : GHScanner.totalStars (GHScanner.clusterOf t m)
                   = JS.Fin (IZR x)).
  { unfold GHScanner.clusterOf. cbn [GHScanner.totalStars]. exact Hsum. }
  pose proof (round_tenths_bounds _ _ _ Hmean) as Ha.
  pose proof (round_tenths (IZR x / INR (List.length m))) as Hnear.
  assert (H0 : 0 <= IZR lo) by (apply (IZR_le 0); exact Hlo).
  assert (Hn0 : 0 <= INR (List.length m)) by apply pos_INR.
  assert (HxZ : (lo * Z.of_nat (List.length m) <= x
                 <= hi * Z.of_nat (List.length m))%Z).
  { rewrite (INR_IZR_INZ (List.length m)), <- !mult_IZR in Htot.
    destruct Htot as [H1 H2]. apply le_IZR in H1, H2. lia. }
  split.
  - unfold ghClusterNonneg. rewrite Havg, Htotal. cbn. repeat split.
    + exact Hn0.
    + apply Rle_trans with (IZR lo * INR (List.length m)); [| apply Htot].
      apply Rmult_le_pos; assumption.
    + lra.
  - exists patterns, (List.length m), x,
      (IZR (JS.roundR (IZR x / INR (List.length m) * 10)) / 10).
    repeat split; try assumption; try apply HxZ; try apply Ha;
      try (symmetry; exact Hx); try lra.
    nia.
Qed.

Lemma reposThree_cluster :
  exists c,
    In c (GHScanner.clusterReposByTopic Samples.reposThree)
    /\ GHScanner.topic c = "AI Agent Infrastructure"%string
    /\ GHScanner.repoCount c = JS.ofNat 3
    /\ GHScanner.totalStars c = JS.Fin 55
    /\ GHScanner.avgStars c = JS.Fin 18.3.
Proof.
  eexists. split; [| split; [| split; [| split]]].
  - apply clusterReposByTopic_In. eexists. eexists.
    split; [left; reflexivity |]. split; [| reflexivity].
    discriminate.
  - reflexivity.
  - reflexivity.
  - cbn. f_equal. lra.
  - cbn. js_cases. cbn [JS.mul JS.round].
    rewrite (roundR_eq _ 183) by lra.
    cbn. js_cases. reflexivity.
Qed.

Lemma clusterReposByTopic_stars_witness :
  (exists c,
     In c (GHScanner.clusterReposByTopic Samples.reposThree)
     /\ GHScanner.topic c = "AI Agent Infrastructure"%string
     /\ GHScanner.repoCount c = JS.ofNat 3
     /\ GHScanner.totalStars c = JS.Fin 55
     /\ GHScanner.avgStars c = JS.Fin 18.3)
  /\ Forall
       (fun c =>
          ghClusterNonneg c
          /\ exists (patterns : list Text.RegExp) (k : nat) (x : Z) (a : R),
               In (GHScanner.topic c, patterns) GHScanner.topicPatterns
               /\ k = List.length
                        (filter (repoMatches patterns) Samples.reposThree)
               /\ (1 <= k)%nat
               /\ GHScanner.repoCount c = JS.ofNat k
               /\ IZR x = total (fun r => real (GHScanner.stars r))
                            (filter (repoMatches patterns)
                               Samples.reposThree)
               /\ GHScanner.totalStars c = JS.Fin (IZR x)
               /\ (3 * Z.of_nat k <= x <= 40 * Z.of_nat k)%Z
               /\ (x <= 2 ^ 32)%Z
               /\ GHScanner.avgStars c = JS.Fin a
               /\ 3 <= a <= 40
               /\ - 0.06 <= a - IZR x / INR k <= 0.06)
       (GHScanner.clusterReposByTopic Samples.reposThree).
Proof.
  split; [exact reposThree_cluster |].
  apply (clusterReposByTopic_stars Samples.reposThree 3 40).
  - lia.
  - cbn. lia.
  - repeat constructor; eexists; (split; [reflexivity | lia]).
Defined.

(** ** The clusterer of the conversion script *)

Lemma Convert_table : Convert.X_TOPIC_PATTERNS = XScanner.topicPatterns.
Proof. reflexivity. Qed.

Lemma Convert_stop_words : Convert.STOP_WORDS = XScanner.stopWords.
Proof. reflexivity. Qed.

Lemma Convert_keyTerms (signals : list XScanner.XSignal) :
  Convert.extractTweetKeyTerms signals = XScanner.extractKeyTerms signals.
Proof.
  unfold Convert.extractTweetKeyTerms, XScanner.extractKeyTerms,
    XScanner.words.
  rewrite Convert_stop_words. reflexivity.
Qed.

(** X14.  The conversion script's own pattern table and stop words are
    those of the scanner, its key-term extractor returns the scanner's
    key terms, and it clusters the signals as the scanner does, in the
    same order, except that it leaves [uniqueAuthors] out. *)
Theorem clusterTweets_as_scanner (signals : list XScanner.XSignal) :
  Convert.clusterTweets signals
  = map withoutAuthors (XScanner.clusterByTopic signals)
  /\ Convert.extractTweetKeyTerms signals
     = XScanner.extractKeyTerms signals
  /\ Convert.X_TOPIC_PATTERNS = XScanner.topicPatterns
  /\ Convert.STOP_WORDS = XScanner.stopWords.
Proof.
  split; [| split; [apply Convert_keyTerms | split; reflexivity]].
  unfold Convert.clusterTweets, XScanner.clusterByTopic.
  rewrite Convert_table.
  rewrite <- (sort_map withoutAuthors _
                (fun a b =>
                   JS.gt
                     (JS.sub
                        (JS.add (JS.mul (XScanner.tweetCount b) (JS.Fin 10))
                           (XScanner.avgEngagement b))
                        (JS.add (JS.mul (XScanner.tweetCount a) (JS.Fin 10))
                           (XScanner.avgEngagement a)))
                     (JS.Fin 0)));
    [| reflexivity].
  f_equal.
  induction XScanner.topicPatterns as [| [t patterns] tbl IH];
    [reflexivity |].
  cbn [flat_map]. rewrite map_app, IH. f_equal.
  cbv zeta. fold (XScanner.matchingSignals patterns signals).
  destruct (List.length _ =? 0)%nat; [reflexivity |].
  cbn [map]. f_equal.
Qed.

Lemma clusterTweets_no_authors (signals : list XScanner.XSignal)
  (c : XScanner.TopicCluster) :
  In c (Convert.clusterTweets signals) -> XScanner.uniqueAuthors c = None.
Proof.
  unfold Convert.clusterTweets. rewrite sort_In, in_flat_map.
  intros ([t patterns] & _ & Hc). cbv zeta in Hc.
  destruct (List.length _ =? 0)%nat; [contradiction |].
  destruct Hc as [<- | []]. reflexivity.
Qed.

(** X15.  From the data that the conversion script writes the aggregator
    never classifies a narrative as peak: the unique authors of every
    narrative are 0. *)
Theorem converted_never_peak (xResult : XScanner.XScanResult)
  (ghResult : GHScanner.GHScanResult) :
  XScanner.topicClusters xResult
  = Convert.clusterTweets (XScanner.signals xResult) ->
  Forall
    (fun n =>
       Social.uniqueAuthors (social n) = JS.Fin 0 /\ stage n <> peak)
    (aggregateSignals xResult ghResult).
Proof.
  intros Hconv. rewrite Forall_forall. intros n Hn.
  apply (proj1 (sort_In _ n _)) in Hn.
  destruct (aggregateSignals_In _ _ _ Hn)
    as (nm & xn & gn & _ & _ & _ & Hs & _ & _ & Hstage & _).
  assert (Hu : Social.uniqueAuthors (social n) = JS.Fin 0).
  { rewrite Hs. destruct (xClusterFor xResult xn) as [c |] eqn:Hc;
      [| reflexivity].
    unfold xClusterFor in Hc. apply find_some in Hc. destruct Hc as [Hc _].
    rewrite Hconv in Hc. apply clusterTweets_no_authors in Hc.
    cbn. rewrite Hc. reflexivity. }
  split; [exact Hu |].
  rewrite Hstage. unfold determineStage. rewrite Hu.
  assert (H8 : JS.ge (JS.Fin 0) (JS.Fin 8) = false) by js_decide.
  rewrite H8, andb_false_r.
  repeat match goal with
         | |- context [if ?b then _ else _] => destruct b
         end; discriminate.
Qed.

Lemma converted_never_peak_witness :
  Forall
    (fun n =>
       Social.uniqueAuthors (social n) = JS.Fin 0 /\ stage n <> peak)
    (aggregateSignals Samples.xResultConverted
       (Samples.ghResultOf [Samples.ghClusterOne])).
Proof.
  apply (converted_never_peak Samples.xResultConverted
           (Samples.ghResultOf [Samples.ghClusterOne])).
  reflexivity.
Defined.

(** X16.  The conversion script clusters repositories exactly as the
    scanner does: same topics, same patterns, same counts, key terms and
    order, on every list of repositories. *)
Theorem clusterRepos_as_scanner (repos : list GHScanner.GHRepo) :
  ConvertGitHub.clusterRepos repos = GHScanner.clusterReposByTopic repos
  /\ ConvertGitHub.extractRepoKeyTerms repos
     = GHScanner.extractKeyTerms repos.
Proof.
  split; reflexivity.
Qed.

(** * The web page *)

(** ** escapeHtml *)

Lemma append_assoc (a b c : string) :
  String.append (String.append a b) c = String.append a (String.append b c).
Proof. induction a as [| x a IH]; cbn; [| rewrite IH]; reflexivity. Qed.

Lemma replaceAll_append (c : ascii) (by_ a b : string) :
  WebOutput.replaceAll c by_ (String.append a b)
  = String.append (WebOutput.replaceAll c by_ a)
      (WebOutput.replaceAll c by_ b).
Proof.
  induction a as [| x a IH]; cbn; [reflexivity |].
  rewrite IH. destruct (Ascii.eqb x c); cbn; [| reflexivity].
  symmetry. apply append_assoc.
Qed.

Lemma escapeHtml_append (a b : string) :
  WebOutput.escapeHtml (String.append a b)
  = String.append (WebOutput.escapeHtml a) (WebOutput.escapeHtml b).
Proof.
  unfold WebOutput.escapeHtml. now rewrite !replaceAll_append.
Qed.

Lemma escapeHtml_char (c : ascii) :
  WebOutput.escapeHtml (String c EmptyString) = escapeChar c.
Proof.
  unfold WebOutput.escapeHtml, escapeChar. cbn [WebOutput.replaceAll].
  destruct (Ascii.eqb c "&") eqn:H1.
  { reflexivity. }
  cbn [WebOutput.replaceAll]. destruct (Ascii.eqb c "<") eqn:H2.
  { reflexivity. }
  cbn [WebOutput.replaceAll]. destruct (Ascii.eqb c ">") eqn:H3.
  { reflexivity. }
  cbn [WebOutput.replaceAll]. destruct (Ascii.eqb c WebOutput.dquote) eqn:H4.
  { reflexivity. }
  cbn [WebOutput.replaceAll]. destruct (Ascii.eqb c "'") eqn:H5; reflexivity.
Qed.

Lemma escapeHtml_escapeAll (s : string) :
  WebOutput.escapeHtml s = escapeAll s.
Proof.
  induction s as [| c s IH]; [reflexivity |].
  change (String c s) with (String.append (String c EmptyString) s).
  rewrite escapeHtml_append, escapeHtml_char, IH. reflexivity.
Qed.

Lemma occurs_append (c : ascii) (a b : string) :
  occurs c (String.append a b) = occurs c a || occurs c b.
Proof.
  induction a as [| x a IH]; cbn; [reflexivity |].
  rewrite IH. apply orb_assoc.
Qed.

Lemma escapeChar_safe (c : ascii) :
  occurs "<" (escapeChar c) = false
  /\ occurs ">" (escapeChar c) = false
  /\ occurs WebOutput.dquote (escapeChar c) = false
  /\ occurs "'" (escapeChar c) = false.
Proof.
  unfold escapeChar.
  destruct (Ascii.eqb c "&"); [repeat split; reflexivity |].
  destruct (Ascii.eqb c "<") eqn:H2; [repeat split; reflexivity |].
  destruct (Ascii.eqb c ">") eqn:H3; [repeat split; reflexivity |].
  destruct (Ascii.eqb c WebOutput.dquote) eqn:H4;
    [repeat split; reflexivity |].
  destruct (Ascii.eqb c "'") eqn:H5; [repeat split; reflexivity |].
  cbn. rewrite H2, H3, H4, H5. repeat split; reflexivity.
Qed.

(** X17.  [escapeHtml] makes its five replacements as if at once, each
    character replaced by its entity and no entity escaped again; so it
    distributes over concatenation, its result holds none of the
    characters [<], [>], double quote and apostrophe, and a text without
    special characters is unchanged. *)
Theorem escapeHtml_safe (s : string) :
  WebOutput.escapeHtml s = escapeAll s
  /\ (forall a b,
        WebOutput.escapeHtml (String.append a b)
        = String.append (WebOutput.escapeHtml a) (WebOutput.escapeHtml b))
  /\ occurs "<" (WebOutput.escapeHtml s) = false
  /\ occurs ">" (WebOutput.escapeHtml s) = false
  /\ occurs WebOutput.dquote (WebOutput.escapeHtml s) = false
  /\ occurs "'" (WebOutput.escapeHtml s) = false
  /\ ((forall c, occurs c s = true -> special c = false) ->
      WebOutput.escapeHtml s = s).
Proof.
  split; [apply escapeHtml_escapeAll |].
  split; [apply escapeHtml_append |].
  rewrite escapeHtml_escapeAll.
  induction s as [| c s (H1 & H2 & H3 & H4 & H5)]; cbn [escapeAll].
  - repeat split; reflexivity.
  - destruct (escapeChar_safe c) as (E1 & E2 & E3 & E4).
    rewrite !occurs_append, E1, E2, E3, E4, H1, H2, H3, H4.
    repeat split; try reflexivity.
    intros Hsafe.
    rewrite H5.
    + assert (Hc : special c = false).
      { apply Hsafe. cbn. rewrite Ascii.eqb_refl. reflexivity. }
      unfold special in Hc. unfold escapeChar.
      repeat (apply orb_false_elim in Hc; destruct Hc as [Hc ?]).
      repeat match goal with H : Ascii.eqb _ _ = false |- _ =>
               rewrite H; clear H end.
      reflexivity.
    + intros d Hd. apply Hsafe. cbn. rewrite Hd. apply orb_true_r.
Qed.

Lemma escapeHtml_safe_witness :
  WebOutput.escapeHtml "solana-agent-kit"%string = "solana-agent-kit"%string.
Proof.
  destruct (escapeHtml_safe "solana-agent-kit"%string) as (_ & _ & _ & _ & _ & _ & H).
  apply H. intros c.
  destruct c as [[] [] [] [] [] [] [] []]; intros Hc;
    solve [reflexivity | discriminate Hc].
Defined.

Lemma escapeChar_prefix_free (c d : ascii) (x y : string) :
  String.append (escapeChar c) x = String.append (escapeChar d) y ->
  c = d /\ x = y.
Proof.
  unfold escapeChar. intros H.
  repeat match type of H with
         | context [Ascii.eqb ?a ?b] => destruct (Ascii.eqb_spec a b)
         end;
    subst; cbn in H;
    solve [ split; congruence
          | discriminate H
          | injection H; intros; subst; split; congruence ].
Qed.

(** X18.  [escapeHtml] loses nothing: two texts with the same escaped
    form are the same text. *)
Theorem escapeHtml_injective (a b : string) :
  WebOutput.escapeHtml a = WebOutput.escapeHtml b -> a = b.
Proof.
  rewrite !escapeHtml_escapeAll. revert b.
  induction a as [| c a IH]; intros [| d b] H; cbn [escapeAll] in H.
  - reflexivity.
  - exfalso. unfold escapeChar in H.
    repeat match type of H with
           | context [Ascii.eqb ?x ?y] => destruct (Ascii.eqb x y)
           end; discriminate H.
  - exfalso. unfold escapeChar in H.
    repeat match type of H with
           | context [Ascii.eqb ?x ?y] => destruct (Ascii.eqb x y)
           end; discriminate H.
  - apply escapeChar_prefix_free in H. destruct H as [-> H].
    f_equal. apply IH, H.
Qed.

Lemma escapeHtml_injective_witness :
  String.append "a" "<b>" = "a<b>"%string.
Proof.
  apply (escapeHtml_injective (String.append "a" "<b>") "a<b>").
  reflexivity.
Defined.

(** ** The figures of the page header *)

Lemma confidence_range (social : Social.t) (developer : Developer.t) :
  exists c, computeConfidence social developer = JS.Fin c
            /\ 0.25 <= c <= 0.95.
Proof.
  exists (Spec.confidence social developer).
  split; [apply computeConfidence_Fin |].
  unfold Spec.confidence.
  destruct (bonusSum_hundredths social developer) as (a & Ha & Ha25).
  assert (25 <= IZR a) by (apply IZR_le; exact Ha25).
  rewrite Ha. split; [apply Rmin_glb; lra | apply Rmin_r].
Qed.

(** X19.  The average confidence in the header of the page generated
    from the aggregator's result is a whole percentage: 0 when there is
    no narrative, and between 25 and 95 otherwise. *)
Theorem header_confidence (xResult : XScanner.XScanResult)
  (ghResult : GHScanner.GHScanResult) :
  exists p : Z,
    WebOutput.avgConfidence (aggregateSignals xResult ghResult)
    = JS.Fin (IZR p)
    /\ (aggregateSignals xResult ghResult = [] -> p = 0%Z)
    /\ (aggregateSignals xResult ghResult <> [] -> (25 <= p <= 95)%Z).
Proof.
  assert (Hall : Forall
            (fun n => exists c, confidence n = JS.Fin c /\ 0.25 <= c <= 0.95)
            (aggregateSignals xResult ghResult)).
  { rewrite Forall_forall. intros n Hn.
    apply (proj1 (sort_In _ n _)) in Hn.
    destruct (aggregateSignals_In _ _ _ Hn)
      as (nm & xn & gn & _ & _ & _ & _ & _ & _ & _ & Hconf & _).
    rewrite Hconf. apply confidence_range. }
  unfold WebOutput.avgConfidence.
  destruct (aggregateSignals xResult ghResult) as [| n ns] eqn:Hns.
  - exists 0%Z. cbn. repeat split; congruence.
  - set (l := n :: ns) in *.
    assert (Hk : (1 <= List.length l)%nat) by (cbn; lia).
    assert (Hpos : (0 <? List.length l)%nat = true)
      by (apply Nat.ltb_lt; lia).
    rewrite Hpos.
    assert (Hfin : Forall (fun n => finite (confidence n)) l).
    { eapply Forall_impl; [| exact Hall]. intros m (c & -> & _). exact I. }
    assert (Hb : Forall (fun n => 0.25 <= real (confidence n) <= 0.95) l).
    { eapply Forall_impl; [| exact Hall]. intros m (c & -> & H). exact H. }
    pose proof (total_bounds _ l _ _ Hb) as Htot.
    pose proof (mean_bounds _ _ _ _ Hk Htot) as Hmean.
    set (x := total (fun n => real (confidence n)) l) in *.
    assert (Hsum : fold_left (fun s n => JS.add s (confidence n)) l
                     (JS.Fin 0) = JS.Fin x).
    { rewrite (sum_total _ l 0 Hfin). f_equal. fold x. lra. }
    rewrite Hsum, (div_ofNat _ _ Hk).
    exists (JS.roundR (x / INR (List.length l) * 100)).
    split; [reflexivity |]. split; [discriminate |]. intros _.
    split; [apply roundR_ge | apply roundR_le_int]; lra.
Qed.

(** * The scans *)

(** ** Keeping the first item of each key *)

Lemma has_In (set : list string) (w : string) :
  Text.has set w = true <-> In w set.
Proof.
  unfold Text.has. rewrite existsb_exists. split.
  - intros (x & Hx & Heq). apply String.eqb_eq in Heq. now subst.
  - intros H. exists w. split; [exact H | apply String.eqb_refl].
Qed.

Lemma has_not_In (set : list string) (w : string) :
  Text.has set w = false <-> ~ In w set.
Proof.
  rewrite <- has_In. destruct (Text.has set w); split; congruence.
Qed.

Section DedupFacts.
Context {A : Type} (key : A -> string).

Lemma from_In (seen : list string) (l : list A) (x : A) :
  In x (Dedup.from key seen l) -> In x l /\ ~ In (key x) seen.
Proof.
  revert seen. induction l as [| y l IH]; intros seen; cbn; [tauto |].
  destruct (Text.has seen (key y)) eqn:Hy.
  - intros H. apply IH in H. tauto.
  - intros [<- | H].
    + split; [now left | now apply has_not_In].
    + apply IH in H. cbn in H. tauto.
Qed.

Lemma from_NoDup (seen : list string) (l : list A) :
  NoDup (map key (Dedup.from key seen l)).
Proof.
  revert seen. induction l as [| y l IH]; intros seen; cbn; [constructor |].
  destruct (Text.has seen (key y)); [apply IH |].
  cbn. constructor; [| apply IH].
  intros H. apply in_map_iff in H. destruct H as (x & Hk & Hx).
  apply from_In in Hx. destruct Hx as [_ Hx]. apply Hx. left. congruence.
Qed.

Lemma from_keys (seen : list string) (l : list A) (x : A) :
  In x l -> ~ In (key x) seen ->
  In (key x) (map key (Dedup.from key seen l)).
Proof.
  revert seen. induction l as [| y l IH]; intros seen; cbn; [tauto |].
  intros Hx Hseen. destruct (Text.has seen (key y)) eqn:Hy.
  - destruct Hx as [-> | Hx]; [| now apply IH].
    apply has_In in Hy. contradiction.
  - cbn. destruct (string_dec (key y) (key x)) as [Heq | Hne];
      [now left | right].
    destruct Hx as [-> | Hx]; [congruence |].
    apply IH; [exact Hx |]. cbn. tauto.
Qed.

(** The item kept for a key is the first of the list with this key. *)
Lemma from_first (seen : list string) (l : list A) (x : A) :
  In x (Dedup.from key seen l) ->
  exists l1 l2, l = l1 ++ x :: l2 /\ ~ In (key x) (map key l1).
Proof.
  revert seen. induction l as [| y l IH]; intros seen; cbn; [tauto |].
  destruct (Text.has seen (key y)) eqn:Hy.
  - intros H. pose proof (from_In _ _ _ H) as [_ Hseen].
    destruct (IH _ H) as (l1 & l2 & -> & Hl1).
    exists (y :: l1), l2. split; [reflexivity |].
    cbn. intros [Heq | Hin]; [| contradiction].
    apply has_In in Hy. congruence.
  - intros [<- | H].
    + exists [], l. split; [reflexivity | cbn; tauto].
    + pose proof (from_In _ _ _ H) as [_ Hseen].
      destruct (IH _ H) as (l1 & l2 & -> & Hl1).
      exists (y :: l1), l2. split; [reflexivity |].
      cbn. intros [Heq | Hin]; [| contradiction].
      apply Hseen. left. exact Heq.
Qed.

End DedupFacts.

Lemma StronglySorted_app_inv {A : Type} (R : A -> A -> Prop) (a b : list A)
  (x y : A) :
  StronglySorted R (a ++ b) -> In x a -> In y b -> R x y.
Proof.
  induction a as [| z a IH]; cbn; [tauto |].
  intros Hs [<- | Hx] Hy.
  - apply StronglySorted_inv in Hs. destruct Hs as [_ Hall].
    rewrite Forall_forall in Hall. apply Hall, in_or_app. now right.
  - apply StronglySorted_inv in Hs. destruct Hs as [Hs _]. now apply IH.
Qed.

(** The first [n] of the matching items of a sorted list come before the
    matching items left out. *)
Lemma top_of_sorted {A : Type} (R : A -> A -> Prop) (f : A -> bool)
  (n : nat) (l : list A) (x y : A) :
  StronglySorted R l ->
  In x (firstn n (filter f l)) -> In y l -> f y = true ->
  ~ In y (firstn n (filter f l)) -> R x y.
Proof.
  intros Hs Hx Hy Hfy Hout.
  apply (StronglySorted_filter R f) in Hs.
  rewrite <- (firstn_skipn n (filter f l)) in Hs.
  apply (StronglySorted_app_inv R _ _ x y Hs Hx).
  assert (Hin : In y (filter f l)) by (apply filter_In; tauto).
  rewrite <- (firstn_skipn n (filter f l)) in Hin.
  apply in_app_or in Hin. tauto.
Qed.

(** ** scanX *)

Lemma signalsOf_In (query : string) (results : XScan.SearchData)
  (s : XScanner.XSignal) :
  In s (XScan.signalsOf query results)
  <-> exists tweet m,
        In tweet (orElse (XScan.data results) [])
        /\ XScan.Tweet.public_metrics tweet = Some m
        /\ JS.lt
             (XScanner.computeEngagement
                (orElse (XScan.Metrics.like_count m) (JS.Fin 0))
                (orElse (XScan.Metrics.retweet_count m) (JS.Fin 0))
                (orElse (XScan.Metrics.reply_count m) (JS.Fin 0)))
             (JS.Fin 20) = false
        /\ XScanner.text s = XScan.Tweet.text tweet
        /\ XScanner.tweetId s = XScan.Tweet.id tweet
        /\ XScanner.query s = query
        /\ XScanner.likes s = orElse (XScan.Metrics.like_count m) (JS.Fin 0)
        /\ XScanner.retweets s
           = orElse (XScan.Metrics.retweet_count m) (JS.Fin 0)
        /\ XScanner.replies s
           = orElse (XScan.Metrics.reply_count m) (JS.Fin 0)
        /\ XScanner.engagementScore s
           = XScanner.computeEngagement (XScanner.likes s)
               (XScanner.retweets s) (XScanner.replies s)
        /\ XScanner.authorId s = orElse (XScan.Tweet.author_id tweet) ""%string
        /\ XScanner.created s = orElse (XScan.Tweet.created_at tweet) ""%string
        /\ XScanner.author s
           = String.append "@"
               (orElse
                  (XScan.usernameOf (orElse (XScan.users results) [])
                     (XScanner.authorId s))
                  "unknown"%string).
Proof.
  unfold XScan.signalsOf. rewrite in_flat_map. split.
  - intros (tweet & Htweet & Hs).
    destruct (XScan.Tweet.public_metrics tweet) as [m |] eqn:Hm;
      [| contradiction].
    cbv zeta in Hs.
    destruct (JS.lt _ _) eqn:Hlt; [contradiction |].
    destruct Hs as [<- | []]. exists tweet, m. cbn.
    repeat split; assumption.
  - intros (tweet & m & Htweet & Hm & Hlt & H1 & H2 & H3 & H4 & H5 & H6
            & H7 & H8 & H9 & H10).
    exists tweet. split; [exact Htweet |]. rewrite Hm. cbv zeta.
    rewrite Hlt. left. destruct s. cbn in *. subst. reflexivity.
Qed.

Lemma XScan_collect_In (search : string -> XScan.Outcome)
  (queries : list string) (s : XScanner.XSignal) :
  In s (XScan.collect search queries) ->
  exists results,
    In (XScanner.query s) queries
    /\ search (XScanner.query s) = XScan.Returned results
    /\ In s (XScan.signalsOf (XScanner.query s) results).
Proof.
  induction queries as [| q queries IH]; cbn; [tauto |].
  assert (Hrest : In s (XScan.collect search queries) ->
                  exists results,
                    (q = XScanner.query s \/ In (XScanner.query s) queries)
                    /\ search (XScanner.query s) = XScan.Returned results
                    /\ In s (XScan.signalsOf (XScanner.query s) results)).
  { intros H. destruct (IH H) as (results & H1 & H2). exists results. tauto. }
  destruct (search q) as [results | code] eqn:Hq.
  - intros H. apply in_app_or in H. destruct H as [H | H]; [| auto].
    assert (Hquery : XScanner.query s = q).
    { apply signalsOf_In in H.
      destruct H as (? & ? & _ & _ & _ & _ & _ & H & _). exact H. }
    exists results. rewrite Hquery. tauto.
  - destruct (XScan.rateLimited code); [cbn; tauto | auto].
Qed.

(** Nothing is collected after the query that hits the rate limit. *)
Lemma XScan_collect_limited (search : string -> XScan.Outcome)
  (before after : list string) (q : string) :
  search q = XScan.Thrown (Some 429%Z) ->
  XScan.collect search (before ++ q :: after) = XScan.collect search before.
Proof.
  intros Hq. induction before as [| q' before IH]; cbn.
  - rewrite Hq. reflexivity.
  - rewrite IH. reflexivity.
Qed.

(** Without a rate limit every query is collected. *)
Lemma XScan_collect_all (search : string -> XScan.Outcome)
  (queries : list string) (q : string) (results : XScan.SearchData)
  (s : XScanner.XSignal) :
  (forall q', In q' queries -> search q' <> XScan.Thrown (Some 429%Z)) ->
  In q queries -> search q = XScan.Returned results ->
  In s (XScan.signalsOf q results) ->
  In s (XScan.collect search queries).
Proof.
  intros Hno Hq Hres Hs.
  induction queries as [| q' queries IH]; [contradiction |].
  cbn. assert (Hq' := Hno q' (or_introl eq_refl)).
  assert (IH' : In q queries -> In s (XScan.collect search queries)).
  { intros H. apply IH; [| exact H]. intros q'' H''. apply Hno. now right. }
  destruct Hq as [-> | Hq].
  - rewrite Hres. apply in_or_app. now left.
  - destruct (search q') as [results' | code] eqn:Hs'.
    + apply in_or_app. right. auto.
    + destruct code as [c |]; cbn; [| auto].
      destruct (Z.eqb_spec c 429) as [-> | _]; [congruence | auto].
Qed.

Lemma prefix_at (s : string) :
  String.prefix "@" (String.append "@" s) = true.
Proof. cbn. now destruct s. Qed.

Lemma scanX_signals_In (search : string -> XScan.Outcome) (now : string)
  (s : XScanner.XSignal) :
  In s (XScanner.signals (XScan.scanX search now))
  <-> In s (Dedup.byKey XScanner.tweetId
              (XScan.collect search XScan.SCAN_QUERIES)).
Proof. unfold XScan.scanX. cbn [XScanner.signals]. apply sort_In. Qed.

(** X20.  The signals of a scan have distinct tweet ids; each comes from
    a tweet in the answer to its query, one of the scan's queries, with
    the engagement [likes + 2 * retweets + 1.5 * replies] of its counts,
    which is not below 20, and an author that starts with [@]. *)
Theorem scanX_signals (search : string -> XScan.Outcome) (now : string) :
  NoDup (map XScanner.tweetId (XScanner.signals (XScan.scanX search now)))
  /\ Forall
       (fun s =>
          JS.lt (XScanner.engagementScore s) (JS.Fin 20) = false
          /\ XScanner.engagementScore s
             = JS.add
                 (JS.add (XScanner.likes s)
                    (JS.mul (XScanner.retweets s) (JS.Fin 2)))
                 (JS.mul (XScanner.replies s) (JS.Fin 1.5))
          /\ String.prefix "@" (XScanner.author s) = true
          /\ In (XScanner.query s) XScan.SCAN_QUERIES
          /\ exists results tweet,
               search (XScanner.query s) = XScan.Returned results
               /\ In tweet (orElse (XScan.data results) [])
               /\ XScan.Tweet.id tweet = XScanner.tweetId s
               /\ XScan.Tweet.text tweet = XScanner.text s)
       (XScanner.signals (XScan.scanX search now)).
Proof.
  split.
  - unfold XScan.scanX. cbn [XScanner.signals].
    apply NoDup_sorted_map, from_NoDup.
  - rewrite Forall_forall. intros s Hs. apply scanX_signals_In in Hs.
    apply from_In in Hs. destruct Hs as [Hs _].
    apply XScan_collect_In in Hs. destruct Hs as (results & Hq & Hres & Hs).
    apply signalsOf_In in Hs.
    destruct Hs as (tweet & m & Htweet & Hm & Hlt & Htext & Hid & _ & Hl
                    & Hr & Hp & Heng & _ & _ & Hauthor).
    repeat split.
    + rewrite Heng, Hl, Hr, Hp. exact Hlt.
    + exact Heng.
    + rewrite Hauthor. apply prefix_at.
    + exact Hq.
    + exists results, tweet. repeat split; auto.
Qed.

(** X21.  When a search fails on the rate limit (code 429) the scan stops
    asking: every signal of the result comes from a query before that
    one. *)
Theorem scanX_rate_limit (search : string -> XScan.Outcome) (now : string)
  (before after : list string) (q : string) :
  XScan.SCAN_QUERIES = before ++ q :: after ->
  search q = XScan.Thrown (Some 429%Z) ->
  Forall (fun s => In (XScanner.query s) before)
    (XScanner.signals (XScan.scanX search now)).
Proof.
  intros Hqs Hq. rewrite Forall_forall. intros s Hs.
  apply scanX_signals_In in Hs. apply from_In in Hs. destruct Hs as [Hs _].
  rewrite Hqs, (XScan_collect_limited search before after q Hq) in Hs.
  apply XScan_collect_In in Hs. destruct Hs as (_ & H & _). exact H.
Qed.

Lemma scanX_rate_limit_witness :
  Forall
    (fun s => In (XScanner.query s) (firstn 9 XScan.SCAN_QUERIES))
    (XScanner.signals (XScan.scanX Samples.searchLimited "now")).
Proof.
  apply (scanX_rate_limit Samples.searchLimited "now"
           (firstn 9 XScan.SCAN_QUERIES) (skipn 10 XScan.SCAN_QUERIES)
           "from:rajgokal -is:retweet").
  - reflexivity.
  - reflexivity.
Defined.

(** X22.  When no search fails on the rate limit, every tweet in the
    answer to a query whose engagement is not below 20 has its id among
    the signals, whatever other searches fail. *)
Theorem scanX_complete (search : string -> XScan.Outcome) (now : string)
  (q : string) (results : XScan.SearchData) (tweet : XScan.Tweet.t)
  (m : XScan.Metrics.t) :
  (forall q', In q' XScan.SCAN_QUERIES ->
              search q' <> XScan.Thrown (Some 429%Z)) ->
  In q XScan.SCAN_QUERIES ->
  search q = XScan.Returned results ->
  In tweet (orElse (XScan.data results) []) ->
  XScan.Tweet.public_metrics tweet = Some m ->
  JS.lt
    (XScanner.computeEngagement
       (orElse (XScan.Metrics.like_count m) (JS.Fin 0))
       (orElse (XScan.Metrics.retweet_count m) (JS.Fin 0))
       (orElse (XScan.Metrics.reply_count m) (JS.Fin 0)))
    (JS.Fin 20) = false ->
  In (XScan.Tweet.id tweet)
    (map XScanner.tweetId (XScanner.signals (XScan.scanX search now))).
Proof.
  intros Hno Hq Hres Htweet Hm Hlt.
  set (users := orElse (XScan.users results) []).
  set (s :=
    {| XScanner.text := XScan.Tweet.text tweet;
       XScanner.author :=
         String.append "@"
           (orElse
              (XScan.usernameOf users
                 (orElse (XScan.Tweet.author_id tweet) ""%string))
              "unknown"%string);
       XScanner.authorId := orElse (XScan.Tweet.author_id tweet) ""%string;
       XScanner.likes := orElse (XScan.Metrics.like_count m) (JS.Fin 0);
       XScanner.retweets := orElse (XScan.Metrics.retweet_count m) (JS.Fin 0);
       XScanner.replies := orElse (XScan.Metrics.reply_count m) (JS.Fin 0);
       XScanner.created := orElse (XScan.Tweet.created_at tweet) ""%string;
       XScanner.tweetId := XScan.Tweet.id tweet;
       XScanner.query := q;
       XScanner.engagementScore :=
         XScanner.computeEngagement
           (orElse (XScan.Metrics.like_count m) (JS.Fin 0))
           (orElse (XScan.Metrics.retweet_count m) (JS.Fin 0))
           (orElse (XScan.Metrics.reply_count m) (JS.Fin 0)) |}).
  assert (Hs : In s (XScan.collect search XScan.SCAN_QUERIES)).
  { apply (XScan_collect_all search _ q results s Hno Hq Hres).
    apply signalsOf_In. exists tweet, m. cbn. repeat split; assumption. }
  unfold XScan.scanX. cbn [XScanner.signals].
  apply (Permutation_in (XScan.Tweet.id tweet)
           (Permutation_map XScanner.tweetId
              (Permutation_sym (sort_perm _ _)))).
  apply (from_keys XScanner.tweetId [] _ s Hs). cbn. tauto.
Qed.

Lemma scanX_complete_witness :
  In "1"%string
    (map XScanner.tweetId
       (XScanner.signals (XScan.scanX Samples.searchQuiet "now"))).
Proof.
  apply (scanX_complete Samples.searchQuiet "now"
           "from:0xMert_ solana -is:retweet" Samples.answer
           (Samples.tweetOf "1" "Solana privacy is here" 100)
           {| XScan.Metrics.like_count := Some (JS.Fin 100);
              XScan.Metrics.retweet_count := None;
              XScan.Metrics.reply_count := None |}).
  - intros q' _. unfold Samples.searchQuiet.
    destruct (String.eqb q' _); discriminate.
  - cbn. tauto.
  - reflexivity.
  - cbn. tauto.
  - reflexivity.
  - js_decide.
Defined.

Lemma assoc_unique {V : Type} (l : list (string * V)) (k : string)
  (v v' : V) :
  NoDup (map fst l) -> In (k, v) l -> In (k, v') l -> v = v'.
Proof.
  induction l as [| [k0 v0] l IH]; cbn; [tauto |].
  intros Hnd. inversion Hnd as [| ? ? Hout Hnd']; subst.
  intros [H | H] [H' | H'].
  - congruence.
  - exfalso. apply Hout. injection H as -> _.
    apply in_map_iff. exists (k, v'). auto.
  - exfalso. apply Hout. injection H' as -> _.
    apply in_map_iff. exists (k, v). auto.
  - auto.
Qed.

(** X23.  When the engagements are numbers, the signals of a scan are in
    order of decreasing engagement, and the top tweets of every cluster
    are its most engaging: no matching signal left out of them has a
    higher engagement than one of them. *)
Theorem scanX_sorted (search : string -> XScan.Outcome) (now : string) :
  Forall (fun s => finite (XScanner.engagementScore s))
    (XScanner.signals (XScan.scanX search now)) ->
  StronglySorted
    (fun a b =>
       JS.ge (XScanner.engagementScore a) (XScanner.engagementScore b)
       = true)
    (XScanner.signals (XScan.scanX search now))
  /\ Forall
       (fun c =>
          forall patterns s s',
            In (XScanner.topic c, patterns) XScanner.topicPatterns ->
            In s (XScanner.topTweets c) ->
            In s' (XScanner.signals (XScan.scanX search now)) ->
            signalMatches patterns s' = true ->
            ~ In s' (XScanner.topTweets c) ->
            JS.ge (XScanner.engagementScore s) (XScanner.engagementScore s')
            = true)
       (XScanner.topicClusters (XScan.scanX search now)).
Proof.
  intros Hfin.
  assert (Hsorted : StronglySorted
            (fun a b =>
               JS.ge (XScanner.engagementScore a)
                 (XScanner.engagementScore b) = true)
            (XScanner.signals (XScan.scanX search now))).
  { unfold XScan.scanX. cbn [XScanner.signals].
    apply (sorted_by_score XScanner.engagementScore).
    intros s Hs. rewrite Forall_forall in Hfin. apply Hfin.
    unfold XScan.scanX. cbn [XScanner.signals]. apply sort_In. exact Hs. }
  split; [exact Hsorted |].
  rewrite Forall_forall. intros c Hc patterns s s' Hentry Hs Hs' Hmatch Hout.
  change (XScanner.topicClusters (XScan.scanX search now))
    with (XScanner.clusterByTopic
            (XScanner.signals (XScan.scanX search now))) in Hc.
  apply clusterByTopic_In in Hc.
  destruct Hc as (t & ps & Hentry' & _ & ->).
  cbn [XScanner.clusterOf XScanner.topic XScanner.topTweets] in *.
  assert (ps = patterns)
    by (apply (assoc_unique _ _ _ _ XScanner_table_unique Hentry' Hentry)).
  subst ps.
  apply (top_of_sorted _ (signalMatches patterns) 5 _ s s' Hsorted);
    assumption.
Qed.

(** The busier scan: what is collected, the result in order, and the
    cluster of its six signals. *)
Lemma busy_threshold (likes : R) :
  JS.lt (XScanner.computeEngagement (JS.Fin likes) (JS.Fin 0) (JS.Fin 0))
    (JS.Fin 20)
  = if Rlt_dec likes 20 then true else false.
Proof.
  cbn. destruct (Rlt_dec (likes + 0 * 2 + 0 * 1.5) 20),
    (Rlt_dec likes 20); try reflexivity; lra.
Qed.

Lemma busy_collected :
  Dedup.byKey XScanner.tweetId
    (XScan.collect Samples.searchBusy XScan.SCAN_QUERIES)
  = [ Samples.signalBusy "1" "bridge one" 30;
      Samples.signalBusy "2" "bridge two" 80;
      Samples.signalBusy "3" "bridge three" 25;
      Samples.signalBusy "4" "bridge four" 60;
      Samples.signalBusy "5" "bridge five" 45;
      Samples.signalBusy "6" "bridge six" 90 ].
Proof.
  unfold XScan.SCAN_QUERIES.
  cbn [XScan.collect XScan.quoted String.append Samples.searchBusy
       String.eqb Ascii.eqb Bool.eqb XScan.rateLimited].
  unfold XScan.signalsOf, Samples.answerBusy, Samples.tweetOf.
  cbn [flat_map orElse XScan.data XScan.users XScan.Tweet.public_metrics
       XScan.Metrics.like_count XScan.Metrics.retweet_count
       XScan.Metrics.reply_count XScan.Tweet.id XScan.Tweet.text
       XScan.Tweet.author_id XScan.Tweet.created_at].
  rewrite !busy_threshold. js_cases. reflexivity.
Qed.

Lemma busy_after (id text id' text' : string) (likes likes' : R) :
  JS.gt
    (JS.sub (XScanner.engagementScore (Samples.signalBusy id' text' likes'))
       (XScanner.engagementScore (Samples.signalBusy id text likes)))
    (JS.Fin 0)
  = if Rlt_dec likes likes' then true else false.
Proof.
  cbn. js_cases; reflexivity.
Qed.

Lemma busy_signals :
  XScanner.signals (XScan.scanX Samples.searchBusy "now")
  = [ Samples.signalBusy "6" "bridge six" 90;
      Samples.signalBusy "2" "bridge two" 80;
      Samples.signalBusy "4" "bridge four" 60;
      Samples.signalBusy "5" "bridge five" 45;
      Samples.signalBusy "1" "bridge one" 30;
      Samples.signalBusy "3" "bridge three" 25 ].
Proof.
  unfold XScan.scanX. cbn [XScanner.signals]. rewrite busy_collected.
  cbn [Arr.sort fold_right].
  repeat (cbn [Arr.insert]; rewrite ?busy_after; js_cases).
  reflexivity.
Qed.

Lemma busy_cluster :
  exists c,
    In c (XScanner.topicClusters (XScan.scanX Samples.searchBusy "now"))
    /\ XScanner.topic c = "Cross-chain & Interoperability"%string
    /\ XScanner.tweetCount c = JS.ofNat 6
    /\ XScanner.topTweets c
       = [ Samples.signalBusy "6" "bridge six" 90;
           Samples.signalBusy "2" "bridge two" 80;
           Samples.signalBusy "4" "bridge four" 60;
           Samples.signalBusy "5" "bridge five" 45;
           Samples.signalBusy "1" "bridge one" 30 ].
Proof.
  change (XScanner.topicClusters (XScan.scanX Samples.searchBusy "now"))
    with (XScanner.clusterByTopic
            (XScanner.signals (XScan.scanX Samples.searchBusy "now"))).
  rewrite busy_signals.
  eexists. split; [| split; [| split]].
  - apply clusterByTopic_In. eexists. eexists.
    split; [do 6 right; left; reflexivity |]. split; [| reflexivity].
    discriminate.
  - reflexivity.
  - reflexivity.
  - reflexivity.
Qed.

Lemma busy_finite (s : XScanner.XSignal) :
  In s (XScanner.signals (XScan.scanX Samples.searchBusy "now")) ->
  finite (XScanner.engagementScore s).
Proof.
  rewrite busy_signals. cbn [In].
  intros [<- | [<- | [<- | [<- | [<- | [<- | []]]]]]]; exact I.
Qed.

Lemma scanX_sorted_witness :
  map XScanner.tweetId
    (XScanner.signals (XScan.scanX Samples.searchBusy "now"))
  = ["6"; "2"; "4"; "5"; "1"; "3"]%string
  /\ (exists c,
        In c (XScanner.topicClusters (XScan.scanX Samples.searchBusy "now"))
        /\ XScanner.topic c = "Cross-chain & Interoperability"%string
        /\ XScanner.tweetCount c = JS.ofNat 6
        /\ XScanner.topTweets c
           = [ Samples.signalBusy "6" "bridge six" 90;
               Samples.signalBusy "2" "bridge two" 80;
               Samples.signalBusy "4" "bridge four" 60;
               Samples.signalBusy "5" "bridge five" 45;
               Samples.signalBusy "1" "bridge one" 30 ])
  /\ StronglySorted
       (fun a b =>
          JS.ge (XScanner.engagementScore a) (XScanner.engagementScore b)
          = true)
       (XScanner.signals (XScan.scanX Samples.searchBusy "now"))
  /\ Forall
       (fun c =>
          forall patterns s s',
            In (XScanner.topic c, patterns) XScanner.topicPatterns ->
            In s (XScanner.topTweets c) ->
            In s' (XScanner.signals (XScan.scanX Samples.searchBusy "now")) ->
            signalMatches patterns s' = true ->
            ~ In s' (XScanner.topTweets c) ->
            JS.ge (XScanner.engagementScore s) (XScanner.engagementScore s')
            = true)
       (XScanner.topicClusters (XScan.scanX Samples.searchBusy "now")).
Proof.
  split; [rewrite busy_signals; reflexivity |].
  split; [exact busy_cluster |].
  apply (scanX_sorted Samples.searchBusy "now").
  apply Forall_forall. exact busy_finite.
Defined.

(** ** scanGitHub *)

Lemma GHScan_collect_In (fetch : string -> GHScan.Outcome)
  (queries : list string) (r : GHScanner.GHRepo) :
  In r (GHScan.collect fetch queries) ->
  In (GHScanner.query r) queries
  /\ exists status items item,
       fetch (GHScanner.query r) = GHScan.Response true status items
       /\ In item (orElse items [])
       /\ r = GHScan.repoOf (GHScanner.query r) item.
Proof.
  induction queries as [| q queries IH]; cbn; [tauto |].
  assert (Hrest : In r (GHScan.collect fetch queries) ->
            (q = GHScanner.query r \/ In (GHScanner.query r) queries)
            /\ exists status items item,
                 fetch (GHScanner.query r) = GHScan.Response true status items
                 /\ In item (orElse items [])
                 /\ r = GHScan.repoOf (GHScanner.query r) item).
  { intros H. destruct (IH H) as [H1 H2]. split; [now right | exact H2]. }
  destruct (fetch q) as [ok status items |] eqn:Hq; [| exact Hrest].
  destruct ok; cbn.
  - intros H. apply in_app_or in H. destruct H as [H | H]; [| auto].
    apply in_map_iff in H. destruct H as (item & <- & Hitem). cbn.
    split; [now left |]. exists status, items, item. auto.
  - destruct (status =? 403)%Z; [cbn; tauto | exact Hrest].
Qed.

(** Nothing is collected after the query that is answered with 403. *)
Lemma GHScan_collect_forbidden (fetch : string -> GHScan.Outcome)
  (before after : list string) (q : string) (items : option (list GHScan.Item)) :
  fetch q = GHScan.Response false 403 items ->
  GHScan.collect fetch (before ++ q :: after) = GHScan.collect fetch before.
Proof.
  intros Hq. induction before as [| q' before IH]; cbn.
  - rewrite Hq. reflexivity.
  - rewrite IH. reflexivity.
Qed.

Lemma app_split_first {A : Type} (a1 a2 p rest : list A) (x : A) :
  a1 ++ x :: a2 = p ++ rest -> ~ In x p ->
  exists a1', a1 = p ++ a1' /\ a1' ++ x :: a2 = rest.
Proof.
  revert a1. induction p as [| y p IH]; intros a1 Heq Hout.
  - exists a1. auto.
  - destruct a1 as [| z a1]; cbn in Heq.
    + injection Heq as -> _. exfalso. apply Hout. now left.
    + injection Heq as -> Heq.
      destruct (IH a1 Heq) as (a1' & -> & H).
      { intros H. apply Hout. now right. }
      exists a1'. auto.
Qed.

(** The items of an earlier query come before the repositories of a
    later one in the collected list. *)
Lemma GHScan_collect_order (fetch : string -> GHScan.Outcome)
  (l1 rest : list string) (q' : string) (status : Z)
  (items : option (list GHScan.Item)) (item : GHScan.Item)
  (a1 a2 : list GHScanner.GHRepo) (r : GHScanner.GHRepo) :
  NoDup (l1 ++ q' :: rest) ->
  In (GHScanner.query r) rest ->
  fetch q' = GHScan.Response true status items ->
  In item (orElse items []) ->
  GHScan.collect fetch (l1 ++ q' :: rest) = a1 ++ r :: a2 ->
  In (GHScan.repoOf q' item) a1.
Proof.
  intros Hnd Hr Hq' Hitem. revert a1.
  induction l1 as [| q0 l1 IH]; intros a1 Hall.
  - cbn in Hall. rewrite Hq' in Hall. cbn in Hall. symmetry in Hall.
    apply app_split_first in Hall.
    + destruct Hall as (a1' & -> & _). apply in_or_app. left.
      apply in_map. exact Hitem.
    + intros H. apply in_map_iff in H. destruct H as (i & <- & _).
      cbn in Hr. inversion Hnd; subst. contradiction.
  - cbn [app] in Hnd. inversion Hnd as [| ? ? Hout Hnd']; subst.
    specialize (IH Hnd').
    cbn [app GHScan.collect] in Hall.
    destruct (fetch q0) as [ok st its |] eqn:Hq0; [| apply IH, Hall].
    destruct ok; cbn [negb] in Hall.
    + symmetry in Hall. apply app_split_first in Hall.
      * destruct Hall as (a1' & -> & Hall). apply in_or_app. right.
        apply IH. symmetry. exact Hall.
      * intros H. apply in_map_iff in H. destruct H as (i & <- & _).
        cbn in Hr. apply Hout. apply in_or_app. right. now right.
    + destruct (st =? 403)%Z; [| apply IH, Hall].
      destruct a1; discriminate Hall.
Qed.

Lemma scanGitHub_repos_In (fetch : string -> GHScan.Outcome) (now : string)
  (r : GHScanner.GHRepo) :
  In r (GHScanner.repos (GHScan.scanGitHub fetch now))
  <-> In r (Dedup.byKey GHScanner.fullName
              (GHScan.collect fetch GHScan.SCAN_QUERIES))
      /\ GHScan.described r = true.
Proof.
  unfold GHScan.scanGitHub. cbn [GHScanner.repos].
  rewrite sort_In. apply filter_In.
Qed.

Lemma described_spec (r : GHScanner.GHRepo) :
  GHScan.described r = true
  <-> (10 <= String.length (GHScanner.description r))%nat
      /\ GHScan.isSpam (GHScanner.description r) = false.
Proof.
  unfold GHScan.described.
  destruct (String.eqb_spec (GHScanner.description r) "") as [He | He].
  - rewrite He. cbn. split; [discriminate | intros [H _]; lia].
  - cbn [orb].
    destruct (Nat.ltb_spec (String.length (GHScanner.description r)) 10).
    + split; [discriminate | intros [H' _]; lia].
    + destruct (GHScan.isSpam _); split; try tauto; try discriminate.
      intros [_ H']. discriminate.
Qed.

Lemma GHScan_queries_distinct : NoDup GHScan.SCAN_QUERIES.
Proof. repeat constructor; cbn; intuition discriminate. Qed.

(** X24.  The repositories of a scan have distinct full names and a
    description of at least ten characters without [airdrop],
    [free token] or [claim now]; each is made of an item in the answer
    to its query, and no earlier query of the scan was answered with an
    item of the same full name. *)
Theorem scanGitHub_repos (fetch : string -> GHScan.Outcome) (now : string) :
  NoDup (map GHScanner.fullName
           (GHScanner.repos (GHScan.scanGitHub fetch now)))
  /\ Forall
       (fun r =>
          (10 <= String.length (GHScanner.description r))%nat
          /\ GHScan.isSpam (GHScanner.description r) = false
          /\ In (GHScanner.query r) GHScan.SCAN_QUERIES
          /\ (exists status items item,
                 fetch (GHScanner.query r)
                 = GHScan.Response true status items
                 /\ In item (orElse items [])
                 /\ r = GHScan.repoOf (GHScanner.query r) item)
          /\ forall l1 q' rest status items item,
               GHScan.SCAN_QUERIES = l1 ++ q' :: rest ->
               In (GHScanner.query r) rest ->
               fetch q' = GHScan.Response true status items ->
               In item (orElse items []) ->
               GHScan.full_name item <> GHScanner.fullName r)
       (GHScanner.repos (GHScan.scanGitHub fetch now)).
Proof.
  split.
  - unfold GHScan.scanGitHub. cbn [GHScanner.repos].
    apply NoDup_sorted_map.
    assert (H := from_NoDup GHScanner.fullName []
                   (GHScan.collect fetch GHScan.SCAN_QUERIES)).
    fold (Dedup.byKey GHScanner.fullName
            (GHScan.collect fetch GHScan.SCAN_QUERIES)) in H.
    revert H.
    generalize (Dedup.byKey GHScanner.fullName
                  (GHScan.collect fetch GHScan.SCAN_QUERIES)).
    intros l. induction l as [| x l IH]; cbn; [constructor |].
    intros H. inversion H as [| ? ? Hout Hnd]; subst.
    destruct (GHScan.described x); [| auto].
    cbn. constructor; [| auto].
    intros Hin. apply Hout. apply in_map_iff in Hin.
    destruct Hin as (y & Hy & Hin). apply filter_In in Hin.
    apply in_map_iff. exists y. tauto.
  - rewrite Forall_forall. intros r Hr. apply scanGitHub_repos_In in Hr.
    destruct Hr as [Hr Hdesc]. apply described_spec in Hdesc.
    pose proof (from_first _ _ _ _ Hr) as (a1 & a2 & Hall & Hfirst).
    apply from_In in Hr. destruct Hr as [Hr _].
    apply GHScan_collect_In in Hr. destruct Hr as [Hq Hitem].
    repeat split; try tauto.
    intros l1 q' rest status items item Hqs Hrest Hq' Hin Hname.
    apply Hfirst. apply in_map_iff.
    exists (GHScan.repoOf q' item). split; [exact Hname |].
    apply (GHScan_collect_order fetch l1 rest q' status items item a1 a2 r);
      try assumption.
    + rewrite <- Hqs. apply GHScan_queries_distinct.
    + rewrite <- Hqs. exact Hall.
Qed.

(** X25.  When a request is answered with status 403 the scan stops
    asking: every repository of the result comes from a query before
    that one. *)
Theorem scanGitHub_forbidden (fetch : string -> GHScan.Outcome)
  (now : string) (before after : list string) (q : string)
  (items : option (list GHScan.Item)) :
  GHScan.SCAN_QUERIES = before ++ q :: after ->
  fetch q = GHScan.Response false 403 items ->
  Forall (fun r => In (GHScanner.query r) before)
    (GHScanner.repos (GHScan.scanGitHub fetch now)).
Proof.
  intros Hqs Hq. rewrite Forall_forall. intros r Hr.
  apply scanGitHub_repos_In in Hr. destruct Hr as [Hr _].
  apply from_In in Hr. destruct Hr as [Hr _].
  rewrite Hqs, (GHScan_collect_forbidden fetch before after q items Hq) in Hr.
  apply GHScan_collect_In in Hr. tauto.
Qed.

Lemma scanGitHub_forbidden_witness :
  Forall (fun r => In (GHScanner.query r) ["solana+agent"%string])
    (GHScanner.repos (GHScan.scanGitHub Samples.fetchForbidden "now")).
Proof.
  apply (scanGitHub_forbidden Samples.fetchForbidden "now"
           ["solana+agent"%string] (skipn 2 GHScan.SCAN_QUERIES)
           "solana+privacy" None).
  - reflexivity.
  - reflexivity.
Defined.

(** X26.  When the star counts are numbers, the repositories of a scan
    are in order of decreasing stars, and the top repositories of every
    cluster are its most starred: no matching repository left out of
    them has more stars than one of them. *)
Theorem scanGitHub_sorted (fetch : string -> GHScan.Outcome) (now : string) :
  Forall (fun r => finite (GHScanner.stars r))
    (GHScanner.repos (GHScan.scanGitHub fetch now)) ->
  StronglySorted
    (fun a b => JS.ge (GHScanner.stars a) (GHScanner.stars b) = true)
    (GHScanner.repos (GHScan.scanGitHub fetch now))
  /\ Forall
       (fun c =>
          forall patterns r r',
            In (GHScanner.topic c, patterns) GHScanner.topicPatterns ->
            In r (GHScanner.topRepos c) ->
            In r' (GHScanner.repos (GHScan.scanGitHub fetch now)) ->
            repoMatches patterns r' = true ->
            ~ In r' (GHScanner.topRepos c) ->
            JS.ge (GHScanner.stars r) (GHScanner.stars r') = true)
       (GHScanner.topicClusters (GHScan.scanGitHub fetch now)).
Proof.
  intros Hfin.
  assert (Hsorted : StronglySorted
            (fun a b => JS.ge (GHScanner.stars a) (GHScanner.stars b) = true)
            (GHScanner.repos (GHScan.scanGitHub fetch now))).
  { unfold GHScan.scanGitHub. cbn [GHScanner.repos].
    apply (sorted_by_score GHScanner.stars).
    intros r Hr. rewrite Forall_forall in Hfin. apply Hfin.
    unfold GHScan.scanGitHub. cbn [GHScanner.repos]. apply sort_In.
    exact Hr. }
  split; [exact Hsorted |].
  rewrite Forall_forall. intros c Hc patterns r r' Hentry Hr Hr' Hmatch Hout.
  change (GHScanner.topicClusters (GHScan.scanGitHub fetch now))
    with (GHScanner.clusterReposByTopic
            (GHScanner.repos (GHScan.scanGitHub fetch now))) in Hc.
  apply clusterReposByTopic_In in Hc.
  destruct Hc as (t & ps & Hentry' & _ & ->).
  cbn [GHScanner.clusterOf GHScanner.topic GHScanner.topRepos] in *.
  assert (ps = patterns)
    by (apply (assoc_unique _ _ _ _ GHScanner_table_unique Hentry' Hentry)).
  subst ps.
  apply (top_of_sorted _ (repoMatches patterns) 5 _ r r' Hsorted);
    assumption.
Qed.

(** The busier scan: what is kept, the result in order, and the
    cluster of its seven repositories. *)
Lemma busy_fetched :
  filter GHScan.described
    (Dedup.byKey GHScanner.fullName
       (GHScan.collect Samples.fetchBusy GHScan.SCAN_QUERIES))
  = [ Samples.repoBusy "dev/kit-one" "Agent toolkit one" 30;
      Samples.repoBusy "dev/kit-two" "Agent toolkit two" 80;
      Samples.repoBusy "dev/kit-three" "Agent toolkit three" 25;
      Samples.repoBusy "dev/kit-four" "Agent toolkit four" 60;
      Samples.repoBusy "dev/kit-five" "Agent toolkit five" 45;
      Samples.repoBusy "dev/kit-six" "Agent toolkit six" 90;
      Samples.repoBusy "dev/kit-seven" "Agent toolkit seven" 5 ].
Proof. reflexivity. Qed.

Lemma busy_more_stars (name description name' description' : string)
  (stars stars' : R) :
  JS.gt
    (JS.sub (GHScanner.stars (Samples.repoBusy name' description' stars'))
       (GHScanner.stars (Samples.repoBusy name description stars)))
    (JS.Fin 0)
  = if Rlt_dec stars stars' then true else false.
Proof.
  cbn. js_cases; reflexivity.
Qed.

Lemma busy_repos :
  GHScanner.repos (GHScan.scanGitHub Samples.fetchBusy "now")
  = [ Samples.repoBusy "dev/kit-six" "Agent toolkit six" 90;
      Samples.repoBusy "dev/kit-two" "Agent toolkit two" 80;
      Samples.repoBusy "dev/kit-four" "Agent toolkit four" 60;
      Samples.repoBusy "dev/kit-five" "Agent toolkit five" 45;
      Samples.repoBusy "dev/kit-one" "Agent toolkit one" 30;
      Samples.repoBusy "dev/kit-three" "Agent toolkit three" 25;
      Samples.repoBusy "dev/kit-seven" "Agent toolkit seven" 5 ].
Proof.
  unfold GHScan.scanGitHub. cbn [GHScanner.repos]. rewrite busy_fetched.
  cbn [Arr.sort fold_right].
  repeat (cbn [Arr.insert]; rewrite ?busy_more_stars; js_cases).
  reflexivity.
Qed.

Lemma busy_repo_cluster :
  exists c,
    In c (GHScanner.topicClusters (GHScan.scanGitHub Samples.fetchBusy "now"))
    /\ GHScanner.topic c = "AI Agent Infrastructure"%string
    /\ GHScanner.repoCount c = JS.ofNat 7
    /\ GHScanner.topRepos c
       = [ Samples.repoBusy "dev/kit-six" "Agent toolkit six" 90;
           Samples.repoBusy "dev/kit-two" "Agent toolkit two" 80;
           Samples.repoBusy "dev/kit-four" "Agent toolkit four" 60;
           Samples.repoBusy "dev/kit-five" "Agent toolkit five" 45;
           Samples.repoBusy "dev/kit-one" "Agent toolkit one" 30 ].
Proof.
  change (GHScanner.topicClusters (GHScan.scanGitHub Samples.fetchBusy "now"))
    with (GHScanner.clusterReposByTopic
            (GHScanner.repos (GHScan.scanGitHub Samples.fetchBusy "now"))).
  rewrite busy_repos.
  eexists. split; [| split; [| split]].
  - apply clusterReposByTopic_In. eexists. eexists.
    split; [left; reflexivity |]. split; [| reflexivity].
    discriminate.
  - reflexivity.
  - reflexivity.
  - reflexivity.
Qed.

Lemma busy_repos_finite (r : GHScanner.GHRepo) :
  In r (GHScanner.repos (GHScan.scanGitHub Samples.fetchBusy "now")) ->
  finite (GHScanner.stars r).
Proof.
  rewrite busy_repos. cbn [In].
  intros [<- | [<- | [<- | [<- | [<- | [<- | [<- | []]]]]]]]; exact I.
Qed.

Lemma scanGitHub_sorted_witness :
  map GHScanner.fullName
    (GHScanner.repos (GHScan.scanGitHub Samples.fetchBusy "now"))
  = [ "dev/kit-six"; "dev/kit-two"; "dev/kit-four"; "dev/kit-five";
      "dev/kit-one"; "dev/kit-three"; "dev/kit-seven" ]%string
  /\ (exists c,
        In c (GHScanner.topicClusters
                (GHScan.scanGitHub Samples.fetchBusy "now"))
        /\ GHScanner.topic c = "AI Agent Infrastructure"%string
        /\ GHScanner.repoCount c = JS.ofNat 7
        /\ GHScanner.topRepos c
           = [ Samples.repoBusy "dev/kit-six" "Agent toolkit six" 90;
               Samples.repoBusy "dev/kit-two" "Agent toolkit two" 80;
               Samples.repoBusy "dev/kit-four" "Agent toolkit four" 60;
               Samples.repoBusy "dev/kit-five" "Agent toolkit five" 45;
               Samples.repoBusy "dev/kit-one" "Agent toolkit one" 30 ])
  /\ StronglySorted
       (fun a b => JS.ge (GHScanner.stars a) (GHScanner.stars b) = true)
       (GHScanner.repos (GHScan.scanGitHub Samples.fetchBusy "now"))
  /\ Forall
       (fun c =>
          forall patterns r r',
            In (GHScanner.topic c, patterns) GHScanner.topicPatterns ->
            In r (GHScanner.topRepos c) ->
            In r' (GHScanner.repos
                     (GHScan.scanGitHub Samples.fetchBusy "now")) ->
            repoMatches patterns r' = true ->
            ~ In r' (GHScanner.topRepos c) ->
            JS.ge (GHScanner.stars r) (GHScanner.stars r') = true)
       (GHScanner.topicClusters (GHScan.scanGitHub Samples.fetchBusy "now")).
Proof.
  split; [rewrite busy_repos; reflexivity |].
  split; [exact busy_repo_cluster |].
  apply (scanGitHub_sorted Samples.fetchBusy "now").
  apply Forall_forall. exact busy_repos_finite.
Defined.

(** * The conversion script *)

(** ** The map of the old tweets *)

Lemma mapSet_keys (k : string) (v : ConvertMain.OldTweet.t)
  (m : list (string * ConvertMain.OldTweet.t)) :
  map fst (ConvertMain.mapSet k v m)
  = if in_dec string_dec k (map fst m) then map fst m
    else map fst m ++ [k].
Proof.
  induction m as [| [k' v'] m IH]; cbn [ConvertMain.mapSet map fst].
  - reflexivity.
  - destruct (String.eqb_spec k' k) as [-> | Hne].
    + cbn [map fst]. clear IH.
      destruct (in_dec string_dec k (k :: map fst m)) as [_ | Hout];
        [reflexivity | exfalso; apply Hout; now left].
    + cbn [map fst]. rewrite IH.
      destruct (in_dec string_dec k (map fst m)) as [Hin | Hout];
        destruct (in_dec string_dec k (k' :: map fst m)) as [Hin' | Hout'];
        try reflexivity.
      * exfalso. apply Hout'. now right.
      * destruct Hin' as [-> | Hin']; [congruence | contradiction].
Qed.

Lemma mapSet_In (k : string) (v : ConvertMain.OldTweet.t)
  (m : list (string * ConvertMain.OldTweet.t))
  (e : string * ConvertMain.OldTweet.t) :
  In e (ConvertMain.mapSet k v m) -> e = (k, v) \/ In e m.
Proof.
  induction m as [| [k' v'] m IH]; cbn [ConvertMain.mapSet].
  - intros [<- | []]. now left.
  - destruct (String.eqb_spec k' k) as [-> | Hne].
    + intros [<- | H]; [now left | right; now right].
    + intros [<- | H]; [right; now left |].
      destruct (IH H) as [-> | H']; [now left | right; now right].
Qed.

(** The entries of the map: distinct keys, each the first 120
    characters of the text of its tweet, a tweet of the input. *)
Lemma merge_entries (flatTweets : list ConvertMain.OldTweet.t)
  (topicTweets : list (list ConvertMain.OldTweet.t)) :
  NoDup (map fst (ConvertMain.merge flatTweets topicTweets))
  /\ Forall
       (fun e =>
          fst e = Text.slice0 120 (ConvertMain.OldTweet.text (snd e))
          /\ In (snd e) (flatTweets ++ List.concat topicTweets))
       (ConvertMain.merge flatTweets topicTweets).
Proof.
  unfold ConvertMain.merge.
  set (step := fun m t =>
         ConvertMain.mapSet
           (Text.slice0 120 (ConvertMain.OldTweet.text t)) t m).
  set (Inv := fun (Q : ConvertMain.OldTweet.t -> Prop)
                  (m : list (string * ConvertMain.OldTweet.t)) =>
         NoDup (map fst m)
         /\ Forall
              (fun e =>
                 fst e = Text.slice0 120 (ConvertMain.OldTweet.text (snd e))
                 /\ Q (snd e)) m).
  assert (Hstep : forall Q m t, Inv Q m -> Q t -> Inv Q (step m t)).
  { intros Q m t [Hnd Hall] Ht. split.
    - unfold step. rewrite mapSet_keys.
      destruct (in_dec _ _ _) as [_ | Hout]; [exact Hnd |].
      apply NoDup_app; [exact Hnd | repeat constructor; intros [] | ].
      intros a Ha [<- | []]. contradiction.
    - rewrite Forall_forall in *. intros e He.
      apply mapSet_In in He. destruct He as [-> | He]; [| auto].
      cbn. auto. }
  assert (Hfold : forall Q l m,
            Inv Q m -> (forall t, In t l -> Q t) ->
            Inv Q (fold_left step l m)).
  { intros Q l. induction l as [| t l IH]; intros m Hm Hl; cbn; [exact Hm |].
    apply IH; [| intros t' Ht'; apply Hl; now right].
    apply Hstep; [exact Hm | apply Hl; now left]. }
  set (Q := fun t => In t (flatTweets ++ List.concat topicTweets)).
  assert (Hflat : Inv Q (fold_left step flatTweets [])).
  { apply Hfold; [split; constructor |].
    intros t Ht. apply in_or_app. now left. }
  assert (Htopics : forall ls m,
            Inv Q m -> (forall t, In t (List.concat ls) -> Q t) ->
            Inv Q (fold_left (fun m tweets => fold_left step tweets m) ls m)).
  { intros ls. induction ls as [| l ls IH]; intros m Hm Hls; cbn;
      [exact Hm |].
    apply IH.
    - apply Hfold; [exact Hm |]. intros t Ht. apply Hls. cbn.
      apply in_or_app. now left.
    - intros t Ht. apply Hls. cbn. apply in_or_app. now right. }
  apply (Htopics topicTweets _ Hflat).
  intros t Ht. apply in_or_app. now right.
Qed.

(** ** The signals pushed *)

Lemma signalsFrom_In (idCounter : nat) (olds : list ConvertMain.OldTweet.t)
  (s : XScanner.XSignal) :
  In s (ConvertMain.signalsFrom idCounter olds) ->
  exists t,
    In t olds
    /\ XScanner.text s = ConvertMain.OldTweet.text t
    /\ XScanner.query s = ConvertMain.OldTweet.query t
    /\ XScanner.likes s = ConvertMain.OldTweet.likes t
    /\ XScanner.retweets s = ConvertMain.OldTweet.rts t
    /\ XScanner.replies s = ConvertMain.OldTweet.replies t
    /\ XScanner.engagementScore s
       = ConvertMain.computeEngagement (XScanner.likes s)
           (XScanner.retweets s) (XScanner.replies s)
    /\ JS.lt (XScanner.engagementScore s) (JS.Fin 20) = false
    /\ XScanner.author s
       = if String.prefix "@" (ConvertMain.OldTweet.author t)
         then ConvertMain.OldTweet.author t
         else String.append "@" (ConvertMain.OldTweet.author t).
Proof.
  revert idCounter.
  induction olds as [| t olds IH]; intros idCounter; cbn; [tauto |].
  match goal with |- In s (if ?b then _ else _) -> _ => destruct b eqn:Hlt end.
  - intros H. destruct (IH _ H) as (t' & H' & Hrest). exists t'. tauto.
  - intros [<- | H].
    + exists t. cbn. repeat split; auto.
    + destruct (IH _ H) as (t' & H' & Hrest). exists t'. tauto.
Qed.

Lemma signalsFrom_ids (idCounter : nat)
  (olds : list ConvertMain.OldTweet.t) :
  map (fun s => (XScanner.tweetId s, XScanner.authorId s))
    (ConvertMain.signalsFrom idCounter olds)
  = map (fun k =>
           (String.append "cache_" (ConvertMain.decimal k),
            String.append "synth_" (ConvertMain.decimal k)))
      (seq idCounter
         (List.length (ConvertMain.signalsFrom idCounter olds))).
Proof.
  revert idCounter.
  induction olds as [| t olds IH]; intros idCounter; cbn; [reflexivity |].
  destruct (JS.lt _ _); [apply IH |].
  cbn. f_equal. apply IH.
Qed.

Lemma signalsFrom_prefixes (idCounter : nat)
  (olds : list ConvertMain.OldTweet.t) :
  NoDup (map (fun t => Text.slice0 120 (ConvertMain.OldTweet.text t)) olds) ->
  NoDup (map (fun s => Text.slice0 120 (XScanner.text s))
           (ConvertMain.signalsFrom idCounter olds)).
Proof.
  revert idCounter.
  induction olds as [| t olds IH]; intros idCounter Hnd; [constructor |].
  inversion Hnd as [| ? ? Hout Hnd']; subst.
  cbn [ConvertMain.signalsFrom].
  match goal with |- context [if ?b then _ else _] => destruct b end;
    [apply IH, Hnd' |].
  cbn [map XScanner.text]. constructor; [| apply IH, Hnd'].
  intros H. apply Hout. apply in_map_iff in H.
  destruct H as (s & Hs & Hin). apply signalsFrom_In in Hin.
  destruct Hin as (t' & Ht' & Htext & _).
  apply in_map_iff. exists t'. split; [congruence | exact Ht'].
Qed.

Lemma to_uint_nonnil (n : nat) : Nat.to_uint n <> Decimal.Nil.
Proof.
  rewrite <- (DecimalNat.Unsigned.of_to n) at 1.
  rewrite DecimalNat.Unsigned.to_of. apply DecimalFacts.unorm_nonnil.
Qed.

Lemma decimal_inj (a b : nat) :
  ConvertMain.decimal a = ConvertMain.decimal b -> a = b.
Proof.
  unfold ConvertMain.decimal. intros H.
  apply DecimalNat.Unsigned.to_uint_inj.
  assert (Ha := DecimalString.NilZero.usu _ (to_uint_nonnil a)).
  assert (Hb := DecimalString.NilZero.usu _ (to_uint_nonnil b)).
  rewrite H in Ha. congruence.
Qed.

Lemma append_inj (p a b : string) :
  String.append p a = String.append p b -> a = b.
Proof.
  induction p as [| c p IH]; cbn; [tauto |].
  intros H. injection H as H. auto.
Qed.

Lemma NoDup_map_inj {A B : Type} (f : A -> B) (l : list A) :
  (forall a b, f a = f b -> a = b) -> NoDup l -> NoDup (map f l).
Proof.
  intros Hinj. induction 1 as [| x l Hout Hnd IH]; cbn; constructor.
  - intros H. apply in_map_iff in H. destruct H as (y & Hy & Hin).
    apply Hinj in Hy. subst. contradiction.
  - exact IH.
Qed.

Lemma ids_NoDup (p : string) (c n : nat) :
  NoDup (map (fun k => String.append p (ConvertMain.decimal k)) (seq c n)).
Proof.
  apply NoDup_map_inj; [| apply seq_NoDup].
  intros a b H. apply decimal_inj, (append_inj p), H.
Qed.

Lemma byKey_distinct (l : list string) :
  NoDup (ConvertMain.distinct l)
  /\ forall q, In q (ConvertMain.distinct l) <-> In q l.
Proof.
  unfold ConvertMain.distinct, Dedup.byKey. split.
  - rewrite <- (map_id (Dedup.from _ _ _)). apply from_NoDup.
  - intros q. split.
    + intros H. apply from_In in H. tauto.
    + intros H.
      pose proof (from_keys (fun q : string => q) [] l q H) as H'.
      rewrite map_id in H'. apply H'. cbn. tauto.
Qed.

(** X27.  The signals that the conversion script writes are numbered
    from 1 in both ids, so tweet ids and author ids are distinct; no two
    of them share the first 120 characters of their text; each comes
    from a tweet of the input, with the engagement of its counts, not
    below 20, and an author starting with [@]; and the queries listed
    are those of the signals, each once. *)
Theorem converted_signals (flatTweets : list ConvertMain.OldTweet.t)
  (topicTweets : list (list ConvertMain.OldTweet.t)) (now : string) :
  let signals :=
    XScanner.signals (ConvertMain.xResult flatTweets topicTweets now) in
  Permutation
    (map (fun s => (XScanner.tweetId s, XScanner.authorId s)) signals)
    (map (fun k =>
            (String.append "cache_" (ConvertMain.decimal k),
             String.append "synth_" (ConvertMain.decimal k)))
       (seq 1 (List.length signals)))
  /\ NoDup (map XScanner.tweetId signals)
  /\ NoDup (map XScanner.authorId signals)
  /\ NoDup (map (fun s => Text.slice0 120 (XScanner.text s)) signals)
  /\ Forall
       (fun s =>
          JS.lt (XScanner.engagementScore s) (JS.Fin 20) = false
          /\ XScanner.engagementScore s
             = JS.add
                 (JS.add (XScanner.likes s)
                    (JS.mul (XScanner.retweets s) (JS.Fin 2)))
                 (JS.mul (XScanner.replies s) (JS.Fin 1.5))
          /\ String.prefix "@" (XScanner.author s) = true
          /\ exists t,
               In t (flatTweets ++ List.concat topicTweets)
               /\ XScanner.text s = ConvertMain.OldTweet.text t
               /\ XScanner.query s = ConvertMain.OldTweet.query t)
       signals
  /\ NoDup (XScanner.queries
              (ConvertMain.xResult flatTweets topicTweets now))
  /\ forall q,
       In q (XScanner.queries
               (ConvertMain.xResult flatTweets topicTweets now))
       <-> In q (map XScanner.query signals).
Proof.
  intros signals.
  set (olds := ConvertMain.mapValues
                 (ConvertMain.merge flatTweets topicTweets)).
  set (after := fun a b : XScanner.XSignal =>
         JS.gt (JS.sub (XScanner.engagementScore b)
                  (XScanner.engagementScore a)) (JS.Fin 0)).
  assert (Hsig : signals = Arr.sort after (ConvertMain.signalsFrom 1 olds))
    by reflexivity.
  assert (Hperm : Permutation signals (ConvertMain.signalsFrom 1 olds))
    by (rewrite Hsig; apply sort_perm).
  destruct (merge_entries flatTweets topicTweets) as [Hkeys Hentries].
  assert (Hids : Permutation
            (map (fun s => (XScanner.tweetId s, XScanner.authorId s)) signals)
            (map (fun k =>
                    (String.append "cache_" (ConvertMain.decimal k),
                     String.append "synth_" (ConvertMain.decimal k)))
               (seq 1 (List.length signals)))).
  { rewrite (Permutation_length Hperm), <- signalsFrom_ids.
    apply Permutation_map, Hperm. }
  split; [exact Hids |].
  split.
  { apply (Permutation_map fst) in Hids. rewrite !map_map in Hids.
    cbn [fst] in Hids.
    apply (Permutation_NoDup (Permutation_sym Hids)).
    apply (ids_NoDup "cache_"). }
  split.
  { apply (Permutation_map snd) in Hids. rewrite !map_map in Hids.
    cbn [snd] in Hids.
    apply (Permutation_NoDup (Permutation_sym Hids)).
    apply (ids_NoDup "synth_"). }
  split.
  { apply (Permutation_NoDup
             (Permutation_map _ (Permutation_sym Hperm))).
    apply signalsFrom_prefixes.
    unfold olds, ConvertMain.mapValues. rewrite map_map.
    rewrite (map_ext_in _ fst); [exact Hkeys |].
    intros e He. rewrite Forall_forall in Hentries.
    symmetry. apply Hentries, He. }
  split.
  { rewrite Forall_forall. intros s Hs.
    apply (Permutation_in _ Hperm) in Hs. apply signalsFrom_In in Hs.
    destruct Hs as (t & Ht & Htext & Hquery & _ & _ & _ & Heng & Hlt
                    & Hauthor).
    repeat split; try assumption.
    - rewrite Hauthor.
      destruct (String.prefix "@" (ConvertMain.OldTweet.author t)) eqn:Hp;
        [exact Hp | apply prefix_at].
    - exists t. repeat split; try assumption.
      unfold olds, ConvertMain.mapValues in Ht. apply in_map_iff in Ht.
      destruct Ht as (e & <- & He). rewrite Forall_forall in Hentries.
      apply Hentries, He. }
  apply byKey_distinct.
Qed.

(** ** The repositories converted *)

Lemma filter_twice {A : Type} (f g : A -> bool) (l : list A) :
  filter g (filter f l) = filter (fun x => f x && g x) l.
Proof.
  induction l as [| x l IH]; cbn; [reflexivity |].
  destruct (f x); cbn; [destruct (g x) |]; now rewrite IH.
Qed.

(** X28.  The conversion script keeps the old repositories that have a
    description of at least ten characters without [airdrop],
    [free token] or [claim now], all of them and as often as they occur,
    in order of decreasing stars when the star counts are numbers, and
    clusters them as the scanner does. *)
Theorem converted_repos (oldRepos : list ConvertMain.OldRepo.t)
  (now : string) :
  let repos := GHScanner.repos (ConvertMain.ghResult oldRepos now) in
  Permutation repos
    (map ConvertMain.repoOf
       (filter
          (fun r => ConvertMain.described r && ConvertMain.notSpam r)
          oldRepos))
  /\ Forall
       (fun g =>
          (10 <= String.length (GHScanner.description g))%nat
          /\ GHScan.isSpam (GHScanner.description g) = false
          /\ exists r,
               In r oldRepos
               /\ ConvertMain.OldRepo.description r
                  = Some (GHScanner.description g)
               /\ ConvertMain.OldRepo.full_name r = GHScanner.fullName g)
       repos
  /\ (Forall (fun g => finite (GHScanner.stars g)) repos ->
      StronglySorted
        (fun a b => JS.ge (GHScanner.stars a) (GHScanner.stars b) = true)
        repos)
  /\ GHScanner.topicClusters (ConvertMain.ghResult oldRepos now)
     = GHScanner.clusterReposByTopic repos.
Proof.
  intros repos.
  set (after := fun a b : GHScanner.GHRepo =>
         JS.gt (JS.sub (GHScanner.stars b) (GHScanner.stars a)) (JS.Fin 0)).
  assert (Hrepos : repos
                   = Arr.sort after
                       (map ConvertMain.repoOf
                          (filter ConvertMain.notSpam
                             (filter ConvertMain.described oldRepos))))
    by reflexivity.
  assert (Hperm : Permutation repos
            (map ConvertMain.repoOf
               (filter
                  (fun r => ConvertMain.described r && ConvertMain.notSpam r)
                  oldRepos))).
  { rewrite Hrepos, filter_twice. apply sort_perm. }
  split; [exact Hperm |].
  split.
  { rewrite Forall_forall. intros g Hg.
    apply (Permutation_in _ Hperm) in Hg. apply in_map_iff in Hg.
    destruct Hg as (r & <- & Hr). apply filter_In in Hr.
    destruct Hr as [Hr Hkeep]. apply andb_true_iff in Hkeep.
    destruct Hkeep as [Hd Hs].
    unfold ConvertMain.described in Hd. unfold ConvertMain.notSpam in Hs.
    destruct (ConvertMain.OldRepo.description r) as [d |] eqn:Hdesc;
      [| discriminate].
    apply andb_true_iff in Hd. destruct Hd as [_ Hlen].
    apply Nat.leb_le in Hlen. apply negb_true_iff in Hs.
    cbn [ConvertMain.repoOf GHScanner.description GHScanner.fullName].
    rewrite Hdesc. cbn [orElse] in *.
    repeat split; try assumption.
    exists r. auto. }
  split.
  { intros Hfin. rewrite Hrepos.
    apply (sorted_by_score GHScanner.stars).
    intros g Hg. rewrite Forall_forall in Hfin. apply Hfin.
    rewrite Hrepos. apply sort_In. exact Hg. }
  reflexivity.
Qed.

(** * Key terms once more *)

(** ** The characters of the words *)

Lemma allChars_append (class : ascii -> bool) (a b : string) :
  allChars class (String.append a b) = allChars class a && allChars class b.
Proof.
  induction a as [| c a IH]; cbn; [reflexivity |].
  rewrite IH. apply andb_assoc.
Qed.

Lemma allChars_impl (class class' : ascii -> bool) (s : string) :
  (forall c, class c = true -> class' c = true) ->
  allChars class s = true -> allChars class' s = true.
Proof.
  intros Himpl. induction s as [| c s IH]; cbn; [reflexivity |].
  intros H. apply andb_true_iff in H. destruct H as [Hc Hs].
  rewrite (Himpl c Hc), (IH Hs). reflexivity.
Qed.

Lemma blank_chars (keep : ascii -> bool) (s : string) :
  allChars (fun c => keep c || Ascii.eqb c " ") (Text.blank keep s) = true.
Proof.
  induction s as [| c s IH]; cbn; [reflexivity |].
  rewrite IH, andb_true_r. destruct (keep c) eqn:Hc.
  - rewrite Hc. reflexivity.
  - apply orb_true_r.
Qed.

(** The pieces of a split hold the characters that are no separators. *)
Lemma splitFrom_chars (sep class : ascii -> bool) (cur : string)
  (inSep : bool) (s : string) :
  allChars class cur = true ->
  allChars (fun c => sep c || class c) s = true ->
  Forall (fun piece => allChars class piece = true)
    (Text.splitFrom sep cur inSep s).
Proof.
  revert cur inSep. induction s as [| c s IH]; intros cur inSep Hcur Hs.
  - cbn. repeat constructor. exact Hcur.
  - cbn in Hs. apply andb_true_iff in Hs. destruct Hs as [Hc Hs].
    cbn [Text.splitFrom]. destruct (sep c) eqn:Hsep.
    + destruct inSep; [| constructor; [exact Hcur |]];
        apply IH; auto.
    + apply IH; [| exact Hs].
      rewrite allChars_append, Hcur. cbn. cbn in Hc. rewrite Hc.
      reflexivity.
Qed.

Lemma XScanner_words_chars (s : XScanner.XSignal) :
  Forall (fun w => allChars Text.isLowerAlnum w = true) (XScanner.words s).
Proof.
  unfold XScanner.words. apply matching_finite.
  apply splitFrom_chars; [reflexivity |].
  apply (allChars_impl _ _ _) with (2 := blank_chars _ _).
  intros c Hc. apply orb_true_iff in Hc. destruct Hc as [Hc | Hc].
  - apply orb_true_iff in Hc. destruct Hc as [Hc | Hc]; rewrite Hc;
      [apply orb_true_r | reflexivity].
  - apply Ascii.eqb_eq in Hc. subst c. reflexivity.
Qed.

Lemma GHScanner_words_chars (r : GHScanner.GHRepo) :
  Forall (fun w => allChars Text.isLowerAlnum w = true) (GHScanner.words r).
Proof.
  unfold GHScanner.words. apply matching_finite.
  apply splitFrom_chars; [reflexivity |].
  apply (allChars_impl _ _ _) with (2 := blank_chars _ _).
  intros c Hc. apply orb_true_iff in Hc. destruct Hc as [Hc | Hc].
  - apply orb_true_iff in Hc. destruct Hc as [Hc | Hc].
    + apply orb_true_iff in Hc. destruct Hc as [Hc | Hc]; rewrite Hc;
        [apply orb_true_r | reflexivity].
    + rewrite Hc, orb_true_r. reflexivity.
  - apply Ascii.eqb_eq in Hc. subst c. reflexivity.
Qed.

(** ** Every frequent word is ranked *)

Lemma get_In (k : string) (c : nat) (m : StrMap.t) :
  StrMap.get k m = Some c -> In (k, c) m.
Proof.
  induction m as [| [k' v'] m IH]; cbn; [discriminate |].
  destruct (String.eqb_spec k' k) as [-> | _].
  - intros H. injection H as ->. now left.
  - intros H. right. auto.
Qed.

Lemma rank_complete (ws : list string) (w : string) :
  In w ws -> (2 <= freq ws w)%nat ->
  In w (rank ws)
  \/ (List.length (rank ws) = 10%nat
      /\ Forall (fun k => ranksBefore ws k w) (rank ws)).
Proof.
  intros Hw H2.
  pose proof (counted_fold ws [] [] counted_nil) as Hc. cbn in Hc.
  set (m := fold_left countWord ws []) in *.
  pose proof Hc as [Hget Hord].
  assert (Hnd : NoDup (map fst m)).
  { apply (StronglySorted_NoDup _ _ (fun a => Nat.lt_irrefl (firstSeen a ws))
             Hord). }
  assert (Hentry : forall e, In e m ->
             In (fst e) ws /\ snd e = freq ws (fst e)).
  { intros [k c] Hin. cbn.
    apply (In_get k c m Hnd) in Hin. rewrite (Hget k) in Hin.
    destruct (in_dec string_dec k ws); [| discriminate].
    inversion Hin. auto. }
  unfold rank, StrMap.entries. fold m.
  set (after := fun a b : string * nat => JS.gt _ _).
  set (kept := filter (fun e => (2 <=? snd e)%nat) m).
  assert (Hsorted :
            StronglySorted
              (fun a b =>
                 (snd b < snd a)%nat
                 \/ (snd a = snd b
                     /\ (firstSeen (fst a) ws < firstSeen (fst b) ws)%nat))
              (Arr.sort after kept)).
  { apply (sort_stable snd
             (fun a b => (firstSeen (fst a) ws < firstSeen (fst b) ws)%nat)
             after after_count).
    apply StronglySorted_filter.
    clear - Hord. induction m as [| e m IH]; [constructor |].
    cbn in Hord. inversion Hord as [| ? ? Hm He]; subst.
    constructor; [auto |].
    rewrite Forall_forall in *. intros b Hb.
    apply He, in_map, Hb. }
  assert (He : In (w, freq ws w) (Arr.sort after kept)).
  { apply sort_In, filter_In. split.
    - apply get_In. rewrite (Hget w).
      destruct (in_dec string_dec w ws); [reflexivity | contradiction].
    - apply Nat.leb_le. exact H2. }
  rewrite <- (firstn_skipn 10 (Arr.sort after kept)) in He, Hsorted.
  apply in_app_or in He. destruct He as [He | He].
  - left. apply in_map_iff. exists (w, freq ws w). auto.
  - right. split.
    + rewrite length_map, length_firstn. apply Nat.min_l.
      destruct (le_lt_dec 10 (List.length (Arr.sort after kept)))
        as [Hle | Hlt]; [exact Hle |].
      rewrite skipn_all2 in He by lia. contradiction.
    + rewrite Forall_forall. intros k Hk. apply in_map_iff in Hk.
      destruct Hk as (a & <- & Ha).
      pose proof (StronglySorted_app_inv _ _ _ a (w, freq ws w)
                    Hsorted Ha He) as Hab.
      apply firstn_In, sort_In, filter_In in Ha.
      destruct (Hentry a (proj1 Ha)) as [_ Hfa].
      unfold ranksBefore. cbn [fst snd] in Hab. rewrite <- Hfa. exact Hab.
Qed.

Lemma ranksBefore_irrefl (ws : list string) (a : string) :
  ~ ranksBefore ws a a.
Proof. unfold ranksBefore. lia. Qed.

(** X29.  The key terms of either extractor are distinct words made of
    the characters [a-z] and [0-9] only; and every word counted at least
    twice is among them unless there are ten key terms that all rank
    before it. *)
Theorem keyTerms_clean_complete (signals : list XScanner.XSignal)
  (repos : list GHScanner.GHRepo) :
  let xs := flat_map XScanner.words signals in
  let gs := flat_map GHScanner.words repos in
  (NoDup (XScanner.extractKeyTerms signals)
   /\ Forall (fun w => allChars Text.isLowerAlnum w = true)
        (XScanner.extractKeyTerms signals)
   /\ forall w,
        In w xs -> (2 <= freq xs w)%nat ->
        In w (XScanner.extractKeyTerms signals)
        \/ (List.length (XScanner.extractKeyTerms signals) = 10%nat
            /\ Forall (fun k => ranksBefore xs k w)
                 (XScanner.extractKeyTerms signals)))
  /\ (NoDup (GHScanner.extractKeyTerms repos)
      /\ Forall (fun w => allChars Text.isLowerAlnum w = true)
           (GHScanner.extractKeyTerms repos)
      /\ forall w,
           In w gs -> (2 <= freq gs w)%nat ->
           In w (GHScanner.extractKeyTerms repos)
           \/ (List.length (GHScanner.extractKeyTerms repos) = 10%nat
               /\ Forall (fun k => ranksBefore gs k w)
                    (GHScanner.extractKeyTerms repos))).
Proof.
  intros xs gs. split.
  - rewrite XScanner_extractKeyTerms_rank. fold xs.
    destruct (rank_spec xs) as (_ & Hall & Hsorted).
    split; [| split].
    + apply (StronglySorted_NoDup _ _ (ranksBefore_irrefl xs) Hsorted).
    + rewrite Forall_forall in *. intros w Hw.
      destruct (Hall w Hw) as [Hin _].
      apply in_flat_map in Hin. destruct Hin as (s & _ & Hin).
      pose proof (XScanner_words_chars s) as Hs.
      rewrite Forall_forall in Hs. apply Hs, Hin.
    + intros w. apply rank_complete.
  - rewrite GHScanner_extractKeyTerms_rank. fold gs.
    destruct (rank_spec gs) as (_ & Hall & Hsorted).
    split; [| split].
    + apply (StronglySorted_NoDup _ _ (ranksBefore_irrefl gs) Hsorted).
    + rewrite Forall_forall in *. intros w Hw.
      destruct (Hall w Hw) as [Hin _].
      apply in_flat_map in Hin. destruct Hin as (r & _ & Hin).
      pose proof (GHScanner_words_chars r) as Hr.
      rewrite Forall_forall in Hr. apply Hr, Hin.
    + intros w. apply rank_complete.
Qed.

(** * Build ideas *)

Lemma own_nonempty (narrative : string) (found : list Ideas.BuildIdea) :
  Ideas.own narrative Ideas.ideas = Some found -> found <> [].
Proof.
  unfold Ideas.ideas. cbn [Ideas.own]. intros H.
  repeat match type of H with
         | context [if ?b then _ else _] => destruct b
         end;
    try discriminate H; injection H as <-; discriminate.
Qed.

(** X30.  Every narrative of the aggregator's result has build ideas of
    its own in the table, between one and four with distinct titles, so
    the page, which shows four at most, shows them all, and the general
    tracker idea is never used for it; for any other name that the table
    does not inherit the ideas are that single one. *)
Theorem build_ideas_of_narratives (xResult : XScanner.XScanResult)
  (ghResult : GHScanner.GHScanResult) :
  Forall
    (fun n =>
       exists found,
         Ideas.generateBuildIdeas (name n) (Social.keyTerms (social n))
           (Developer.keyTerms (developer n)) = Some found
         /\ Ideas.own (name n) Ideas.ideas = Some found
         /\ (1 <= List.length found <= 4)%nat
         /\ firstn 4 found = found
         /\ NoDup (map Ideas.title found))
    (aggregateSignals xResult ghResult)
  /\ forall narrative socialTerms devTerms,
       Text.has Ideas.inherited narrative = false ->
       exists found,
         Ideas.generateBuildIdeas narrative socialTerms devTerms = Some found
         /\ found <> []
         /\ (Ideas.own narrative Ideas.ideas = None ->
             map Ideas.title found = ["Narrative Tracker"%string]).
Proof.
  split.
  - rewrite Forall_forall. intros n Hn.
    apply (proj1 (sort_In _ n _)) in Hn.
    destruct (aggregateSignals_In _ _ _ Hn)
      as (nm & xn & gn & Hentry & _ & Hname & _).
    rewrite Hname. clear Hname Hn.
    unfold Ideas.generateBuildIdeas.
    unfold TOPIC_ALIGNMENT in Hentry. cbn [In] in Hentry.
    repeat (destruct Hentry as [Hentry | Hentry];
            [ injection Hentry as <- _ _;
              eexists; split; [reflexivity |];
              split; [reflexivity |];
              split; [cbn; lia |];
              split; [reflexivity |];
              cbn; repeat constructor; cbn; intuition discriminate
            | ]).
    contradiction.
  - intros narrative socialTerms devTerms Hown.
    unfold Ideas.generateBuildIdeas.
    destruct (Ideas.own narrative Ideas.ideas) as [found |] eqn:Hfound.
    + exists found. repeat split; [| discriminate].
      apply (own_nonempty narrative), Hfound.
    + rewrite Hown. eexists. repeat split. discriminate.
Qed.
